(** * The DB2 storage driver of ceilometer (ceilometer/storage/impl_db2.py)

    A shallow embedding of the driver: Python values and dictionaries, the
    document store reached through pymongo (collections of documents, with a
    record of every call made to it), and the functions of the module,
    written in a state-and-exception monad.

    Conventions. A dictionary is a finite map with string keys. An optional
    argument is an [option]; [None] is Python's [None]. A [datetime] is an
    integer on the time line and, like every [datetime], is true in a
    condition. A generator function is modelled by what consuming its result
    does: the list of the items it yields, or the exception that ends it,
    together with the calls made to the store. *)

From stdpp Require Import gmap strings list fin_maps sorting pretty.
From Stdlib Require Import ZArith Ascii OrdersEx.

#[local] Set Warnings "-register-all,-clear-no-such-hyp".
#[local] Open Scope string_scope.
#[local] Open Scope list_scope.
#[local] Open Scope Z_scope.

(** ** Python values *)

Module Py.

(** The values that travel between the driver and the store. A [datetime] is
    its position on the time line; a dictionary has string keys, as BSON
    documents do. *)
Inductive value :=
| VNone
| VBool (b : bool)
| VInt (n : Z)
| VTime (t : Z)
| VStr (s : string)
| VList (l : list value)
| VDict (d : gmap string value).

Abbreviation dict := (gmap string value).

Fixpoint value_eq_dec (x y : value) {struct x} : Decision (x = y).
Proof.
  refine
    match x, y with
    | VNone, VNone => left _
    | VBool a, VBool b => cast_if (decide (a = b))
    | VInt a, VInt b => cast_if (decide (a = b))
    | VTime a, VTime b => cast_if (decide (a = b))
    | VStr a, VStr b => cast_if (decide (a = b))
    | VList a, VList b => cast_if (@list_eq_dec _ value_eq_dec a b)
    | VDict a, VDict b => cast_if (@gmap_eq_dec _ _ _ _ value_eq_dec a b)
    | _, _ => right _
    end; congruence.
Defined.

#[global] Instance value_eqdec : EqDecision value := value_eq_dec.

(** [bool(v)]: what [if v:] tests. *)
Definition truthy (v : value) : bool :=
  match v with
  | VNone => false
  | VBool b => b
  | VInt n => negb (Z.eqb n 0)
  | VTime _ => true
  | VStr s => negb (String.eqb s "")
  | VList l => match l with [] => false | _ => true end
  | VDict d => negb (bool_decide (d = ∅))
  end.

(** An optional string argument ([None] or a [str]) and an optional datetime,
    seen as values. *)
Definition of_str (o : option string) : value :=
  match o with Some s => VStr s | None => VNone end.

Definition of_time (o : option Z) : value :=
  match o with Some t => VTime t | None => VNone end.

Definition of_bool (o : option bool) : value :=
  match o with Some b => VBool b | None => VNone end.

(** [q[k] = v] under the guard [if c:]. *)
Definition set_if (c : bool) (k : string) (v : value) (q : dict) : dict :=
  if c then <[k := v]> q else q.

(** [bool(o)] for an optional object of a class that defines neither
    [__nonzero__] nor [__len__], such as [base.Pagination]: every instance
    is true. *)
Definition object_truthy {A} (o : option A) : bool :=
  match o with Some _ => true | None => false end.

(** [v is not None]. *)
Definition is_not_None (v : value) : bool :=
  match v with VNone => false | _ => true end.

(** A keyword argument of a call: left out, so that the default of the
    signature applies, or given. *)
Inductive kwarg (A : Type) :=
| Omitted
| Given (a : A).

Arguments Omitted {A}.
Arguments Given {A} a.

Definition kwarg_value {A} (dflt : A) (a : kwarg A) : A :=
  match a with Omitted => dflt | Given v => v end.

(** The exceptions the driver raises or lets through. *)
Inductive exn :=
| RuntimeError (msg : string)
| NotImplementedError (msg : string)
| KeyError (key : string)
| TypeError
| AttributeError
| OperationFailure.

Inductive result (A : Type) :=
| Ok (a : A)
| Err (e : exn).

Arguments Ok {A} a.
Arguments Err {A} e.

Definition result_bind {A B} (r : result A) (f : A → result B) : result B :=
  match r with Ok a => f a | Err e => Err e end.

Definition result_map {A B} (f : A → B) (r : result A) : result B :=
  match r with Ok a => Ok (f a) | Err e => Err e end.

(** [d[k]], which raises [KeyError] on a missing key. *)
Definition getitem (d : dict) (k : string) : result value :=
  match d !! k with Some v => Ok v | None => Err (KeyError k) end.

(** [for x in l: ... f(x) ...], collecting the results, stopping at the first
    exception. *)
Fixpoint result_mapM {A B} (f : A → result B) (l : list A) : result (list B) :=
  match l with
  | [] => Ok []
  | x :: l' =>
      result_bind (f x) (λ y, result_map (cons y) (result_mapM f l'))
  end.

End Py.

Export Py.

(** ** The range builder and the filter translator *)

(** [storage.SampleFilter]: every field optional; [start] and [end] are
    datetimes. *)
Record SampleFilter := {
  sf_user : option string;
  sf_project : option string;
  sf_start : option Z;
  sf_start_timestamp_op : option string;
  sf_end : option Z;
  sf_end_timestamp_op : option string;
  sf_resource : option string;
  sf_meter : option string;
  sf_source : option string;
  sf_metaquery : dict;
}.

(** [if start:] and [if end:] test datetimes, which are true when given. *)
Definition make_timestamp_range (start end_ : option Z)
    (start_timestamp_op end_timestamp_op : option string) : dict :=
  let ts_range : dict := ∅ in
  let ts_range :=
    match start with
    | Some t =>
        let start_timestamp_op :=
          if decide (start_timestamp_op = Some "gt") then "$gt" else "$gte" in
        <[start_timestamp_op := VTime t]> ts_range
    | None => ts_range
    end in
  let ts_range :=
    match end_ with
    | Some t =>
        let end_timestamp_op :=
          if decide (end_timestamp_op = Some "le") then "$lte" else "$lt" in
        <[end_timestamp_op := VTime t]> ts_range
    | None => ts_range
    end in
  ts_range.

(** [dict((prefix + k, v) for (k, v) in m.iteritems())]. *)
Definition prefix_keys (prefix : string) (m : dict) : dict :=
  kmap (String.append prefix) m.

Definition make_query_from_filter (sample_filter : SampleFilter)
    (require_meter : bool) : result dict :=
  let q : dict := ∅ in
  let q := set_if (truthy (of_str (sf_user sample_filter)))
             "user_id" (of_str (sf_user sample_filter)) q in
  let q := set_if (truthy (of_str (sf_project sample_filter)))
             "project_id" (of_str (sf_project sample_filter)) q in
  result_bind
    (if truthy (of_str (sf_meter sample_filter))
     then Ok (<["counter_name" := of_str (sf_meter sample_filter)]> q)
     else if require_meter
          then Err (RuntimeError "Missing required meter specifier")
          else Ok q)
    (λ q,
      let ts_range :=
        make_timestamp_range (sf_start sample_filter) (sf_end sample_filter)
          (sf_start_timestamp_op sample_filter)
          (sf_end_timestamp_op sample_filter) in
      let q :=
        set_if (truthy (VDict ts_range)) "timestamp" (VDict ts_range) q in
      let q := set_if (truthy (of_str (sf_resource sample_filter)))
                 "resource_id" (of_str (sf_resource sample_filter)) q in
      let q := set_if (truthy (of_str (sf_source sample_filter)))
                 "source" (of_str (sf_source sample_filter)) q in
      Ok (prefix_keys "resource_" (sf_metaquery sample_filter) ∪ q)).

(** ** The document store

    What the driver sees of pymongo: named collections of documents, each with
    its index metadata. Every call the driver makes is appended to [log], so
    that a statement can speak of the queries that were issued. *)

Module Mongo.

Inductive direction := ASCENDING | DESCENDING.

#[global] Instance direction_eqdec : EqDecision direction.
Proof. solve_decision. Defined.

Abbreviation index_keys := (list (string * direction)).

Record collection := {
  docs : list dict;
  indexes : gmap string index_keys;
}.

Definition empty_collection : collection := {| docs := []; indexes := ∅ |}.

Inductive op :=
| OpIndexInformation (c : string)
| OpInsert (c : string) (d : dict)
| OpUpdate (c : string) (spec document : dict) (upsert : bool)
| OpRemove (c : string) (spec : dict)
| OpEnsureIndex (c : string) (keys : index_keys) (name : string)
| OpFind (c : string) (spec : dict) (sort : option (string * direction))
         (limit : Z)
| OpDistinct (c : string) (spec : dict) (key : string).

(** The collection an operation addresses. *)
Definition op_collection (o : op) : string :=
  match o with
  | OpIndexInformation c | OpInsert c _ | OpUpdate c _ _ _ | OpRemove c _
  | OpEnsureIndex c _ _ | OpFind c _ _ _ | OpDistinct c _ _ => c
  end.

Record state := {
  db : gmap string collection;
  next_oid : nat;
  log : list op;
}.

Definition empty_state : state := {| db := ∅; next_oid := 0%nat; log := [] |}.

Definition coll (c : string) (st : state) : collection :=
  default empty_collection (db st !! c).

Definition set_coll (c : string) (x : collection) (st : state) : state :=
  {| db := <[c := x]> (db st); next_oid := next_oid st; log := log st |}.

Definition set_docs (c : string) (ds : list dict) (st : state) : state :=
  set_coll c {| docs := ds; indexes := indexes (coll c st) |} st.

(** *** Matching a document against a query document *)

(** Values are ordered by type first; within a type the model orders
    numbers, booleans and dates by their value and strings byte by byte,
    and leaves arrays and documents tied. *)
Definition type_rank (v : value) : Z :=
  match v with
  | VNone => 0
  | VInt _ => 1
  | VStr _ => 2
  | VDict _ => 3
  | VList _ => 4
  | VBool _ => 5
  | VTime _ => 6
  end.

Definition payload (v : value) : Z :=
  match v with
  | VInt n => n
  | VTime t => t
  | VBool b => if b then 1 else 0
  | _ => 0
  end.

Definition text (v : value) : string :=
  match v with
  | VStr s => s
  | _ => ""
  end.

(** The order of two strings: that of the first byte in which they differ,
    a proper prefix coming first. *)
Definition str_lt (a b : string) : Prop := String_as_OT.compare a b = Lt.

Definition str_le (a b : string) : Prop := String_as_OT.compare a b ≠ Gt.

#[global] Instance str_lt_dec a b : Decision (str_lt a b).
Proof. unfold str_lt. apply _. Defined.

#[global] Instance str_le_dec a b : Decision (str_le a b).
Proof. unfold str_le. apply _. Defined.

(** Two values of one type. *)
Definition value_lt (a b : value) : Prop :=
  payload a < payload b ∨ (payload a = payload b ∧ str_lt (text a) (text b)).

Definition value_le (a b : value) : Prop :=
  payload a < payload b ∨ (payload a = payload b ∧ str_le (text a) (text b)).

#[global] Instance value_lt_dec a b : Decision (value_lt a b).
Proof. unfold value_lt. apply _. Defined.

#[global] Instance value_le_dec a b : Decision (value_le a b).
Proof. unfold value_le. apply _. Defined.

(** A missing field sorts as [None]. *)
Definition sort_key (o : option value) : Z * Z * string :=
  match o with
  | Some v => (type_rank v, payload v, text v)
  | None => (0, 0, "")
  end.

Definition key_le (a b : Z * Z * string) : Prop :=
  a.1.1 < b.1.1
  ∨ (a.1.1 = b.1.1
     ∧ (a.1.2 < b.1.2 ∨ (a.1.2 = b.1.2 ∧ str_le a.2 b.2))).

#[global] Instance key_le_dec a b : Decision (key_le a b).
Proof. unfold key_le. apply _. Defined.

Definition is_operator (k : string) : bool :=
  match k with
  | String "$"%char _ => true
  | _ => false
  end.

(** [{field: c}] with a plain value [c]: the field equals [c], or is an array
    holding [c]; a missing field equals [None]. *)
Definition eq_matches (fv : option value) (c : value) : bool :=
  match fv with
  | Some v =>
      bool_decide (v = c)
      || match v with VList vs => bool_decide (c ∈ vs) | _ => false end
  | None => bool_decide (c = VNone)
  end.

(** One operator of [{field: {operator: c}}]; the model knows the operators
    the driver uses. *)
Definition op_matches (fv : option value) (o : string) (c : value) : bool :=
  match fv with
  | None => false
  | Some v =>
      if decide (o = "$in") then
        match c with
        | VList l =>
            bool_decide (v ∈ l)
            || match v with
               | VList vs => bool_decide (Exists (λ x, x ∈ l) vs)
               | _ => false
               end
        | _ => false
        end
      else if decide (type_rank v = type_rank c) then
        if decide (o = "$gt") then bool_decide (value_lt c v)
        else if decide (o = "$gte") then bool_decide (value_le c v)
        else if decide (o = "$lt") then bool_decide (value_lt v c)
        else if decide (o = "$lte") then bool_decide (value_le v c)
        else false
      else false
  end.

(** The operators of a condition [{operator: c, ...}]; [None] for a plain
    value, which stands for equality. *)
Definition operator_doc (c : value) : option dict :=
  match c with
  | VDict ops =>
      if forallb (λ kv, is_operator kv.1) (map_to_list ops)
         && negb (bool_decide (ops = ∅))
      then Some ops
      else None
  | _ => None
  end.

Definition field_matches (fv : option value) (c : value) : bool :=
  match operator_doc c with
  | Some ops => forallb (λ kv, op_matches fv kv.1 kv.2) (map_to_list ops)
  | None => eq_matches fv c
  end.

(** *** Dotted keys

    A key of a query names a field of the document, or, with dots, a path
    into the documents and arrays it holds: ['metadata.host'] is the field
    [host] of the document under [metadata]. *)

Fixpoint split_dots (s : string) : list string :=
  match s with
  | EmptyString => [EmptyString]
  | String c s' =>
      match split_dots s' with
      | h :: t =>
          if Ascii.eqb c "." then EmptyString :: h :: t else String c h :: t
      | [] => [String c EmptyString]
      end
  end.

Fixpoint dot_free (s : string) : bool :=
  match s with
  | EmptyString => true
  | String c s' => negb (Ascii.eqb c ".") && dot_free s'
  end.

Definition digit (c : Ascii.ascii) : option nat :=
  let n := nat_of_ascii c in
  if bool_decide (48 ≤ n ≤ 57)%nat then Some (n - 48)%nat else None.

Fixpoint parse_index (s : string) (acc : nat) : option nat :=
  match s with
  | EmptyString => Some acc
  | String c s' =>
      match digit c with
      | Some n => parse_index s' (10 * acc + n)%nat
      | None => None
      end
  end.

(** The position a component names in an array, when it is a number. *)
Definition array_index (p : string) : option nat :=
  match p with
  | EmptyString => None
  | _ => parse_index p 0%nat
  end.

(** One component of a path, from a value that was reached: the field of a
    document; in an array, the element at that position and the field of
    every element that is a document; nothing, that is a missing field,
    anywhere else. *)
Definition path_step (p : string) (fv : option value) : list (option value) :=
  match fv with
  | Some (VDict d) => [d !! p]
  | Some (VList l) =>
      let by_index :=
        match array_index p with
        | Some i => option_list (Some <$> l !! i)
        | None => []
        end in
      let by_field :=
        l ≫= (λ e, match e with VDict ed => [ed !! p] | _ => [] end) in
      match by_index ++ by_field with
      | [] => [None]
      | found => found
      end
  | _ => [None]
  end.

(** What a key names in a document. *)
Definition resolve (k : string) (d : dict) : list (option value) :=
  foldl (λ found p, found ≫= path_step p) [Some (VDict d)] (split_dots k).

(** [{k: c}]: one of the values [k] names satisfies [c]. *)
Definition path_matches (d : dict) (k : string) (c : value) : bool :=
  existsb (λ fv, field_matches fv c) (resolve k d).

Definition matches (spec d : dict) : bool :=
  forallb (λ kv, path_matches d kv.1 kv.2) (map_to_list spec).

(** *** Sorting, limiting, distinct values *)

Definition doc_le (key : string) (dir : direction) (d1 d2 : dict) : Prop :=
  match dir with
  | ASCENDING => key_le (sort_key (d1 !! key)) (sort_key (d2 !! key))
  | DESCENDING => key_le (sort_key (d2 !! key)) (sort_key (d1 !! key))
  end.

#[global] Instance doc_le_dec key dir d1 d2 : Decision (doc_le key dir d1 d2).
Proof. destruct dir; apply _. Defined.

Definition sort_docs (sort : option (string * direction)) (l : list dict)
    : list dict :=
  match sort with
  | Some (key, dir) => merge_sort (doc_le key dir) l
  | None => l
  end.

(** [limit=0] is pymongo's "no limit"; a negative limit caps like its
    absolute value. *)
Definition take_limit (limit : Z) (l : list dict) : list dict :=
  if decide (limit = 0) then l else take (Z.abs_nat limit) l.

Definition field_values (key : string) (d : dict) : list value :=
  match d !! key with
  | Some (VList l) => l
  | Some v => [v]
  | None => []
  end.

Definition distinct_values (key : string) (ds : list dict) : list value :=
  remove_dups (ds ≫= field_values key).

(** *** Update modifiers *)

Definition add_to_set (v : value) (cur : option value) : result value :=
  match cur with
  | None => Ok (VList [v])
  | Some (VList l) => Ok (VList (if decide (v ∈ l) then l else l ++ [v]))
  | Some _ => Err OperationFailure
  end.

Definition add_to_set_all (fields : list (string * value)) (d : dict)
    : result dict :=
  foldr (λ kv acc,
           result_bind acc (λ d,
             result_map (λ v, <[kv.1 := v]> d) (add_to_set kv.2 (d !! kv.1))))
        (Ok d) fields.

(** The modifiers of an update document: [$set] overwrites fields,
    [$addToSet] adds to an array field what it does not hold yet. *)
Definition apply_update (document d : dict) : result dict :=
  let d :=
    match document !! "$set" with
    | Some (VDict fields) => fields ∪ d
    | _ => d
    end in
  match document !! "$addToSet" with
  | Some (VDict fields) => add_to_set_all (map_to_list fields) d
  | _ => Ok d
  end.

(** The document an upsert starts from: the equality fields of the query. *)
Definition upsert_base (spec : dict) : dict :=
  filter (λ kv, operator_doc kv.2 = None) spec.

(** Update the first document [p] accepts; [None] when there is none. *)
Fixpoint modify_first (p : dict → bool) (f : dict → result dict)
    (l : list dict) : option (result (list dict)) :=
  match l with
  | [] => None
  | d :: l' =>
      if p d then Some (result_map (λ d', d' :: l') (f d))
      else result_map (cons d) <$> modify_first p f l'
  end.

Definition update_docs (spec document : dict) (upsert : bool) (l : list dict)
    : result (list dict) :=
  match modify_first (matches spec) (apply_update document) l with
  | Some r => r
  | None =>
      if upsert
      then result_map (λ d, l ++ [d])
             (apply_update document (upsert_base spec))
      else Ok l
  end.

(** *** The monad of the driver: store, identifier supply, exceptions *)

Definition M (A : Type) : Type := state → result A * state.

#[global] Instance M_ret : MRet M := λ A a st, (Ok a, st).

#[global] Instance M_bind : MBind M := λ A B f m st,
  match m st with
  | (Ok a, st') => f a st'
  | (Err e, st') => (Err e, st')
  end.

Definition raise {A} (e : exn) : M A := λ st, (Err e, st).

Definition lift {A} (r : result A) : M A := λ st, (r, st).

Definition called (o : op) (st : state) : state :=
  {| db := db st; next_oid := next_oid st; log := log st ++ [o] |}.

(** [str(bson.objectid.ObjectId())]: a new identifier at every call. *)
Definition oid (n : nat) : string := pretty n.

Definition new_objectid : M string := λ st,
  (Ok (oid (next_oid st)),
   {| db := db st; next_oid := S (next_oid st); log := log st |}).

(** [collection.index_information()]: the indexes that [ensure_index]
    made. An index that a server keeps on the identifier by itself is not
    among them. *)
Definition index_information (c : string) : M (gmap string index_keys) :=
  λ st, let st := called (OpIndexInformation c) st in
        (Ok (indexes (coll c st)), st).

(** [collection.insert(d)], on a store that takes the document: what a
    server does with a document it refuses, one that the wire format cannot
    hold or one whose identifier is stored already, is left out. *)
Definition insert (c : string) (d : dict) : M unit := λ st,
  let st := called (OpInsert c d) st in
  (Ok (), set_docs c (docs (coll c st) ++ [d]) st).

Definition update (c : string) (spec document : dict) (upsert : bool)
    : M unit := λ st,
  let st := called (OpUpdate c spec document upsert) st in
  match update_docs spec document upsert (docs (coll c st)) with
  | Ok ds => (Ok (), set_docs c ds st)
  | Err e => (Err e, st)
  end.

Definition remove (c : string) (spec : dict) : M unit := λ st,
  let st := called (OpRemove c spec) st in
  (Ok (),
   set_docs c (filter (λ d, matches spec d = false) (docs (coll c st))) st).

Definition ensure_index (c : string) (keys : index_keys) (name : string)
    : M unit := λ st,
  let st := called (OpEnsureIndex c keys name) st in
  (Ok (),
   set_coll c {| docs := docs (coll c st);
                 indexes := <[name := keys]> (indexes (coll c st)) |} st).

Definition find_result (spec : dict) (sort : option (string * direction))
    (limit : Z) (ds : list dict) : list dict :=
  take_limit limit (sort_docs sort (filter (λ d, matches spec d = true) ds)).

Definition find (c : string) (spec : dict)
    (sort : option (string * direction)) (limit : Z) : M (list dict) := λ st,
  let st := called (OpFind c spec sort limit) st in
  (Ok (find_result spec sort limit (docs (coll c st))), st).

(** [collection.find(spec).distinct(key)]. *)
Definition find_distinct (c : string) (spec : dict) (key : string)
    : M (list value) := λ st,
  let st := called (OpDistinct c spec key) st in
  (Ok (distinct_values key
         (filter (λ d, matches spec d = true) (docs (coll c st)))), st).

End Mongo.

Export Mongo.

(** ** The domain records ([ceilometer.storage.models])

    Plain records of the keyword arguments they are built from. *)

Record ResourceMeter := {
  rm_counter_name : value;
  rm_counter_type : value;
  rm_counter_unit : value;
}.

Record Resource := {
  r_resource_id : value;
  r_project_id : value;
  r_first_sample_timestamp : value;
  r_last_sample_timestamp : value;
  r_source : value;
  r_user_id : value;
  r_metadata : value;
  r_meter : list ResourceMeter;
}.

Record Meter := {
  m_name : value;
  m_type : value;
  m_unit : value;
  m_resource_id : value;
  m_project_id : value;
  m_source : value;
  m_user_id : value;
}.

(** [models.Sample] and [models.Alarm] are built from a dictionary of
    keyword arguments. *)
Inductive Sample := mkSample (kwargs : dict).

Inductive Alarm := mkAlarm (kwargs : dict).

Definition sample_fields (s : Sample) : dict := let 'mkSample d := s in d.

Definition alarm_fields (a : Alarm) : dict := let 'mkAlarm d := a in d.

(** ** The connection pool

    [_pool] maps an address to a weak reference to a client. A client object
    lives while somebody outside the pool holds it: [holders] counts the
    strong references to every live client, and an object whose count drops to
    zero is freed at once, after which a weak reference to it gives [None]. *)

Module ConnectionPool.

Record state := {
  _pool : gmap string nat;
  holders : gmap nat nat;
  next_client : nat;
}.

(** [ConnectionPool.__init__], in a process that has made no client yet. *)
Definition init : state :=
  {| _pool := ∅; holders := ∅; next_client := 0%nat |}.

(** Calling a weak reference: the client when it is alive. *)
Definition weakref_call (w : nat) (st : state) : option nat :=
  match holders st !! w with
  | Some _ => Some w
  | None => None
  end.

(** The caller receives a strong reference to the client. *)
Definition hold (c : nat) (st : state) : state :=
  {| _pool := _pool st;
     holders := <[c := S (default 0%nat (holders st !! c))]> (holders st);
     next_client := next_client st |}.

(** [pymongo.MongoClient(url, safe=True)]: a new object. *)
Definition MongoClient (st : state) : nat * state :=
  (next_client st,
   {| _pool := _pool st;
      holders := holders st;
      next_client := S (next_client st) |}).

Definition connect (url : string) (st : state) : nat * state :=
  let cached :=
    match _pool st !! url with
    | Some w => weakref_call w st
    | None => None
    end in
  match cached with
  | Some client => (client, hold client st)
  | None =>
      let '(client, st) := MongoClient st in
      let st := {| _pool := <[url := client]> (_pool st);
                   holders := holders st;
                   next_client := next_client st |} in
      (client, hold client st)
  end.

(** A holder drops its reference to client [c]. *)
Definition release (c : nat) (st : state) : state :=
  {| _pool := _pool st;
     holders :=
       match holders st !! c with
       | Some (S (S n)) => <[c := S n]> (holders st)
       | _ => delete c (holders st)
       end;
     next_client := next_client st |}.

Definition alive (c : nat) (st : state) : Prop := is_Some (holders st !! c).

(** What the rest of the process may do between two calls. *)
Inductive event :=
| EConnect (url : string)
| ERelease (c : nat).

Definition step (e : event) (st : state) : state :=
  match e with
  | EConnect url => (connect url st).2
  | ERelease c => release c st
  end.

Definition run (es : list event) (st : state) : state :=
  foldl (λ st e, step e st) st es.

End ConnectionPool.

(** ** The connection *)

Module Connection.

Definition upgrade : M unit :=
  info ← index_information "resource";
  if decide (info = ∅) then
    resource_id ← new_objectid;
    insert "resource" {[ "_id" := VStr resource_id;
                         "no_key" := VStr resource_id ]};;
    meter_id ← new_objectid;
    insert "meter" {[ "_id" := VStr meter_id; "no_key" := VStr meter_id ]};;
    ensure_index "resource"
      [("user_id", ASCENDING); ("project_id", ASCENDING);
       ("source", ASCENDING)] "resource_idx";;
    ensure_index "meter"
      [("resource_id", ASCENDING); ("user_id", ASCENDING);
       ("project_id", ASCENDING); ("counter_name", ASCENDING);
       ("timestamp", ASCENDING); ("source", ASCENDING)] "meter_idx";;
    ensure_index "meter" [("timestamp", DESCENDING)] "timestamp_idx";;
    remove "resource" {[ "_id" := VStr resource_id ]};;
    remove "meter" {[ "_id" := VStr meter_id ]};;
    user_id ← new_objectid;
    insert "user" {[ "_id" := VStr user_id ]};;
    remove "user" {[ "_id" := VStr user_id ]};;
    project_id ← new_objectid;
    insert "project" {[ "_id" := VStr project_id ]};;
    remove "project" {[ "_id" := VStr project_id ]}
  else mret ().

Definition record_metering_data (data : dict) : M unit :=
  user_id ← lift (getitem data "user_id");
  source ← lift (getitem data "source");
  update "user" {[ "_id" := user_id ]}
    {[ "$addToSet" := VDict {[ "source" := source ]} ]} true;;
  project_id ← lift (getitem data "project_id");
  source ← lift (getitem data "source");
  update "project" {[ "_id" := project_id ]}
    {[ "$addToSet" := VDict {[ "source" := source ]} ]} true;;
  resource_id ← lift (getitem data "resource_id");
  project_id ← lift (getitem data "project_id");
  user_id ← lift (getitem data "user_id");
  resource_metadata ← lift (getitem data "resource_metadata");
  source ← lift (getitem data "source");
  counter_name ← lift (getitem data "counter_name");
  counter_type ← lift (getitem data "counter_type");
  counter_unit ← lift (getitem data "counter_unit");
  update "resource" {[ "_id" := resource_id ]}
    {[ "$set" := VDict {[ "project_id" := project_id;
                          "user_id" := user_id;
                          "metadata" := resource_metadata;
                          "source" := source ]};
       "$addToSet" := VDict {[ "meter" :=
                        VDict {[ "counter_name" := counter_name;
                                 "counter_type" := counter_type;
                                 "counter_unit" := counter_unit ]} ]} ]} true;;
  let record := data in
  record ←
    (if is_not_None (default VNone (record !! "_id")) then mret record
     else id ← new_objectid; mret (<["_id" := VStr id]> record));
  insert "meter" record.

Definition clear_expired_metering_data (ttl : value) : M unit :=
  raise (NotImplementedError "TTL not implemented.").

(** The query of [get_resources], before the time range is added. *)
Definition resource_query (user project source resource : option string)
    (metaquery : dict) : dict :=
  let q : dict := ∅ in
  let q := set_if (is_not_None (of_str user)) "user_id" (of_str user) q in
  let q :=
    set_if (is_not_None (of_str project)) "project_id" (of_str project) q in
  let q := set_if (is_not_None (of_str source)) "source" (of_str source) q in
  let q :=
    set_if (is_not_None (of_str resource)) "resource_id" (of_str resource) q
  in
  prefix_keys "resource_" metaquery ∪ q.

(** [meter.get('counter_unit', '')] and the like. *)
Definition get_default (d : dict) (k : string) (dflt : value) : value :=
  default dflt (d !! k).

Definition as_dict (v : value) : result dict :=
  match v with VDict d => Ok d | _ => Err TypeError end.

(** [for x in v] over a stored value: the elements of an array, the keys
    of a document, the characters of a string; no other value can be
    iterated. *)
Definition as_list (v : value) : result (list value) :=
  match v with
  | VList l => Ok l
  | VDict d => Ok (VStr <$> (map_to_list d).*1)
  | VStr s =>
      Ok ((λ c, VStr (String c EmptyString)) <$> String.list_ascii_of_string s)
  | _ => Err TypeError
  end.

Definition make_resource (resource : dict) : result Resource :=
  result_bind (getitem resource "_id") (λ rid,
  result_bind (getitem resource "project_id") (λ pid,
  result_bind (getitem resource "source") (λ src,
  result_bind (getitem resource "user_id") (λ uid,
  result_bind (getitem resource "metadata") (λ md,
  result_bind (getitem resource "meter") (λ ms,
  result_bind (as_list ms) (λ ms,
  result_bind
    (result_mapM (λ meter,
       result_bind (as_dict meter) (λ meter,
       result_bind (getitem meter "counter_name") (λ cn,
       result_bind (getitem meter "counter_type") (λ ct,
       Ok {| rm_counter_name := cn;
             rm_counter_type := ct;
             rm_counter_unit :=
               get_default meter "counter_unit" (VStr "") |}))))
       ms)
    (λ meters,
       Ok {| r_resource_id := rid;
             r_project_id := pid;
             r_first_sample_timestamp := VNone;
             r_last_sample_timestamp := VNone;
             r_source := src;
             r_user_id := uid;
             r_metadata := md;
             r_meter := meters |})))))))).

Definition get_resources {Pagination : Type}
    (user project source : option string)
    (start_timestamp : option Z) (start_timestamp_op : option string)
    (end_timestamp : option Z) (end_timestamp_op : option string)
    (metaquery : dict) (resource : option string)
    (pagination : option Pagination) : M (list Resource) :=
  if object_truthy pagination
  then raise (NotImplementedError "Pagination not implemented")
  else
    let q := resource_query user project source resource metaquery in
    let q :=
      if truthy (of_time start_timestamp) || truthy (of_time end_timestamp)
      then
        let ts_range :=
          make_timestamp_range start_timestamp end_timestamp
            start_timestamp_op end_timestamp_op in
        set_if (truthy (VDict ts_range)) "timestamp" (VDict ts_range) q
      else q in
    resource_ids ← find_distinct "meter" q "resource_id";
    let q : dict := {[ "_id" := VDict {[ "$in" := VList resource_ids ]} ]} in
    resources ← find "resource" q None 0;
    lift (result_mapM make_resource resources).

Definition make_meters (r : dict) : result (list Meter) :=
  result_bind (getitem r "meter") (λ ms,
  result_bind (as_list ms) (λ ms,
  result_mapM (λ r_meter,
    result_bind (as_dict r_meter) (λ r_meter,
    result_bind (getitem r_meter "counter_name") (λ cn,
    result_bind (getitem r_meter "counter_type") (λ ct,
    result_bind (getitem r "_id") (λ rid,
    result_bind (getitem r "project_id") (λ pid,
    result_bind (getitem r "source") (λ src,
    result_bind (getitem r "user_id") (λ uid,
    Ok {| m_name := cn;
          m_type := ct;
          m_unit := get_default r_meter "counter_unit" (VStr "");
          m_resource_id := rid;
          m_project_id := pid;
          m_source := src;
          m_user_id := uid |})))))))) ms)).

Definition get_meters {Pagination : Type}
    (user project resource source : option string) (metaquery : dict)
    (pagination : option Pagination) : M (list Meter) :=
  if object_truthy pagination
  then raise (NotImplementedError "Pagination not implemented")
  else
    let q : dict := ∅ in
    let q := set_if (is_not_None (of_str user)) "user_id" (of_str user) q in
    let q :=
      set_if (is_not_None (of_str project)) "project_id" (of_str project) q
    in
    let q := set_if (is_not_None (of_str resource)) "_id" (of_str resource) q in
    let q := set_if (is_not_None (of_str source)) "source" (of_str source) q in
    let q := metaquery ∪ q in
    rs ← find "resource" q None 0;
    lift (result_map (@concat Meter) (result_mapM make_meters rs)).

Definition of_int (o : option Z) : value :=
  match o with Some n => VInt n | None => VNone end.

(** The body of the loop of [get_samples]. *)
Definition make_sample (s : dict) : result Sample :=
  match s !! "_id" with
  | None => Err (KeyError "_id")
  | Some _ =>
      let s := delete "_id" s in
      let s := <["counter_unit" := get_default s "counter_unit" (VStr "")]> s in
      Ok (mkSample s)
  end.

Definition get_samples (sample_filter : SampleFilter) (limit : option Z)
    : M (list Sample) :=
  if decide (limit = Some 0) then mret []
  else
    q ← lift (make_query_from_filter sample_filter false);
    samples ←
      (if truthy (of_int limit)
       then find "meter" q (Some ("timestamp", DESCENDING)) (default 0 limit)
       else find "meter" q (Some ("timestamp", DESCENDING)) 0);
    lift (result_mapM make_sample samples).

(** The statements after the first [raise] are never reached. *)
Definition get_meter_statistics (sample_filter : SampleFilter)
    (period groupby : value) : M (list value) :=
  raise (NotImplementedError "Statistics not implemented").

(** [elem['value']] is read before [elem['key']], as the right-hand side
    of the assignment. The keys of the pairs are strings, as the keys of
    all the documents here are. *)
Definition _decode_matching_metadata (matching_metadata : value)
    : result value :=
  match matching_metadata with
  | VDict d => Ok (VDict d)
  | VList l =>
      result_map VDict
        (foldl (λ acc elem,
                  result_bind acc (λ new_matching_metadata,
                  result_bind (as_dict elem) (λ elem,
                  result_bind (getitem elem "value") (λ v,
                  result_bind (getitem elem "key") (λ k,
                  match k with
                  | VStr k => Ok (<[k := v]> new_matching_metadata)
                  | _ => Err TypeError
                  end)))))
               (Ok ∅) l)
  | VStr "" => Ok (VDict ∅)
  | _ => Err TypeError
  end.

(** [{'key': k, 'value': v}]. *)
Definition pair_doc (kv : string * value) : value :=
  VDict {[ "key" := VStr kv.1; "value" := kv.2 ]}.

Definition _encode_matching_metadata (matching_metadata : value)
    : result value :=
  if truthy matching_metadata then
    match matching_metadata with
    | VDict d => Ok (VList (pair_doc <$> map_to_list d))
    | _ => Err AttributeError
    end
  else Ok matching_metadata.

(** The body of the loop of [get_alarms]. *)
Definition make_alarm (alarm : dict) : result Alarm :=
  let a := alarm in
  match a !! "_id" with
  | None => Err (KeyError "_id")
  | Some _ =>
      let a := delete "_id" a in
      result_bind (getitem a "matching_metadata") (λ mm,
      result_bind (_decode_matching_metadata mm) (λ mm,
      Ok (mkAlarm (<["matching_metadata" := mm]> a))))
  end.

Definition alarm_query (name user project : option string)
    (enabled : option bool) (alarm_id : option string) : dict :=
  let q : dict := ∅ in
  let q := set_if (is_not_None (of_str user)) "user_id" (of_str user) q in
  let q :=
    set_if (is_not_None (of_str project)) "project_id" (of_str project) q in
  let q := set_if (is_not_None (of_str name)) "name" (of_str name) q in
  let q :=
    set_if (is_not_None (of_bool enabled)) "enabled" (of_bool enabled) q in
  let q :=
    set_if (is_not_None (of_str alarm_id)) "alarm_id" (of_str alarm_id) q in
  q.

(** [enabled] defaults to [True] in the signature, the other arguments to
    [None]: for these a missing argument and [None] are the same call. *)
Definition get_alarms {Pagination : Type}
    (name user project : option string) (enabled : kwarg (option bool))
    (alarm_id : option string) (pagination : option Pagination)
    : M (list Alarm) :=
  let enabled := kwarg_value (Some true) enabled in
  if object_truthy pagination
  then raise (NotImplementedError "Pagination not implemented")
  else
    let q := alarm_query name user project enabled alarm_id in
    alarms ← find "alarm" q None 0;
    lift (result_mapM make_alarm alarms).

Definition get_alarm_changes (alarm_id on_behalf_of : value) : M (list value) :=
  raise (NotImplementedError "Alarm history not implemented").

Definition record_alarm_change (alarm_change : value) : M unit :=
  raise (NotImplementedError "Alarm history not implemented").

Definition record_events (events : value) : M unit :=
  raise (NotImplementedError "Events not implemented.").

Definition get_events (event_filter : value) : M (list value) :=
  raise (NotImplementedError "Events not implemented.").

End Connection.

(** ** Vocabulary of the statements *)

(** The flat map a sequence of key and value pairs folds into: a later pair
    wins over an earlier one with the same key. *)
Definition fold_pairs (pairs : list (string * value)) : dict :=
  foldl (λ acc kv, <[kv.1 := kv.2]> acc) ∅ pairs.

(** A filter with nothing set but the meter name. *)
Definition filter_of_meter (meter : option string) : SampleFilter :=
  {| sf_user := None; sf_project := None;
     sf_start := None; sf_start_timestamp_op := None;
     sf_end := None; sf_end_timestamp_op := None;
     sf_resource := None; sf_meter := meter; sf_source := None;
     sf_metaquery := ∅ |}.

(** The two wire shapes of a stored [matching_metadata]: a flat map, or a
    sequence of key and value pairs. *)
Definition wire_shape (mm : value) : Prop :=
  (∃ m : dict, mm = VDict m)
  ∨ (∃ pairs : list (string * value),
       mm = VList (Connection.pair_doc <$> pairs)).

(** A stored alarm: a document with its identifier and a [matching_metadata]
    in one of the two shapes. *)
Definition stored_alarm (d : dict) : Prop :=
  is_Some (d !! "_id")
  ∧ ∃ mm, d !! "matching_metadata" = Some mm ∧ wire_shape mm.

(** The alarm yielded for the stored document [d]: [d] without its
    identifier and with its [matching_metadata] decoded. *)
Definition alarm_of (d : dict) (a : Alarm) : Prop :=
  ∃ mm mm',
    d !! "matching_metadata" = Some mm
    ∧ Connection._decode_matching_metadata mm = Ok mm'
    ∧ a = mkAlarm (<["matching_metadata" := mm']> (delete "_id" d)).

(** The sample yielded for the stored record [d]: [d] without its
    identifier, its unit the empty string when [d] has none. *)
Definition sample_of (d : dict) : Sample :=
  mkSample (<["counter_unit" := default (VStr "") (d !! "counter_unit")]>
              (delete "_id" d)).

(** [s1] may come before [s2] in a sequence sorted descending by
    timestamp. *)
Definition not_older (s1 s2 : Sample) : Prop :=
  key_le (sort_key (sample_fields s2 !! "timestamp"))
         (sort_key (sample_fields s1 !! "timestamp")).

(** A sequence under the [limit] of [get_samples]: all of it when no limit
    is given, and its first [limit] elements otherwise, a negative limit
    counting like its absolute value. *)
Definition capped {A} (limit : option Z) (l : list A) : list A :=
  match limit with
  | Some n => take (Z.abs_nat n) l
  | None => l
  end.

(** No stored document carries an identifier that [ObjectId()] has yet to
    hand out. *)
Definition fresh_ids (st : state) : Prop :=
  ∀ c d n,
    d ∈ docs (coll c st) → (next_oid st ≤ n)%nat →
    eq_matches (d !! "_id") (VStr (oid n)) = false.

(** A value that is neither an array nor a document. *)
Definition scalar (v : value) : bool :=
  match v with VList _ | VDict _ => false | _ => true end.

(** [d[k]], for a key that is there. *)
Definition field (d : dict) (k : string) : value := default VNone (d !! k).

(** The identifiers of the documents of a collection. *)
Definition doc_ids (ds : list dict) : list (option value) :=
  (λ d, d !! "_id") <$> ds.

(** How many documents have the identifier [v]. *)
Definition count_id (v : value) (ds : list dict) : nat :=
  length (filter (λ i, i = Some v) (doc_ids ds)).

(** What the store guarantees of a collection: every document has a scalar
    identifier, and no two documents have the same. *)
Definition unique_ids (ds : list dict) : Prop :=
  Forall (λ d, ∃ v, d !! "_id" = Some v ∧ scalar v = true) ds
  ∧ NoDup (doc_ids ds).

(** The field [k] of [d], when there is one, is an array. *)
Definition array_field (k : string) (d : dict) : Prop :=
  match d !! k with
  | Some (VList _) | None => True
  | Some _ => False
  end.

(** The user, project and resource collections as the write path keeps
    them. *)
Definition store_wf (st : state) : Prop :=
  unique_ids (docs (coll "user" st))
  ∧ Forall (array_field "source") (docs (coll "user" st))
  ∧ unique_ids (docs (coll "project" st))
  ∧ Forall (array_field "source") (docs (coll "project" st))
  ∧ unique_ids (docs (coll "resource" st))
  ∧ Forall (array_field "meter") (docs (coll "resource" st)).

(** A sample as the collector hands it over: the fields the write path
    reads are there, the identities are scalars, and the storage identifier
    is still to be generated. *)
Definition sample_payload (data : dict) : Prop :=
  Forall (λ k, is_Some (data !! k))
    ["user_id"; "project_id"; "resource_id"; "source"; "resource_metadata";
     "counter_name"; "counter_type"; "counter_unit"]
  ∧ Forall (λ k, scalar (field data k) = true)
      ["user_id"; "project_id"; "resource_id"]
  ∧ data !! "_id" = None.

(** The effect of the update documents of the write path on one document:
    overwrite the fields of [fields], then add [v] to the array [k]. *)
Definition modifier (fields : dict) (k : string) (v : value) (d : dict)
    : result dict :=
  result_map (λ x, <[k := x]> (fields ∪ d))
    (add_to_set v ((fields ∪ d) !! k)).

(** What holds of the pool of a running process: the weak references and
    the live clients are clients that were made. *)
Definition pool_wf (st : ConnectionPool.state) : Prop :=
  (∀ url c, ConnectionPool._pool st !! url = Some c →
            (c < ConnectionPool.next_client st)%nat)
  ∧ (∀ c, ConnectionPool.alive c st →
          (c < ConnectionPool.next_client st)%nat).

(** The pool remembers the client [c] for the address [url] for as long as
    [c] is alive. *)
Definition pool_caches (url : string) (c : nat) (st : ConnectionPool.state)
    : Prop :=
  (c < ConnectionPool.next_client st)%nat
  ∧ (ConnectionPool.alive c st → ConnectionPool._pool st !! url = Some c).

(** ** Examples *)

(** The sample of the end-to-end scenario. *)
Definition example_sample : dict :=
  {[ "user_id" := VStr "u1"; "project_id" := VStr "p1";
     "resource_id" := VStr "r1"; "counter_name" := VStr "cpu";
     "counter_type" := VStr "gauge"; "counter_unit" := VStr "percent";
     "counter_volume" := VInt 42; "timestamp" := VTime 100;
     "source" := VStr "src1";
     "resource_metadata" := VDict {[ "host" := VStr "h1" ]} ]}.

(** A meter collection of three samples; the second was stored without a
    unit. *)
Definition example_meter_store : state :=
  set_docs "meter"
    [ {[ "_id" := VStr "a"; "counter_name" := VStr "cpu";
         "counter_unit" := VStr "percent"; "timestamp" := VTime 10 ]};
      {[ "_id" := VStr "b"; "counter_name" := VStr "cpu";
         "timestamp" := VTime 30 ]};
      {[ "_id" := VStr "c"; "counter_name" := VStr "cpu";
         "counter_unit" := VStr "percent"; "timestamp" := VTime 20 ]} ]
    empty_state.

(** An alarm collection with one alarm in each wire shape. *)
Definition example_alarm_store : state :=
  set_docs "alarm"
    [ {[ "_id" := VStr "x"; "alarm_id" := VStr "1"; "enabled" := VBool true;
         "matching_metadata" :=
           VList [Connection.pair_doc ("host", VStr "h1")] ]};
      {[ "_id" := VStr "y"; "alarm_id" := VStr "2"; "enabled" := VBool false;
         "matching_metadata" := VDict {[ "host" := VStr "h2" ]} ]} ]
    empty_state.

(** A filter with a user, an empty meter name, a start, a resource, and a
    metadata query that names the resource as well. *)
Definition example_filter : SampleFilter :=
  {| sf_user := Some "u1"; sf_project := None;
     sf_start := Some 10; sf_start_timestamp_op := None;
     sf_end := None; sf_end_timestamp_op := None;
     sf_resource := Some "r1"; sf_meter := Some ""; sf_source := None;
     sf_metaquery := {[ "id" := VStr "r9"; "host" := VStr "h1" ]} |}.

(** A store with one user, one project, one resource with two meter
    descriptors, the second without a unit, and one sample of the
    resource. *)
Definition example_resource_store : state :=
  set_docs "meter"
    [ {[ "_id" := VStr "a"; "resource_id" := VStr "r1";
         "counter_name" := VStr "cpu"; "timestamp" := VTime 10 ]} ]
    (set_docs "resource"
       [ {[ "_id" := VStr "r1"; "project_id" := VStr "p1";
            "user_id" := VStr "u1"; "source" := VStr "src1";
            "metadata" := VDict {[ "host" := VStr "h1" ]};
            "meter" :=
              VList [ VDict {[ "counter_name" := VStr "cpu";
                               "counter_type" := VStr "gauge";
                               "counter_unit" := VStr "percent" ]};
                      VDict {[ "counter_name" := VStr "disk";
                               "counter_type" := VStr "gauge" ]} ] ]} ]
       (set_docs "project"
          [ {[ "_id" := VStr "p1"; "source" := VList [VStr "src1"] ]} ]
          (set_docs "user"
             [ {[ "_id" := VStr "u1"; "source" := VList [VStr "src1"] ]} ]
             empty_state))).

(** A filter on the host in the metadata of the resource. *)
Definition example_host_filter : SampleFilter :=
  {| sf_user := None; sf_project := None;
     sf_start := None; sf_start_timestamp_op := None;
     sf_end := None; sf_end_timestamp_op := None;
     sf_resource := None; sf_meter := None; sf_source := None;
     sf_metaquery := {[ "metadata.host" := VStr "h1" ]} |}.

(** The empty store after the example sample was recorded. *)
Definition example_recorded_store : state :=
  (Connection.record_metering_data example_sample empty_state).2.

(** A new state of the first example alarm. *)
Definition example_alarm : Alarm :=
  mkAlarm {[ "alarm_id" := VStr "1"; "enabled" := VBool false;
             "matching_metadata" := VDict {[ "host" := VStr "h9" ]} ]}.

(** ** The rest of the driver

    The functions of the module that the sections above leave out: the
    listing of users and projects, the alarm store, and the set-up of a
    connection. *)

(** What [find] keeps of a document when [fields] is given: these fields and
    the identifier. *)
Definition project_fields (fields : list string) (d : dict) : dict :=
  filter (λ kv, kv.1 ∈ "_id" :: fields) d.

(** [collection.find(spec, fields=fields, sort=sort)]; the record of the
    call keeps the query, the sort and the limit. *)
Definition find_fields (c : string) (spec : dict) (fields : list string)
    (sort : option (string * direction)) (limit : Z) : M (list dict) :=
  ds ← find c spec sort limit;
  mret (project_fields fields <$> ds).

(** [collection.update(spec, document, upsert=True)] with a query that does
    not name the identifier: the store gives an identifier to the document
    it creates ([update_alarm] deletes ['_id'] from the document it has just
    upserted). When the created document has an identifier already, this is
    [update]. *)
Definition upsert (c : string) (spec document : dict) : M unit := λ st,
  let st := called (OpUpdate c spec document true) st in
  match modify_first (matches spec) (apply_update document) (docs (coll c st))
  with
  | Some (Ok ds) => (Ok (), set_docs c ds st)
  | Some (Err e) => (Err e, st)
  | None =>
      match apply_update document (upsert_base spec) with
      | Ok d =>
          match d !! "_id" with
          | Some _ => (Ok (), set_docs c (docs (coll c st) ++ [d]) st)
          | None =>
              let d := <["_id" := VStr (oid (next_oid st))]> d in
              (Ok (),
               set_docs c (docs (coll c st) ++ [d])
                 {| db := db st; next_oid := S (next_oid st);
                    log := log st |})
          end
      | Err e => (Err e, st)
      end
  end.

(** The outcome of [cursor[0]]: the first document, or [IndexError]. *)
Inductive indexed (A : Type) :=
| Item (a : A)
| IndexError.

Arguments Item {A} a.
Arguments IndexError {A}.

(** What the constructor of a connection ends in: the refusal of the
    server, another exception, or a connection, with the outcome of the
    [upgrade] that ends the constructor. *)
Inductive constructed :=
| StorageBadVersion (msg : string)
| Raised (e : exn)
| Connected (client : nat) (upgraded : result unit).

Module Driver.

Definition get_users (source : option string) : M (list value) :=
  let q : dict := ∅ in
  let q := set_if (is_not_None (of_str source)) "source" (of_str source) q in
  ds ← find_fields "user" q ["_id"] (Some ("_id", ASCENDING)) 0;
  lift (result_mapM (λ doc, getitem doc "_id") ds).

Definition get_projects (source : option string) : M (list value) :=
  let q : dict := ∅ in
  let q := set_if (is_not_None (of_str source)) "source" (of_str source) q in
  ds ← find_fields "project" q ["_id"] (Some ("_id", ASCENDING)) 0;
  lift (result_mapM (λ doc, getitem doc "_id") ds).

(** [alarm.alarm_id]: an attribute the object has when it was built with
    it. *)
Definition getattr (a : Alarm) (name : string) : result value :=
  match alarm_fields a !! name with
  | Some v => Ok v
  | None => Err AttributeError
  end.

Definition update_alarm (alarm : Alarm) : M (indexed Alarm) :=
  let data := alarm_fields alarm in
  matching_metadata ← lift (getitem data "matching_metadata");
  matching_metadata ←
    lift (Connection._encode_matching_metadata matching_metadata);
  let data := <["matching_metadata" := matching_metadata]> data in
  alarm_id ← lift (getattr alarm "alarm_id");
  upsert "alarm" {[ "alarm_id" := alarm_id ]} {[ "$set" := VDict data ]};;
  alarm_id ← lift (getattr alarm "alarm_id");
  found ← find "alarm" {[ "alarm_id" := alarm_id ]} None (-1);
  match found with
  | [] => mret IndexError
  | stored_alarm :: _ =>
      match stored_alarm !! "_id" with
      | None => raise (KeyError "_id")
      | Some _ =>
          let stored_alarm := delete "_id" stored_alarm in
          matching_metadata ← lift (getitem stored_alarm "matching_metadata");
          matching_metadata ←
            lift (Connection._decode_matching_metadata matching_metadata);
          mret (Item (mkAlarm (<["matching_metadata" := matching_metadata]>
                                 stored_alarm)))
      end
  end.

Definition create_alarm : Alarm → M (indexed Alarm) := update_alarm.

Definition delete_alarm (alarm_id : string) : M unit :=
  remove "alarm" {[ "alarm_id" := VStr alarm_id ]}.

(** [s.replace(old, new, 1)]. *)
Fixpoint strip_prefix (p s : string) : option string :=
  match p, s with
  | EmptyString, _ => Some s
  | String a p', String b s' =>
      if Ascii.eqb a b then strip_prefix p' s' else None
  | String _ _, EmptyString => None
  end.

Fixpoint replace_first (old new s : string) : string :=
  match strip_prefix old s with
  | Some rest => new +:+ rest
  | None =>
      match s with
      | EmptyString => EmptyString
      | String c s' => String c (replace_first old new s')
      end
  end.

(** [a < b] on two lists of integers. *)
Fixpoint list_lt (a b : list Z) : bool :=
  match a, b with
  | _, [] => false
  | [], _ :: _ => true
  | x :: a', y :: b' =>
      if x <? y then true else if y <? x then false else list_lt a' b'
  end.

(** [Connection.__init__], on the address of the configuration. The
    [versionArray] of the server's [server_info()], if it has one, is
    [version_array]. [database] is what the two lines after the check get
    from pymongo: [Err e] when [pymongo.uri_parser.parse_uri(url)], or the
    client asked for the database of the name, raises [e]; [Ok None] when
    the address names no database, which makes
    [getattr(self.conn, None)] a [TypeError]; and [Ok (Some name)] when
    the client has the database of this name, which is [st]. *)
Definition __init__ (url : string) (version_array : option (list Z))
    (database : result (option string))
    (pool : ConnectionPool.state) (st : state)
    : constructed * ConnectionPool.state * state :=
  let url := replace_first "db2:" "mongodb:" url in
  let '(conn, pool) := ConnectionPool.connect url pool in
  let refused :=
    match version_array with
    | Some (x :: l) => list_lt (x :: l) [2; 2]
    | _ => false
    end in
  if refused
  then (StorageBadVersion "Need at least MongoDB 2.2", pool, st)
  else
    match database with
    | Err e => (Raised e, pool, st)
    | Ok None => (Raised TypeError, pool, st)
    | Ok (Some _) =>
        let '(r, st) := Connection.upgrade st in
        (Connected conn r, pool, st)
    end.

End Driver.

(** ** Vocabulary of the further statements *)

(** An optional string as a truth test sees it: the empty string counts as
    none. *)
Definition given (o : option string) : option string :=
  match o with
  | Some s => if String.eqb s "" then None else Some s
  | None => None
  end.

(** No client is remembered under two addresses. *)
Definition pool_one_address (st : ConnectionPool.state) : Prop :=
  ∀ url1 url2 c,
    ConnectionPool._pool st !! url1 = Some c →
    ConnectionPool._pool st !! url2 = Some c → url1 = url2.

(** The string has no colon. *)
Fixpoint colon_free (s : string) : bool :=
  match s with
  | EmptyString => true
  | String c s' => negb (Ascii.eqb c ":") && colon_free s'
  end.

(** Every document of [ds] is in [ds'] again, under the same identifier,
    with an array [k] that holds at least what it held. *)
Definition grows (k : string) (ds ds' : list dict) : Prop :=
  ∀ d0, d0 ∈ ds →
    ∃ d, d ∈ ds' ∧ d !! "_id" = d0 !! "_id"
         ∧ field_values k d0 ⊆ field_values k d.

(** The meter descriptor the write path files under the resource of a
    sample. *)
Definition descriptor_of (data : dict) : value :=
  VDict {[ "counter_name" := field data "counter_name";
           "counter_type" := field data "counter_type";
           "counter_unit" := field data "counter_unit" ]}.

(** A meter descriptor as the read paths need it. *)
Definition stored_descriptor (v : value) : Prop :=
  ∃ m : dict,
    v = VDict m
    ∧ is_Some (m !! "counter_name") ∧ is_Some (m !! "counter_type").

(** A resource document as the read paths need it. *)
Definition stored_resource (d : dict) : Prop :=
  Forall (λ k, is_Some (d !! k))
    ["_id"; "project_id"; "source"; "user_id"; "metadata"]
  ∧ ∃ l, d !! "meter" = Some (VList l) ∧ Forall stored_descriptor l.

(** The record the write path files for a sample: the sample itself when it
    comes with an identifier, the sample with the identifier [id]
    otherwise. *)
Definition record_of (data : dict) (id : string) : dict :=
  match data !! "_id" with
  | Some VNone | None => <["_id" := VStr id]> data
  | Some _ => data
  end.

(** The fields of a sample that the write path reads. *)
Definition read_fields : list string :=
  ["user_id"; "source"; "project_id"; "resource_id"; "resource_metadata";
   "counter_name"; "counter_type"; "counter_unit"].

(** The source set of a user or project document holds [s]. *)
Definition has_source (s : string) (d : dict) : bool :=
  match d !! "source" with
  | Some (VList l) => bool_decide (VStr s ∈ l)
  | Some v => bool_decide (v = VStr s)
  | None => false
  end.

(** The documents a listing by source is about: all of them when no source
    is given. *)
Definition from_source (source : option string) (d : dict) : bool :=
  match source with
  | Some s => has_source s d
  | None => true
  end.

(** The meter yielded for the descriptor [x] of the resource document [d]:
    name, type and unit of the descriptor, the unit the empty string when
    the descriptor has none, and the identity and owner of the resource. *)
Definition meter_of (d : dict) (x : value) (m : Meter) : Prop :=
  ∃ xd : dict,
    x = VDict xd
    ∧ xd !! "counter_name" = Some (m_name m)
    ∧ xd !! "counter_type" = Some (m_type m)
    ∧ m_unit m = default (VStr "") (xd !! "counter_unit")
    ∧ d !! "_id" = Some (m_resource_id m)
    ∧ d !! "project_id" = Some (m_project_id m)
    ∧ d !! "source" = Some (m_source m)
    ∧ d !! "user_id" = Some (m_user_id m).

(** The descriptor of a resource as [get_resources] yields it. *)
Definition resource_meter_of (x : value) (rm : ResourceMeter) : Prop :=
  ∃ xd : dict,
    x = VDict xd
    ∧ xd !! "counter_name" = Some (rm_counter_name rm)
    ∧ xd !! "counter_type" = Some (rm_counter_type rm)
    ∧ rm_counter_unit rm = default (VStr "") (xd !! "counter_unit").

(** The resource yielded for the resource document [d]: no sample
    timestamps, and a descriptor for each of the document. *)
Definition resource_of (d : dict) (r : Resource) : Prop :=
  d !! "_id" = Some (r_resource_id r)
  ∧ d !! "project_id" = Some (r_project_id r)
  ∧ d !! "source" = Some (r_source r)
  ∧ d !! "user_id" = Some (r_user_id r)
  ∧ d !! "metadata" = Some (r_metadata r)
  ∧ r_first_sample_timestamp r = VNone
  ∧ r_last_sample_timestamp r = VNone
  ∧ Forall2 resource_meter_of (field_values "meter" d) (r_meter r).

(** The resource document is named by one of the samples. *)
Definition named_by (samples : list dict) (d : dict) : bool :=
  bool_decide (field d "_id" ∈ samples ≫= field_values "resource_id").

(** * Properties *)

(** ** The range builder *)

(** C2: the fragment of [make_timestamp_range] bounds the start with [$gt]
    exactly when the start operator is ['gt'] and with [$gte] otherwise,
    bounds the end with [$lte] exactly when the end operator is ['le'] and
    with [$lt] otherwise, holds no bound for an omitted start or end and no
    other key, and is the empty fragment when both are omitted. *)
Theorem make_timestamp_range_bounds (start end_ : option Z)
    (start_op end_op : option string) :
  let r := make_timestamp_range start end_ start_op end_op in
  r !! "$gt"
  = (if decide (start_op = Some "gt") then VTime <$> start else None)
  ∧ r !! "$gte"
    = (if decide (start_op = Some "gt") then None else VTime <$> start)
  ∧ r !! "$lte"
    = (if decide (end_op = Some "le") then VTime <$> end_ else None)
  ∧ r !! "$lt"
    = (if decide (end_op = Some "le") then None else VTime <$> end_)
  ∧ dom r ⊆ {[ "$gt"; "$gte"; "$lt"; "$lte" ]}
  ∧ make_timestamp_range None None start_op end_op = ∅.
Proof.
  unfold make_timestamp_range.
  destruct start as [s|], end_ as [e|]; simpl;
    repeat case_decide; repeat split; try reflexivity;
    rewrite ?dom_insert_L, ?dom_empty_L; set_solver.
Qed.

(** ** The filter translator *)

Section filter_translator.

#[local] Instance append_inj (p : string) : Inj (=) (=) (String.append p).
Proof.
  intros a b H. induction p as [|c p IH]; simpl in H; [done|].
  injection H as H. auto.
Qed.

Lemma set_if_lookup_ne (c : bool) (k k' : string) (v : value) (q : dict) :
  k ≠ k' → set_if c k v q !! k' = q !! k'.
Proof. intros Hne. destruct c; simpl; [by rewrite lookup_insert_ne|done]. Qed.

(** A key that does not start with the prefix is not a prefixed key. *)
Lemma prefix_keys_lookup_other (prefix k : string) (m : dict) :
  (∀ i, k ≠ prefix +:+ i) → prefix_keys prefix m !! k = None.
Proof.
  intros Hk. unfold prefix_keys. apply lookup_kmap_None; [apply _|].
  intros i Hi. by destruct (Hk i).
Qed.

Lemma prefix_keys_union_lookup (prefix k : string) (m q : dict) :
  (∀ i, k ≠ prefix +:+ i) → (prefix_keys prefix m ∪ q) !! k = q !! k.
Proof.
  intros Hk. by rewrite lookup_union_r by by apply prefix_keys_lookup_other.
Qed.

Lemma truthy_of_str (o : option string) :
  truthy (of_str o) = true ↔ ∃ s, o = Some s ∧ s ≠ "".
Proof.
  destruct o as [s|]; simpl.
  - rewrite negb_true_iff, String.eqb_neq. naive_solver.
  - naive_solver.
Qed.

Lemma make_query_from_filter_optional_meter (sample_filter : SampleFilter) :
  ∃ q, make_query_from_filter sample_filter false = Ok q.
Proof.
  unfold make_query_from_filter.
  destruct (truthy (of_str (sf_meter sample_filter))); simpl; eauto.
Qed.

End filter_translator.

(** C3, against the claim as stated: a filter whose meter name is the empty
    string has a meter name, yet the translation fails when the meter is
    required, and emits no constraint on [counter_name] when it is not. *)
Lemma make_query_from_filter_empty_meter_name :
  ¬ (∀ sample_filter require_meter m,
       sf_meter sample_filter = Some m →
       ∃ q, make_query_from_filter sample_filter require_meter = Ok q
            ∧ q !! "counter_name" = Some (VStr m)).
Proof.
  intros H.
  destruct (H (filter_of_meter (Some "")) true "" eq_refl) as (q & Hq & _).
  discriminate Hq.
Qed.

(** C3, amended: with [require_meter] true and a meter name that is absent or
    empty, [make_query_from_filter] fails with the required-field error; with
    a non-empty meter name it succeeds and the query constrains
    [counter_name] to that name; with [require_meter] false it succeeds for
    every filter. *)
Theorem make_query_from_filter_meter (sample_filter : SampleFilter) :
  (truthy (of_str (sf_meter sample_filter)) = false →
     make_query_from_filter sample_filter true
     = Err (RuntimeError "Missing required meter specifier"))
  ∧ (∀ m require_meter,
       sf_meter sample_filter = Some m → m ≠ "" →
       ∃ q, make_query_from_filter sample_filter require_meter = Ok q
            ∧ q !! "counter_name" = Some (VStr m))
  ∧ (∃ q, make_query_from_filter sample_filter false = Ok q).
Proof.
  unfold make_query_from_filter. split; [|split].
  - by intros ->.
  - intros m rm Hm Hne.
    assert (truthy (of_str (sf_meter sample_filter)) = true) as ->
      by (apply truthy_of_str; eauto).
    simpl. eexists; split; [done|].
    rewrite prefix_keys_union_lookup by (by intros i).
    rewrite !set_if_lookup_ne by done.
    by rewrite Hm, lookup_insert_eq.
  - apply make_query_from_filter_optional_meter.
Qed.

(** The translation of a filter without meter and of the filter on ["cpu"]. *)
Lemma make_query_from_filter_meter_witness :
  (make_query_from_filter (filter_of_meter None) true
   = Err (RuntimeError "Missing required meter specifier"))
  ∧ (∃ q, make_query_from_filter (filter_of_meter (Some "cpu")) true = Ok q
          ∧ q !! "counter_name" = Some (VStr "cpu")).
Proof.
  destruct (make_query_from_filter_meter (filter_of_meter None))
    as (H1 & _ & _).
  destruct (make_query_from_filter_meter (filter_of_meter (Some "cpu")))
    as (_ & H2 & _).
  split; [by apply H1|by apply H2].
Defined.

(** ** The codec of [matching_metadata] *)

Section metadata_codec.

Lemma foldl_insert_list_to_map (l : list (string * value)) (acc : dict) :
  NoDup l.*1 →
  foldl (λ acc kv, <[kv.1 := kv.2]> acc) acc l = list_to_map l ∪ acc.
Proof.
  revert acc. induction l as [|[k v] l IH]; intros acc Hnd; simpl.
  - by rewrite (left_id_L ∅ (∪)).
  - apply NoDup_cons in Hnd as [Hk Hnd]. rewrite IH by done.
    rewrite <-insert_union_l.
    by rewrite insert_union_r by by apply not_elem_of_list_to_map_1.
Qed.

Lemma fold_pairs_map_to_list (m : dict) : fold_pairs (map_to_list m) = m.
Proof.
  unfold fold_pairs.
  rewrite foldl_insert_list_to_map by apply NoDup_fst_map_to_list.
  by rewrite list_to_map_to_list, (right_id_L ∅ (∪)).
Qed.

Lemma decode_fold_pairs (pairs : list (string * value)) (acc : dict) :
  foldl (λ acc elem,
           result_bind acc (λ new_matching_metadata,
           result_bind (Connection.as_dict elem) (λ elem,
           result_bind (getitem elem "value") (λ v,
           result_bind (getitem elem "key") (λ k,
           match k with
           | VStr k => Ok (<[k := v]> new_matching_metadata)
           | _ => Err TypeError
           end)))))
        (Ok acc) (Connection.pair_doc <$> pairs)
  = Ok (foldl (λ acc kv, <[kv.1 := kv.2]> acc) acc pairs).
Proof.
  revert acc. induction pairs as [|[k v] pairs IH]; intros acc; [done|].
  simpl. unfold getitem.
  rewrite lookup_insert_eq, lookup_insert_ne, lookup_singleton_eq by done.
  simpl. apply IH.
Qed.

Lemma decode_pairs (pairs : list (string * value)) :
  Connection._decode_matching_metadata (VList (Connection.pair_doc <$> pairs))
  = Ok (VDict (fold_pairs pairs)).
Proof. simpl. by rewrite decode_fold_pairs. Qed.

End metadata_codec.

(** C5: decoding the encoding of a flat map [m] gives [m] back, and
    [_decode_matching_metadata] is defined, as a function, on both wire
    shapes: a flat map is returned as it is, a sequence of key and value
    pairs is folded into a flat map. *)
Theorem matching_metadata_roundtrip (m : dict) :
  result_bind (Connection._encode_matching_metadata (VDict m))
    Connection._decode_matching_metadata = Ok (VDict m)
  ∧ Connection._decode_matching_metadata (VDict m) = Ok (VDict m)
  ∧ ∀ pairs : list (string * value),
      Connection._decode_matching_metadata
        (VList (Connection.pair_doc <$> pairs))
      = Ok (VDict (fold_pairs pairs)).
Proof.
  split; [|split; [done|apply decode_pairs]].
  unfold Connection._encode_matching_metadata. simpl truthy.
  case_bool_decide as Hm; simpl negb; cbv iota.
  - done.
  - unfold result_bind. by rewrite decode_pairs, fold_pairs_map_to_list.
Qed.

(** ** The operations the driver does not support *)

(** C8: whatever the input and the store, [get_meter_statistics] and
    [clear_expired_metering_data] raise the not-implemented error,
    [get_resources], [get_meters] and [get_alarms] raise it when a pagination
    object is passed, and [get_alarm_changes], [record_alarm_change],
    [record_events] and [get_events] raise it; none of them returns a result
    or touches the store. *)
Theorem unsupported_operations_raise {Pagination : Type} (st : state)
    (sample_filter : SampleFilter) (a b : value) (pagination : Pagination)
    (name user project source resource : option string)
    (start_timestamp end_timestamp : option Z)
    (start_timestamp_op end_timestamp_op : option string)
    (metaquery : dict) (enabled : kwarg (option bool))
    (alarm_id : option string) :
  Connection.get_meter_statistics sample_filter a b st
  = (Err (NotImplementedError "Statistics not implemented"), st)
  ∧ Connection.clear_expired_metering_data a st
    = (Err (NotImplementedError "TTL not implemented."), st)
  ∧ Connection.get_resources user project source start_timestamp
      start_timestamp_op end_timestamp end_timestamp_op metaquery resource
      (Some pagination) st
    = (Err (NotImplementedError "Pagination not implemented"), st)
  ∧ Connection.get_meters user project resource source metaquery
      (Some pagination) st
    = (Err (NotImplementedError "Pagination not implemented"), st)
  ∧ Connection.get_alarms name user project enabled alarm_id
      (Some pagination) st
    = (Err (NotImplementedError "Pagination not implemented"), st)
  ∧ Connection.get_alarm_changes a b st
    = (Err (NotImplementedError "Alarm history not implemented"), st)
  ∧ Connection.record_alarm_change a st
    = (Err (NotImplementedError "Alarm history not implemented"), st)
  ∧ Connection.record_events a st
    = (Err (NotImplementedError "Events not implemented."), st)
  ∧ Connection.get_events a st
    = (Err (NotImplementedError "Events not implemented."), st).
Proof. repeat split. Qed.

(** ** Listing resources *)

Section get_resources.

Lemma make_timestamp_range_truthy (start end_ : option Z)
    (start_op end_op : option string) :
  truthy (of_time start) || truthy (of_time end_) = true →
  truthy (VDict (make_timestamp_range start end_ start_op end_op)) = true.
Proof.
  intros H. simpl. apply negb_true_iff, bool_decide_eq_false.
  unfold make_timestamp_range.
  destruct start, end_; try discriminate H; apply insert_non_empty.
Qed.

End get_resources.

(** C1, against the claim as stated: a call of [get_resources] with no time
    bound still resolves the resource ids against the meter collection, and
    does not apply the filter to the resource collection directly. *)
Lemma get_resources_without_time_bound_reads_meter :
  let st' :=
    (Connection.get_resources (Pagination := unit) (Some "u1") None None
       None None None None ∅ None None empty_state).2 in
  Exists (λ o, op_collection o = "meter") (log st')
  ∧ OpDistinct "meter" {[ "user_id" := VStr "u1" ]} "resource_id" ∈ log st'
  ∧ log st' ≠ [OpFind "resource" {[ "user_id" := VStr "u1" ]} None 0].
Proof.
  split; [|split].
  - vm_compute. by left.
  - vm_compute. left.
  - vm_compute. discriminate.
Qed.

(** C1, amended: every call of [get_resources] (without pagination) first
    resolves, against the meter collection, the distinct resource ids of the
    samples matching the filter, and then queries the resource collection by
    exactly that id set; the filter holds the timestamp range exactly when
    [start_timestamp] or [end_timestamp] is supplied. Nothing is written. *)
Theorem get_resources_queries {Pagination : Type}
    (user project source : option string)
    (start_timestamp : option Z) (start_timestamp_op : option string)
    (end_timestamp : option Z) (end_timestamp_op : option string)
    (metaquery : dict) (resource : option string) (st : state) :
  let base :=
    Connection.resource_query user project source resource metaquery in
  let q :=
    match start_timestamp, end_timestamp with
    | None, None => base
    | _, _ =>
        <["timestamp" :=
            VDict (make_timestamp_range start_timestamp end_timestamp
                     start_timestamp_op end_timestamp_op)]> base
    end in
  let ids :=
    distinct_values "resource_id"
      (filter (λ d, matches q d = true) (docs (coll "meter" st))) in
  let by_id : dict := {[ "_id" := VDict {[ "$in" := VList ids ]} ]} in
  let r :=
    Connection.get_resources (Pagination := Pagination) user project source
      start_timestamp start_timestamp_op end_timestamp end_timestamp_op
      metaquery resource None st in
  log r.2 = log st ++ [OpDistinct "meter" q "resource_id";
                       OpFind "resource" by_id None 0]
  ∧ db r.2 = db st
  ∧ r.1 = result_mapM Connection.make_resource
            (filter (λ d, matches by_id d = true) (docs (coll "resource" st))).
Proof.
  intros base q ids by_id r.
  set (ts_range := make_timestamp_range start_timestamp end_timestamp
                     start_timestamp_op end_timestamp_op) in *.
  set (bound := truthy (of_time start_timestamp)
                || truthy (of_time end_timestamp)).
  assert (q = if bound
              then set_if (truthy (VDict ts_range)) "timestamp"
                     (VDict ts_range) base
              else base) as Hq.
  { destruct bound eqn:Hb.
    - unfold ts_range. rewrite make_timestamp_range_truthy by done.
      subst q. by destruct start_timestamp, end_timestamp.
    - subst q. by destruct start_timestamp, end_timestamp. }
  subst r. unfold Connection.get_resources. simpl object_truthy. cbv iota.
  fold base ts_range bound. rewrite <-Hq. clearbody q. clear Hq.
  unfold mbind, M_bind, find_distinct, find, lift. simpl.
  rewrite <-app_assoc. done.
Qed.

(** ** Listing alarms *)

Section get_alarms.

Lemma result_mapM_Forall2 {A B} (f : A → result B) (P : A → B → Prop)
    (l : list A) :
  Forall (λ x, ∃ y, f x = Ok y ∧ P x y) l →
  ∃ ys, result_mapM f l = Ok ys ∧ Forall2 P l ys.
Proof.
  induction 1 as [|x l (y & Hy & HP) _ (ys & Hys & IH)]; simpl.
  - eauto.
  - rewrite Hy. simpl. rewrite Hys. simpl. eauto.
Qed.

Lemma make_alarm_stored (d : dict) :
  stored_alarm d →
  ∃ a, Connection.make_alarm d = Ok a
       ∧ alarm_of d a ∧ alarm_fields a !! "_id" = None.
Proof.
  intros ([i Hi] & mm & Hmm & Hshape).
  assert (∃ mm', Connection._decode_matching_metadata mm = Ok mm')
    as [mm' Hdec].
  { destruct Hshape as [[m ->]|[pairs ->]]; [by eexists|].
    rewrite decode_pairs. by eexists. }
  exists (mkAlarm (<["matching_metadata" := mm']> (delete "_id" d))).
  split; [|split].
  - unfold Connection.make_alarm, getitem. rewrite Hi.
    rewrite lookup_delete_ne, Hmm by done. simpl. by rewrite Hdec.
  - by exists mm, mm'.
  - simpl. by rewrite lookup_insert_ne, lookup_delete_eq.
Qed.

End get_alarms.

(** C7, against the claim as stated: a call of [get_alarms] that omits
    [enabled] still constrains [enabled], to [True]. *)
Lemma get_alarms_omitted_enabled_is_constrained :
  let st' :=
    (Connection.get_alarms (Pagination := unit) None None None Omitted None
       None empty_state).2 in
  log st' = [OpFind "alarm" {[ "enabled" := VBool true ]} None 0]
  ∧ log st' ≠ [OpFind "alarm" ∅ None 0].
Proof. split; [by vm_compute|vm_compute; discriminate]. Qed.

(** C7, amended: [get_alarms] (without pagination) queries the alarm
    collection with an equality constraint for each of name, user, project,
    enabled and alarm id exactly when the value of that argument is not
    [None], where an omitted [enabled] has the value [True]; no other
    constraint is applied and nothing is written. On stored alarms the call
    yields, for every matching document, the document without the storage
    identifier and with its [matching_metadata] decoded by
    [_decode_matching_metadata]. *)
Theorem get_alarms_query {Pagination : Type}
    (name user project : option string) (enabled : kwarg (option bool))
    (alarm_id : option string) (st : state) :
  Forall stored_alarm (docs (coll "alarm" st)) →
  let value_of_enabled := kwarg_value (Some true) enabled in
  let q :=
    Connection.alarm_query name user project value_of_enabled alarm_id in
  let r :=
    Connection.get_alarms (Pagination := Pagination) name user project enabled
      alarm_id None st in
  (q !! "name" = VStr <$> name
   ∧ q !! "user_id" = VStr <$> user
   ∧ q !! "project_id" = VStr <$> project
   ∧ q !! "enabled" = VBool <$> value_of_enabled
   ∧ q !! "alarm_id" = VStr <$> alarm_id
   ∧ dom q ⊆ {[ "name"; "user_id"; "project_id"; "enabled"; "alarm_id" ]})
  ∧ log r.2 = log st ++ [OpFind "alarm" q None 0]
  ∧ db r.2 = db st
  ∧ ∃ alarms,
      r.1 = Ok alarms
      ∧ Forall2 alarm_of
          (filter (λ d, matches q d = true) (docs (coll "alarm" st))) alarms
      ∧ Forall (λ a, alarm_fields a !! "_id" = None) alarms.
Proof.
  intros Hst en q r. split; [|split; [done|split; [done|]]].
  - subst q. unfold Connection.alarm_query.
    destruct name, user, project, en as [[]|], alarm_id; simpl;
      (repeat split; [reflexivity..|]);
      rewrite ?dom_insert_L, ?dom_empty_L; set_solver.
  - subst r. unfold Connection.get_alarms. simpl object_truthy. cbv iota.
    fold en q. unfold mbind, M_bind, find, lift. simpl.
    destruct (result_mapM_Forall2 Connection.make_alarm
                (λ d a, alarm_of d a ∧ alarm_fields a !! "_id" = None)
                (filter (λ d, matches q d = true) (docs (coll "alarm" st))))
      as (alarms & Hok & Hall).
    { apply Forall_forall. intros d Hd.
      apply list_elem_of_filter in Hd as [_ Hd].
      apply make_alarm_stored. by eapply Forall_forall in Hst. }
    exists alarms. split; [done|]. split.
    + eapply Forall2_impl; [done|]. by intros d a [? _].
    + clear Hok. induction Hall as [|???? [_ ?] _ IH]; constructor; auto.
Qed.

(** ** Listing samples *)

Section get_samples.

Lemma str_le_cases (a b : string) : str_le a b ↔ a = b ∨ str_lt a b.
Proof.
  unfold str_le, str_lt.
  destruct (String_as_OT.compare_spec a b) as [H|H|H].
  - split; [by left|done].
  - split; [by right|done].
  - split; [done|]. intros [->|Hlt]; [|done].
    by destruct (irreflexivity String_as_OT.lt b).
Qed.

Lemma str_le_total (a b : string) : str_le a b ∨ str_le b a.
Proof.
  rewrite !str_le_cases. unfold str_lt.
  destruct (String_as_OT.compare_spec a b) as [H|H|H]; auto.
Qed.

Lemma str_le_trans (a b c : string) : str_le a b → str_le b c → str_le a c.
Proof.
  rewrite !str_le_cases. unfold str_lt.
  intros [->|H1] [->|H2]; auto. right.
  by apply (transitivity (R := String_as_OT.lt) H1 H2).
Qed.

#[local] Instance key_le_total : Total key_le.
Proof.
  intros a b. unfold key_le.
  destruct (str_le_total a.2 b.2),
    (Z.lt_trichotomy a.1.1 b.1.1) as [?|[?|?]],
    (Z.lt_trichotomy a.1.2 b.1.2) as [?|[?|?]]; auto 6 with lia.
Qed.

#[local] Instance key_le_trans : Transitive key_le.
Proof.
  intros a b c. unfold key_le.
  intros [?|[? [?|[? Hab]]]] [?|[? [?|[? Hbc]]]];
    try (left; lia); try (right; split; [lia|left; lia]).
  right. split; [lia|]. right. split; [lia|]. by eapply str_le_trans.
Qed.

#[local] Instance doc_le_total key dir : Total (doc_le key dir).
Proof. intros d1 d2. destruct dir; simpl; apply (total key_le). Qed.

#[local] Instance doc_le_trans key dir : Transitive (doc_le key dir).
Proof.
  intros d1 d2 d3. destruct dir; simpl; intros H1 H2;
    [by trans (sort_key (d2 !! key))|by trans (sort_key (d2 !! key))].
Qed.

Lemma merge_sort_sorted (key : string) (dir : direction) (ds : list dict) :
  StronglySorted (doc_le key dir) (merge_sort (doc_le key dir) ds).
Proof. apply StronglySorted_merge_sort; apply _. Qed.

Lemma find_result_sorted (spec : dict) (key : string) (dir : direction)
    (limit : Z) (ds : list dict) :
  StronglySorted (doc_le key dir) (find_result spec (Some (key, dir)) limit ds).
Proof.
  unfold find_result, take_limit, sort_docs.
  set (l := merge_sort _ _).
  assert (StronglySorted (doc_le key dir) l) as Hl
    by (apply StronglySorted_merge_sort; apply _).
  case_decide; [done|].
  rewrite <-(take_drop (Z.abs_nat limit) l) in Hl.
  by apply StronglySorted_app_1_l in Hl.
Qed.

Lemma find_result_subseteq (spec : dict) (sort : option (string * direction))
    (limit : Z) (ds : list dict) :
  find_result spec sort limit ds ⊆ ds.
Proof.
  unfold find_result, take_limit, sort_docs. intros d Hd.
  assert (d ∈ filter (λ d, matches spec d = true) ds) as Hf.
  { destruct sort as [[key dir]|]; case_decide;
      try apply subseteq_take in Hd;
      try (by rewrite merge_sort_Permutation in Hd); done. }
  by apply list_elem_of_filter in Hf as [_ ?].
Qed.

Lemma find_result_length (spec : dict) (sort : option (string * direction))
    (limit : Z) (ds : list dict) :
  0 < limit → Z.of_nat (length (find_result spec sort limit ds)) ≤ limit.
Proof.
  intros Hpos. unfold find_result, take_limit.
  case_decide; [lia|]. rewrite length_take. lia.
Qed.

Lemma make_samples_stored (ds : list dict) :
  Forall (λ d, is_Some (d !! "_id")) ds →
  result_mapM Connection.make_sample ds = Ok (sample_of <$> ds).
Proof.
  induction 1 as [|d ds [i Hi] _ IH]; [done|].
  simpl. unfold Connection.make_sample at 1. rewrite Hi. simpl.
  rewrite IH. simpl. unfold Connection.get_default, sample_of.
  by rewrite lookup_delete_ne.
Qed.

Lemma sample_of_timestamp (d : dict) :
  sample_fields (sample_of d) !! "timestamp" = d !! "timestamp".
Proof. simpl. by rewrite lookup_insert_ne, lookup_delete_ne. Qed.

Lemma find_result_matches (spec : dict) (sort : option (string * direction))
    (limit : Z) (ds : list dict) :
  Forall (λ d, matches spec d = true) (find_result spec sort limit ds).
Proof.
  apply Forall_forall. intros d Hd.
  unfold find_result, take_limit, sort_docs in Hd.
  assert (d ∈ filter (λ d, matches spec d = true) ds) as Hf.
  { destruct sort as [[key dir]|]; case_decide;
      try apply subseteq_take in Hd;
      try (by rewrite merge_sort_Permutation in Hd); done. }
  by apply list_elem_of_filter in Hf as [? _].
Qed.

(** What a call of [get_samples] with a limit other than zero does. *)
Lemma get_samples_run (sample_filter : SampleFilter) (limit : option Z)
    (st : state) (q : dict) :
  limit ≠ Some 0 →
  make_query_from_filter sample_filter false = Ok q →
  Forall (λ d, is_Some (d !! "_id")) (docs (coll "meter" st)) →
  Connection.get_samples sample_filter limit st
  = (Ok (sample_of <$>
           find_result q (Some ("timestamp", DESCENDING)) (default 0 limit)
             (docs (coll "meter" st))),
     called (OpFind "meter" q (Some ("timestamp", DESCENDING))
               (default 0 limit)) st).
Proof.
  intros Hlim Hq Hst. unfold Connection.get_samples.
  rewrite decide_False by done.
  unfold mbind, M_bind, lift. rewrite Hq. cbv beta iota.
  set (sort := Some ("timestamp", DESCENDING)).
  assert ((if truthy (Connection.of_int limit)
           then find "meter" q sort (default 0 limit)
           else find "meter" q sort 0)
          = find "meter" q sort (default 0 limit)) as ->.
  { destruct limit as [n|]; [|reflexivity]. unfold Connection.of_int, truthy.
    destruct (Z.eqb_spec n 0) as [->|]; [by destruct Hlim|done]. }
  unfold find. simpl.
  rewrite make_samples_stored; [done|].
  apply Forall_forall. intros d Hd.
  apply find_result_subseteq in Hd. by eapply Forall_forall in Hst.
Qed.

End get_samples.

(** C6: on a store whose sample records carry their identifier,
    [get_samples] with limit zero yields the empty sequence and issues no
    query; otherwise it issues one query on the meter collection, and the
    samples it yields are those of stored records matching the filter, sorted
    descending by timestamp, at most [limit] of them when a positive limit
    is given, each without the storage identifier and with the empty string
    as unit when the stored record has no [counter_unit]. What is yielded is
    all there is to yield: the stored records matching the filter, each as
    often as it is stored, put in an order that is descending by timestamp,
    give the yielded samples, all of them without a limit and the first
    [limit] of them, the newest, under a limit. *)
Theorem get_samples_sorted_capped (sample_filter : SampleFilter)
    (limit : option Z) (st : state) :
  Forall (λ d, is_Some (d !! "_id")) (docs (coll "meter" st)) →
  let r := Connection.get_samples sample_filter limit st in
  (limit = Some 0 → r = (Ok [], st))
  ∧ ∃ stored q,
      r.1 = Ok (sample_of <$> stored)
      ∧ stored ⊆ docs (coll "meter" st)
      ∧ make_query_from_filter sample_filter false = Ok q
      ∧ Forall (λ d, matches q d = true) stored
      ∧ (limit ≠ Some 0 →
         log r.2 = log st ++ [OpFind "meter" q (Some ("timestamp", DESCENDING))
                                (default 0 limit)])
      ∧ db r.2 = db st
      ∧ StronglySorted not_older (sample_of <$> stored)
      ∧ (∀ n, limit = Some n → 0 < n → Z.of_nat (length stored) ≤ n)
      ∧ Forall (λ d, sample_fields (sample_of d) !! "_id" = None
                     ∧ (d !! "counter_unit" = None →
                        sample_fields (sample_of d) !! "counter_unit"
                        = Some (VStr ""))) stored
      ∧ ∃ newest_first,
          newest_first
          ≡ₚ filter (λ d, matches q d = true) (docs (coll "meter" st))
          ∧ StronglySorted not_older (sample_of <$> newest_first)
          ∧ stored = capped limit newest_first.
Proof.
  intros Hst r. split.
  { intros ->. done. }
  destruct (make_query_from_filter_optional_meter sample_filter) as [q Hq].
  set (newest_first :=
         merge_sort (doc_le "timestamp" DESCENDING)
           (filter (λ d, matches q d = true) (docs (coll "meter" st)))).
  assert (StronglySorted not_older (sample_of <$> newest_first)) as Hnewest.
  { eapply StronglySorted_fmap; [|apply merge_sort_sorted].
    intros d1 d2 H. unfold not_older. by rewrite !sample_of_timestamp. }
  destruct (decide (limit = Some 0)) as [->|Hlim].
  - exists [], q. simpl.
    split; [done|]. split; [apply list_subseteq_nil|]. split; [done|].
    split; [constructor|]. split; [done|]. split; [done|].
    split; [constructor|]. split; [intros n _ Hn; lia|].
    split; [constructor|].
    exists newest_first.
    split; [apply merge_sort_Permutation|]. by split.
  - subst r. rewrite (get_samples_run _ _ _ q) by done.
    set (stored := find_result q _ _ _).
    exists stored, q. simpl.
    split; [done|]. split; [apply find_result_subseteq|]. split; [done|].
    split; [apply find_result_matches|]. split; [done|]. split; [done|].
    split; [|split; [|split]].
    + eapply StronglySorted_fmap; [|apply find_result_sorted].
      intros d1 d2 H. unfold not_older. by rewrite !sample_of_timestamp.
    + intros n -> Hn. by apply find_result_length.
    + apply Forall_forall. intros d _. split.
      * simpl. by rewrite lookup_insert_ne, lookup_delete_eq.
      * intros Hu. simpl. by rewrite lookup_insert_eq, Hu.
    + exists newest_first.
      split; [apply merge_sort_Permutation|]. split; [done|].
      subst stored newest_first.
      unfold find_result, take_limit, sort_docs, capped.
      destruct limit as [n|]; simpl; [|done].
      rewrite decide_False; [done|]. by intros ->.
Qed.

(** ** The store under the calls of the driver *)

Section store.

Lemma coll_called (c : string) (o : op) (st : state) :
  coll c (called o st) = coll c st.
Proof. done. Qed.

Lemma coll_set_coll (c c' : string) (x : collection) (st : state) :
  coll c (set_coll c' x st) = if decide (c' = c) then x else coll c st.
Proof.
  unfold coll, set_coll. simpl. rewrite lookup_insert.
  by case_decide.
Qed.

Lemma docs_set_docs (c c' : string) (ds : list dict) (st : state) :
  docs (coll c (set_docs c' ds st))
  = if decide (c' = c) then ds else docs (coll c st).
Proof. unfold set_docs. rewrite coll_set_coll. by case_decide. Qed.

Lemma indexes_set_docs (c c' : string) (ds : list dict) (st : state) :
  indexes (coll c (set_docs c' ds st)) = indexes (coll c st).
Proof.
  unfold set_docs. rewrite coll_set_coll. case_decide; [by subst|done].
Qed.

(** A key without a dot names the field of that name. *)
Lemma split_dots_plain (k : string) : dot_free k = true → split_dots k = [k].
Proof.
  induction k as [|c k IH]; [done|]. cbn [dot_free split_dots].
  intros [Hc Hk]%andb_prop. rewrite (IH Hk).
  by destruct (Ascii.eqb c ".").
Qed.

Lemma resolve_plain (k : string) (d : dict) :
  dot_free k = true → resolve k d = [d !! k].
Proof. intros Hk. unfold resolve. by rewrite split_dots_plain. Qed.

Lemma path_matches_plain (d : dict) (k : string) (c : value) :
  dot_free k = true → path_matches d k c = field_matches (d !! k) c.
Proof.
  intros Hk. unfold path_matches. rewrite resolve_plain by done.
  cbn [existsb]. by rewrite orb_false_r.
Qed.

(** A query on the identifier alone. *)
Lemma matches_id (v : value) (d : dict) :
  matches {[ "_id" := v ]} d = field_matches (d !! "_id") v.
Proof.
  unfold matches. rewrite map_to_list_singleton. cbn [forallb fst snd].
  rewrite path_matches_plain by reflexivity. by rewrite andb_true_r.
Qed.

Lemma filter_unmatched_all (spec : dict) (ds : list dict) :
  Forall (λ d, matches spec d = false) ds →
  filter (λ d, matches spec d = false) ds = ds.
Proof.
  induction 1 as [|d ds Hd _ IH]; [done|].
  by rewrite filter_cons_True, IH by done.
Qed.

(** Removing by its identifier a document that was appended leaves the
    documents there were, when none of them has this identifier. *)
Lemma remove_appended (s : string) (sentinel : dict) (ds : list dict) :
  sentinel !! "_id" = Some (VStr s) →
  Forall (λ d, eq_matches (d !! "_id") (VStr s) = false) ds →
  filter (λ d, matches {[ "_id" := VStr s ]} d = false) (ds ++ [sentinel])
  = ds.
Proof.
  intros Hs Hds. rewrite filter_app, filter_unmatched_all.
  - rewrite filter_cons_False, filter_nil; [by rewrite app_nil_r|].
    rewrite matches_id, Hs. unfold field_matches, operator_doc, eq_matches.
    by rewrite bool_decide_eq_true_2.
  - eapply Forall_impl; [done|]. intros d Hd. by rewrite matches_id.
Qed.

Lemma bind_ok {A B} (m : M A) (f : A → M B) (st : state) (a : A) :
  (m st).1 = Ok a → (m ≫= f) st = f a (m st).2.
Proof.
  unfold mbind, M_bind. destruct (m st) as [[a'|e] st']; simpl; [|done].
  by intros [= ->].
Qed.

Lemma new_objectid_ok (st : state) :
  (new_objectid st).1 = Ok (oid (next_oid st)).
Proof. done. Qed.

Lemma coll_new_objectid (c : string) (st : state) :
  coll c (new_objectid st).2 = coll c st.
Proof. done. Qed.

Lemma next_oid_new_objectid (st : state) :
  next_oid (new_objectid st).2 = S (next_oid st).
Proof. done. Qed.

Lemma insert_ok (c : string) (d : dict) (st : state) :
  (insert c d st).1 = Ok ().
Proof. done. Qed.

Lemma docs_insert_eq (c : string) (d : dict) (st : state) :
  docs (coll c (insert c d st).2) = docs (coll c st) ++ [d].
Proof. unfold insert. simpl. by rewrite docs_set_docs, decide_True. Qed.

Lemma docs_insert_ne (c c' : string) (d : dict) (st : state) :
  c' ≠ c → docs (coll c (insert c' d st).2) = docs (coll c st).
Proof.
  intros. unfold insert. simpl. by rewrite docs_set_docs, decide_False.
Qed.

Lemma indexes_insert (c c' : string) (d : dict) (st : state) :
  indexes (coll c (insert c' d st).2) = indexes (coll c st).
Proof. unfold insert. simpl. by rewrite indexes_set_docs. Qed.

Lemma next_oid_insert (c : string) (d : dict) (st : state) :
  next_oid (insert c d st).2 = next_oid st.
Proof. done. Qed.

Lemma remove_ok (c : string) (spec : dict) (st : state) :
  (remove c spec st).1 = Ok ().
Proof. done. Qed.

Lemma remove_run (c : string) (spec : dict) (st : state) :
  remove c spec st = (Ok (), (remove c spec st).2).
Proof. done. Qed.

Lemma docs_remove_eq (c : string) (spec : dict) (st : state) :
  docs (coll c (remove c spec st).2)
  = filter (λ d, matches spec d = false) (docs (coll c st)).
Proof. unfold remove. simpl. by rewrite docs_set_docs, decide_True. Qed.

Lemma docs_remove_ne (c c' : string) (spec : dict) (st : state) :
  c' ≠ c → docs (coll c (remove c' spec st).2) = docs (coll c st).
Proof.
  intros. unfold remove. simpl. by rewrite docs_set_docs, decide_False.
Qed.

Lemma indexes_remove (c c' : string) (spec : dict) (st : state) :
  indexes (coll c (remove c' spec st).2) = indexes (coll c st).
Proof. unfold remove. simpl. by rewrite indexes_set_docs. Qed.

Lemma next_oid_remove (c : string) (spec : dict) (st : state) :
  next_oid (remove c spec st).2 = next_oid st.
Proof. done. Qed.

Lemma ensure_index_ok (c : string) (keys : index_keys) (name : string)
    (st : state) :
  (ensure_index c keys name st).1 = Ok ().
Proof. done. Qed.

Lemma docs_ensure_index (c c' : string) (keys : index_keys) (name : string)
    (st : state) :
  docs (coll c (ensure_index c' keys name st).2) = docs (coll c st).
Proof.
  unfold ensure_index. simpl. rewrite coll_set_coll.
  case_decide; [by subst|done].
Qed.

Lemma indexes_ensure_index_eq (c : string) (keys : index_keys)
    (name : string) (st : state) :
  indexes (coll c (ensure_index c keys name st).2)
  = <[name := keys]> (indexes (coll c st)).
Proof. unfold ensure_index. simpl. by rewrite coll_set_coll, decide_True. Qed.

Lemma indexes_ensure_index_ne (c c' : string) (keys : index_keys)
    (name : string) (st : state) :
  c' ≠ c →
  indexes (coll c (ensure_index c' keys name st).2) = indexes (coll c st).
Proof.
  intros. unfold ensure_index. simpl. by rewrite coll_set_coll, decide_False.
Qed.

Lemma next_oid_ensure_index (c : string) (keys : index_keys) (name : string)
    (st : state) :
  next_oid (ensure_index c keys name st).2 = next_oid st.
Proof. done. Qed.

Lemma index_information_ok (c : string) (st : state) :
  (index_information c st).1 = Ok (indexes (coll c st)).
Proof. done. Qed.

Lemma next_oid_index_information (c : string) (st : state) :
  next_oid (index_information c st).2 = next_oid st.
Proof. done. Qed.

Lemma coll_index_information (c c' : string) (st : state) :
  coll c (index_information c' st).2 = coll c st.
Proof. done. Qed.

Lemma lift_bind {A B} (a : A) (f : A → M B) (st : state) :
  (lift (Ok a) ≫= f) st = f a st.
Proof. done. Qed.

End store.

(** Case analysis on a collection name: one of the four the driver writes
    to, or another one. *)
Ltac by_collection c :=
  destruct (decide (c = "resource")) as [->|?];
    [|destruct (decide (c = "meter")) as [->|?];
      [|destruct (decide (c = "user")) as [->|?];
        [|destruct (decide (c = "project")) as [->|?]]]].

(** ** The schema manager *)

Section upgrade.

Lemma fresh_ids_unmatched (st : state) (c : string) (n : nat) :
  fresh_ids st → (next_oid st ≤ n)%nat →
  Forall (λ d, eq_matches (d !! "_id") (VStr (oid n)) = false)
    (docs (coll c st)).
Proof.
  intros Hfresh Hn. apply Forall_forall. intros d Hd. by eapply Hfresh.
Qed.

(** On an initialised store [upgrade] only reads the index metadata. *)
Lemma upgrade_initialised (st : state) :
  indexes (coll "resource" st) ≠ ∅ →
  Connection.upgrade st = (Ok (), called (OpIndexInformation "resource") st).
Proof.
  intros Hidx. unfold Connection.upgrade.
  rewrite (bind_ok _ _ _ _ (index_information_ok _ _)).
  by rewrite decide_False.
Qed.

End upgrade.

(** C9: on a store whose resource collection reports no index, and where
    no document carries an identifier still to be generated, [upgrade]
    succeeds, creates the index of the resource collection and the two
    indexes of the meter collection, and leaves in every collection the
    documents there were; run again on the resulting store it only reads the
    index metadata: it creates no index and writes nothing. *)
Theorem upgrade_idempotent (st : state) :
  indexes (coll "resource" st) = ∅ →
  fresh_ids st →
  let r1 := Connection.upgrade st in
  r1.1 = Ok ()
  ∧ (∀ c, docs (coll c r1.2) = docs (coll c st))
  ∧ indexes (coll "resource" r1.2)
    = {[ "resource_idx" := [("user_id", ASCENDING); ("project_id", ASCENDING);
                            ("source", ASCENDING)] ]}
  ∧ indexes (coll "meter" r1.2)
    = <["timestamp_idx" := [("timestamp", DESCENDING)] ]>
        (<["meter_idx" := [("resource_id", ASCENDING); ("user_id", ASCENDING);
                           ("project_id", ASCENDING);
                           ("counter_name", ASCENDING);
                           ("timestamp", ASCENDING); ("source", ASCENDING)] ]>
           (indexes (coll "meter" st)))
  ∧ Connection.upgrade r1.2
    = (Ok (), called (OpIndexInformation "resource") r1.2).
Proof.
  intros Hidx Hfresh r1.
  assert (∃ st',
    r1 = (Ok (), st')
    ∧ (∀ c, docs (coll c st') = docs (coll c st))
    ∧ indexes (coll "resource" st')
      = <["resource_idx" := [("user_id", ASCENDING); ("project_id", ASCENDING);
                             ("source", ASCENDING)] ]> ∅
    ∧ indexes (coll "meter" st')
      = <["timestamp_idx" := [("timestamp", DESCENDING)] ]>
          (<["meter_idx" := [("resource_id", ASCENDING); ("user_id", ASCENDING);
                             ("project_id", ASCENDING);
                             ("counter_name", ASCENDING);
                             ("timestamp", ASCENDING); ("source", ASCENDING)] ]>
             (indexes (coll "meter" st))))
    as (st' & -> & Hdocs & Hres & Hmeter).
  { subst r1. unfold Connection.upgrade.
    rewrite (bind_ok _ _ _ _ (index_information_ok _ _)).
    rewrite Hidx, decide_True by done.
    repeat (first
      [ rewrite (bind_ok _ _ _ _ (new_objectid_ok _))
      | rewrite (bind_ok _ _ _ _ (insert_ok _ _ _))
      | rewrite (bind_ok _ _ _ _ (remove_ok _ _ _))
      | rewrite (bind_ok _ _ _ _ (ensure_index_ok _ _ _ _)) ];
      repeat (progress
        rewrite ?next_oid_new_objectid, ?next_oid_insert, ?next_oid_remove,
          ?next_oid_ensure_index, ?next_oid_index_information)).
    rewrite (remove_run "project"). eexists. split; [reflexivity|].
    split; [intros c|split].
    1: by_collection c.
    all: repeat (progress
           (rewrite ?coll_new_objectid, ?coll_index_information,
              ?docs_insert_eq, ?docs_remove_eq, ?docs_ensure_index,
              ?indexes_insert, ?indexes_remove, ?indexes_ensure_index_eq;
            rewrite ?docs_insert_ne, ?docs_remove_ne,
              ?indexes_ensure_index_ne by done)).
    all: rewrite ?Hidx; try done.
    all: apply remove_appended; [done|apply fresh_ids_unmatched; [done|lia]]. }
  simpl. split; [done|]. split; [done|]. split; [done|]. split; [done|].
  apply upgrade_initialised. rewrite Hres. apply insert_non_empty.
Qed.

(** ** The write path *)

Section modifiers.

Lemma apply_update_add (k : string) (v : value) (d : dict) :
  apply_update {[ "$addToSet" := VDict {[ k := v ]} ]} d = modifier ∅ k v d.
Proof.
  unfold apply_update, modifier.
  rewrite (lookup_singleton_ne "$addToSet" "$set") by done.
  rewrite lookup_singleton_eq, map_to_list_singleton. simpl.
  by rewrite (left_id_L ∅ (∪)).
Qed.

Lemma apply_update_set_add (fields : dict) (k : string) (v : value)
    (d : dict) :
  apply_update {[ "$set" := VDict fields;
                  "$addToSet" := VDict {[ k := v ]} ]} d
  = modifier fields k v d.
Proof.
  unfold apply_update, modifier.
  rewrite lookup_insert_eq.
  rewrite (lookup_insert_ne _ "$set" "$addToSet") by done.
  by rewrite lookup_singleton_eq, map_to_list_singleton.
Qed.

Lemma modifier_inv (fields : dict) (k : string) (v : value) (d d' : dict) :
  modifier fields k v d = Ok d' →
  ∃ l, d' = <[k := VList l]> (fields ∪ d) ∧ v ∈ l.
Proof.
  unfold modifier, add_to_set.
  destruct ((fields ∪ d) !! k) as [[| | | | |l|]|]; simpl; try done.
  - intros [= <-]. case_decide; eexists; split; try done. set_solver.
  - intros [= <-]. eexists; split; [done|]. set_solver.
Qed.

Lemma modifier_ok (fields : dict) (k : string) (v : value) (d : dict) :
  array_field k (fields ∪ d) → ∃ d', modifier fields k v d = Ok d'.
Proof.
  unfold array_field, modifier, add_to_set.
  destruct ((fields ∪ d) !! k) as [[| | | | |l|]|]; simpl; try done; eauto.
Qed.

Lemma modifier_idem (fields : dict) (k : string) (v : value) (d d' : dict) :
  fields !! k = None →
  modifier fields k v d = Ok d' → modifier fields k v d' = Ok d'.
Proof.
  intros Hk (l & -> & Hl)%modifier_inv. unfold modifier.
  rewrite <-insert_union_r by done.
  rewrite (assoc_L (∪)), (idemp_L (∪)).
  rewrite lookup_insert_eq. simpl. rewrite decide_True by done. simpl.
  by rewrite insert_insert_eq.
Qed.

Lemma modifier_id (fields : dict) (k : string) (v : value) (d d' : dict) :
  k ≠ "_id" → fields !! "_id" = None →
  modifier fields k v d = Ok d' → d' !! "_id" = d !! "_id".
Proof.
  intros Hk Hf (l & -> & _)%modifier_inv.
  by rewrite lookup_insert_ne, lookup_union_r.
Qed.

End modifiers.

Section update_docs.

(** An update whose modifiers keep the identifier and, applied again,
    change nothing more. *)
Context (spec document : dict).
Context (Hmatch : ∀ d d', apply_update document d = Ok d' →
                          matches spec d' = matches spec d).
Context (Hidem : ∀ d d', apply_update document d = Ok d' →
                         apply_update document d' = Ok d').

Lemma modify_first_idem (ds ds' : list dict) :
  modify_first (matches spec) (apply_update document) ds = Some (Ok ds') →
  modify_first (matches spec) (apply_update document) ds' = Some (Ok ds').
Proof.
  revert ds'. induction ds as [|d ds IH]; intros ds'; simpl; [done|].
  destruct (matches spec d) eqn:Hd.
  - destruct (apply_update document d) as [d'|] eqn:Hd'; simpl; [|done].
    intros [= <-]. simpl.
    by rewrite (Hmatch _ _ Hd'), Hd, (Hidem _ _ Hd').
  - destruct (modify_first _ _ ds) as [[ds''|]|]; simpl; try done.
    intros [= <-]. simpl. rewrite Hd. by rewrite (IH ds'').
Qed.

Lemma modify_first_None (ds : list dict) :
  modify_first (matches spec) (apply_update document) ds = None ↔
  Forall (λ d, matches spec d = false) ds.
Proof.
  induction ds as [|d ds IH]; simpl; [by split; [constructor|]|].
  rewrite Forall_cons, <-IH.
  destruct (matches spec d); simpl; [by split; [|intros []]|].
  destruct (modify_first _ _ ds); simpl; by split; [|intros []|..].
Qed.

Lemma modify_first_appended (ds : list dict) (d : dict) :
  Forall (λ d, matches spec d = false) ds → matches spec d = true →
  modify_first (matches spec) (apply_update document) (ds ++ [d])
  = Some (result_map (λ d', ds ++ [d']) (apply_update document d)).
Proof.
  intros Hds Hd. induction Hds as [|d0 ds Hd0 _ IH]; simpl.
  - by rewrite Hd.
  - rewrite Hd0, IH. simpl. by destruct (apply_update document d).
Qed.

(** A second [update] with the same arguments changes nothing. *)
Lemma update_docs_idem (ds ds' : list dict) :
  (∀ d0, apply_update document (upsert_base spec) = Ok d0 →
         matches spec d0 = true) →
  update_docs spec document true ds = Ok ds' →
  update_docs spec document true ds' = Ok ds'.
Proof.
  intros Hbase. unfold update_docs.
  destruct (modify_first _ _ ds) as [r|] eqn:Hfirst.
  - intros ->. by rewrite (modify_first_idem _ _ Hfirst).
  - destruct (apply_update document (upsert_base spec)) as [d0|] eqn:Hd0;
      simpl; [|done].
    intros [= <-]. apply modify_first_None in Hfirst.
    rewrite modify_first_appended by auto.
    by rewrite (Hidem _ _ Hd0).
Qed.

(** The identifiers after an upsert: those there were, one of which
    matched, or one more. *)
Lemma update_docs_ids (ds ds' : list dict) :
  (∀ d d', apply_update document d = Ok d' → d' !! "_id" = d !! "_id") →
  update_docs spec document true ds = Ok ds' →
  (doc_ids ds' = doc_ids ds ∧ Exists (λ d, matches spec d = true) ds)
  ∨ (∃ d0, ds' = ds ++ [d0]
           ∧ apply_update document (upsert_base spec) = Ok d0
           ∧ Forall (λ d, matches spec d = false) ds).
Proof.
  intros Hid. unfold update_docs.
  destruct (modify_first _ _ ds) as [r|] eqn:Hfirst.
  - intros ->. left. clear Hmatch Hidem. revert ds' Hfirst.
    induction ds as [|d ds IH]; intros ds'; simpl; [done|].
    destruct (matches spec d) eqn:Hd.
    + destruct (apply_update document d) as [d'|] eqn:Hd'; simpl; [|done].
      intros [= <-]. split; [|by left].
      unfold doc_ids. simpl. by rewrite (Hid _ _ Hd').
    + destruct (modify_first _ _ ds) as [[ds''|]|]; simpl; try done.
      intros [= <-]. destruct (IH ds'' eq_refl) as [Hids Hex].
      split; [|by right]. unfold doc_ids in *. rewrite !fmap_cons.
      by rewrite Hids.
  - destruct (apply_update document (upsert_base spec)) as [d0|] eqn:Hd0;
      simpl; [|done].
    intros [= <-]. right. exists d0. by apply modify_first_None in Hfirst.
Qed.

(** An upsert succeeds when its modifiers apply to the documents that
    match and to the document it would create. *)
Lemma update_docs_ok (ds : list dict) :
  Forall (λ d, ∃ d', apply_update document d = Ok d') ds →
  (∃ d0, apply_update document (upsert_base spec) = Ok d0) →
  ∃ ds', update_docs spec document true ds = Ok ds'.
Proof.
  intros Hds [d0 Hd0]. unfold update_docs.
  assert (modify_first (matches spec) (apply_update document) ds = None
          ∨ ∃ ds', modify_first (matches spec) (apply_update document) ds
                   = Some (Ok ds')) as [->|[ds' ->]].
  { clear Hmatch Hidem Hd0. induction Hds as [|d ds [d' Hd'] _ IH]; simpl;
      [by left|].
    destruct (matches spec d); [right; rewrite Hd'; simpl; eauto|].
    destruct IH as [->|[ds' ->]]; simpl; eauto. }
  - rewrite Hd0. simpl. eauto.
  - eauto.
Qed.

End update_docs.

Section upsert_by_id.

Lemma upsert_base_id (v : value) :
  scalar v = true → upsert_base {[ "_id" := v ]} = {[ "_id" := v ]}.
Proof.
  intros Hv. unfold upsert_base. rewrite map_filter_singleton.
  rewrite decide_True; [done|]. by destruct v.
Qed.

Lemma matches_id_scalar (v : value) (d : dict) :
  scalar v = true → matches {[ "_id" := v ]} d = eq_matches (d !! "_id") v.
Proof. intros Hv. rewrite matches_id. by destruct v. Qed.

Lemma eq_matches_scalar (v w : value) :
  scalar v = true → eq_matches (Some v) w = bool_decide (v = w).
Proof. intros Hv. simpl. destruct v; try done; by rewrite orb_false_r. Qed.

Lemma filter_none {A} (P : A → Prop) `{!∀ x, Decision (P x)} (l : list A) :
  Forall (λ x, ¬ P x) l → filter P l = [].
Proof.
  induction 1 as [|x l Hx _ IH]; [done|]. by rewrite filter_cons_False.
Qed.

Lemma count_once {A} `{EqDecision A} (x : A) (l : list A) :
  NoDup l → x ∈ l → length (filter (λ i, i = x) l) = 1%nat.
Proof.
  induction 1 as [|y l Hy Hnd IH]; [by intros ?%elem_of_nil|].
  intros [->|Hx]%elem_of_cons.
  - rewrite filter_cons_True by done. simpl. f_equal.
    apply length_zero_iff_nil, filter_none.
    apply Forall_forall. by intros i Hi ->.
  - rewrite filter_cons_False by (by intros ->). auto.
Qed.

(** An upsert by identifier whose modifiers are those of the write path:
    it succeeds, a second one changes nothing, and exactly one document
    has the identifier afterwards. *)
Lemma upsert_by_id (v : value) (fields : dict) (k : string) (x : value)
    (document : dict) (ds : list dict) :
  (∀ d, apply_update document d = modifier fields k x d) →
  scalar v = true → k ≠ "_id" →
  fields !! "_id" = None → fields !! k = None →
  unique_ids ds → Forall (array_field k) ds →
  ∃ ds', update_docs {[ "_id" := v ]} document true ds = Ok ds'
         ∧ update_docs {[ "_id" := v ]} document true ds' = Ok ds'
         ∧ count_id v ds' = 1%nat.
Proof.
  intros Hdoc Hv Hk Hfid Hfk [Hids Hnd] Harr.
  assert (∀ d d', apply_update document d = Ok d' →
                  d' !! "_id" = d !! "_id") as Hid.
  { intros d d'. rewrite Hdoc. by apply modifier_id. }
  assert (∀ d d', apply_update document d = Ok d' →
                  matches {[ "_id" := v ]} d' = matches {[ "_id" := v ]} d)
    as Hmatch.
  { intros d d' Hd. by rewrite !matches_id, (Hid _ _ Hd). }
  assert (∀ d d', apply_update document d = Ok d' →
                  apply_update document d' = Ok d') as Hidem.
  { intros d d'. rewrite !Hdoc. by apply modifier_idem. }
  assert (∀ d0,
            apply_update document (upsert_base {[ "_id" := v ]}) = Ok d0 →
            d0 !! "_id" = Some v) as Hbase.
  { intros d0 Hd0. rewrite (Hid _ _ Hd0), upsert_base_id by done.
    apply lookup_singleton_eq. }
  destruct (update_docs_ok {[ "_id" := v ]} document ds) as [ds' Hds'].
  { eapply Forall_impl; [exact Harr|]. intros d Hd. rewrite Hdoc.
    apply modifier_ok. unfold array_field in *.
    by rewrite lookup_union_r. }
  { rewrite Hdoc. apply modifier_ok. unfold array_field.
    rewrite lookup_union_r by done. rewrite upsert_base_id by done.
    by rewrite lookup_singleton_ne. }
  exists ds'. split; [done|]. split.
  - apply (update_docs_idem _ _ Hmatch Hidem ds); [|done].
    intros d0 Hd0. rewrite matches_id_scalar, (Hbase _ Hd0) by done.
    rewrite eq_matches_scalar by done. by apply bool_decide_eq_true.
  - unfold count_id.
    destruct (update_docs_ids _ _ ds ds' Hid Hds')
      as [[-> Hex]|(d0 & -> & Hd0 & Hnone)].
    + apply count_once; [done|].
      apply Exists_exists in Hex as (d & Hd & Hm).
      eapply Forall_forall in Hids as (w & Hw & Hsc); [|done].
      rewrite matches_id_scalar, Hw, eq_matches_scalar in Hm by done.
      apply bool_decide_eq_true in Hm as ->.
      apply list_elem_of_fmap. by exists d.
    + unfold doc_ids. rewrite fmap_app, filter_app, length_app. simpl.
      rewrite filter_cons_True, (Hbase _ Hd0) by by rewrite (Hbase _ Hd0).
      simpl. rewrite filter_none; [done|].
      apply Forall_forall. intros i (d & -> & Hd)%list_elem_of_fmap Hi.
      eapply Forall_forall in Hnone; [|done].
      rewrite matches_id_scalar, Hi, eq_matches_scalar in Hnone by done.
      by apply bool_decide_eq_false in Hnone.
Qed.

End upsert_by_id.

Section record_metering_data.

Lemma update_ok (c : string) (spec document : dict) (upsert : bool)
    (st : state) (ds : list dict) :
  update_docs spec document upsert (docs (coll c st)) = Ok ds →
  (update c spec document upsert st).1 = Ok ().
Proof. intros H. unfold update. cbv zeta. by rewrite coll_called, H. Qed.

Lemma docs_update_eq (c : string) (spec document : dict) (upsert : bool)
    (st : state) (ds : list dict) :
  update_docs spec document upsert (docs (coll c st)) = Ok ds →
  docs (coll c (update c spec document upsert st).2) = ds.
Proof.
  intros H. unfold update. cbv zeta. rewrite coll_called, H. simpl.
  by rewrite docs_set_docs, decide_True.
Qed.

Lemma docs_update_ne (c c' : string) (spec document : dict) (upsert : bool)
    (st : state) :
  c' ≠ c →
  docs (coll c (update c' spec document upsert st).2) = docs (coll c st).
Proof.
  intros Hne. unfold update. cbv zeta.
  destruct (update_docs _ _ _ _); simpl; [|done].
  by rewrite docs_set_docs, decide_False.
Qed.

Lemma next_oid_update (c : string) (spec document : dict) (upsert : bool)
    (st : state) :
  next_oid (update c spec document upsert st).2 = next_oid st.
Proof. unfold update. cbv zeta. by destruct (update_docs _ _ _ _). Qed.

Lemma sample_payload_fields (data : dict) :
  sample_payload data →
  ∃ uid pid rid src md cn ct cu,
    (data !! "user_id" = Some uid ∧ data !! "project_id" = Some pid
     ∧ data !! "resource_id" = Some rid ∧ data !! "source" = Some src)
    ∧ (data !! "resource_metadata" = Some md
       ∧ data !! "counter_name" = Some cn ∧ data !! "counter_type" = Some ct
       ∧ data !! "counter_unit" = Some cu)
    ∧ scalar uid = true ∧ scalar pid = true ∧ scalar rid = true.
Proof.
  intros (Hf & Hs & _).
  repeat (apply Forall_cons in Hf as [[? ?] Hf]).
  repeat (apply Forall_cons in Hs as [? Hs]).
  unfold field in *. simplify_option_eq. naive_solver.
Qed.

(** One call of [record_metering_data], given what its three upserts
    produce. *)
Lemma record_metering_data_run (data : dict) (st : state)
    (uid pid rid src md cn ct cu : value) (ds_u ds_p ds_r : list dict) :
  (data !! "user_id" = Some uid ∧ data !! "project_id" = Some pid
   ∧ data !! "resource_id" = Some rid ∧ data !! "source" = Some src) →
  (data !! "resource_metadata" = Some md
   ∧ data !! "counter_name" = Some cn ∧ data !! "counter_type" = Some ct
   ∧ data !! "counter_unit" = Some cu) →
  data !! "_id" = None →
  update_docs {[ "_id" := uid ]}
    {[ "$addToSet" := VDict {[ "source" := src ]} ]} true
    (docs (coll "user" st)) = Ok ds_u →
  update_docs {[ "_id" := pid ]}
    {[ "$addToSet" := VDict {[ "source" := src ]} ]} true
    (docs (coll "project" st)) = Ok ds_p →
  update_docs {[ "_id" := rid ]}
    {[ "$set" := VDict {[ "project_id" := pid; "user_id" := uid;
                          "metadata" := md; "source" := src ]};
       "$addToSet" := VDict {[ "meter" :=
                        VDict {[ "counter_name" := cn;
                                 "counter_type" := ct;
                                 "counter_unit" := cu ]} ]} ]} true
    (docs (coll "resource" st)) = Ok ds_r →
  let r := Connection.record_metering_data data st in
  r.1 = Ok ()
  ∧ docs (coll "user" r.2) = ds_u
  ∧ docs (coll "project" r.2) = ds_p
  ∧ docs (coll "resource" r.2) = ds_r
  ∧ docs (coll "meter" r.2)
    = docs (coll "meter" st) ++ [<["_id" := VStr (oid (next_oid st))]> data]
  ∧ next_oid r.2 = S (next_oid st).
Proof.
  intros (Hu & Hp & Hr & Hs) (Hmd & Hcn & Hct & Hcu) Hid Hds_u Hds_p Hds_r r.
  subst r. unfold Connection.record_metering_data, getitem.
  rewrite Hu, Hp, Hr, Hs, Hmd, Hcn, Hct, Hcu, Hid.
  rewrite !lift_bind.
  rewrite (bind_ok _ _ _ _ (update_ok _ _ _ _ _ _ Hds_u)).
  rewrite !lift_bind.
  assert (update_docs {[ "_id" := pid ]}
            {[ "$addToSet" := VDict {[ "source" := src ]} ]} true
            (docs (coll "project"
               (update "user" {[ "_id" := uid ]}
                  {[ "$addToSet" := VDict {[ "source" := src ]} ]} true st).2))
          = Ok ds_p) as Hds_p'
    by by rewrite docs_update_ne.
  rewrite (bind_ok _ _ _ _ (update_ok _ _ _ _ _ _ Hds_p')).
  rewrite !lift_bind.
  set (st2 := (update "project" _ _ _ _).2) in *.
  assert (docs (coll "resource" st2) = docs (coll "resource" st)) as Hst2
    by (unfold st2; by rewrite !docs_update_ne).
  rewrite <-Hst2 in Hds_r.
  rewrite (bind_ok _ _ _ _ (update_ok _ _ _ _ _ _ Hds_r)).
  set (st3 := (update "resource" _ _ _ _).2) in *.
  assert (next_oid st3 = next_oid st) as Hoid
    by (unfold st3, st2; by rewrite !next_oid_update).
  assert (docs (coll "user" st3) = ds_u) as H3u.
  { unfold st3, st2. rewrite !docs_update_ne by done.
    apply (docs_update_eq _ _ _ _ _ _ Hds_u). }
  assert (docs (coll "project" st3) = ds_p) as H3p.
  { unfold st3. rewrite docs_update_ne by done.
    apply (docs_update_eq _ _ _ _ _ _ Hds_p'). }
  assert (docs (coll "resource" st3) = ds_r) as H3r
    by apply (docs_update_eq _ _ _ _ _ _ Hds_r).
  assert (docs (coll "meter" st3) = docs (coll "meter" st)) as H3m
    by (unfold st3, st2; by rewrite !docs_update_ne).
  clearbody st3. clear Hst2 Hds_r Hds_p'. clearbody st2.
  unfold is_not_None. simpl default. cbv iota.
  unfold mbind, M_bind, new_objectid, mret, M_ret, insert.
  cbv beta iota zeta. simpl fst. simpl snd.
  rewrite !docs_set_docs. simpl. unfold coll in *. simpl.
  by rewrite H3u, H3p, H3r, H3m, Hoid.
Qed.

End record_metering_data.

(** C4: on a store kept by the write path, two calls of
    [record_metering_data] with the same sample, whose storage identifier is
    generated by each call, both succeed and leave exactly one user, one
    project and one resource document for the identities of the sample; the
    second call changes no document of these three collections, so no source
    set and no meter-descriptor set; and the meter collection has gained
    exactly two raw sample documents, one per call, which differ in their
    generated identifier only. *)
Theorem record_metering_data_twice (data : dict) (st : state) :
  sample_payload data → store_wf st →
  let r1 := Connection.record_metering_data data st in
  let r2 := Connection.record_metering_data data r1.2 in
  (r1.1 = Ok () ∧ r2.1 = Ok ())
  ∧ (count_id (field data "user_id") (docs (coll "user" r2.2)) = 1%nat
     ∧ count_id (field data "project_id") (docs (coll "project" r2.2)) = 1%nat
     ∧ count_id (field data "resource_id") (docs (coll "resource" r2.2))
       = 1%nat)
  ∧ (docs (coll "user" r2.2) = docs (coll "user" r1.2)
     ∧ docs (coll "project" r2.2) = docs (coll "project" r1.2)
     ∧ docs (coll "resource" r2.2) = docs (coll "resource" r1.2))
  ∧ docs (coll "meter" r2.2)
    = docs (coll "meter" st)
      ++ [<["_id" := VStr (oid (next_oid st))]> data;
          <["_id" := VStr (oid (S (next_oid st)))]> data]
  ∧ oid (next_oid st) ≠ oid (S (next_oid st)).
Proof.
  intros Hdata (Hwu & Hau & Hwp & Hap & Hwr & Har) r1 r2.
  destruct (sample_payload_fields data Hdata)
    as (uid & pid & rid & src & md & cn & ct & cu & Hids & Hrest
        & Huid & Hpid & Hrid).
  destruct Hdata as (_ & _ & Hnoid).
  destruct (upsert_by_id uid ∅ "source" src
              {[ "$addToSet" := VDict {[ "source" := src ]} ]}
              (docs (coll "user" st)))
    as (ds_u & Hu1 & Hu2 & Hcu); try done; try apply apply_update_add.
  destruct (upsert_by_id pid ∅ "source" src
              {[ "$addToSet" := VDict {[ "source" := src ]} ]}
              (docs (coll "project" st)))
    as (ds_p & Hp1 & Hp2 & Hcp); try done; try apply apply_update_add.
  destruct (upsert_by_id rid
              {[ "project_id" := pid; "user_id" := uid;
                 "metadata" := md; "source" := src ]}
              "meter"
              (VDict {[ "counter_name" := cn; "counter_type" := ct;
                        "counter_unit" := cu ]})
              {[ "$set" := VDict {[ "project_id" := pid; "user_id" := uid;
                                    "metadata" := md; "source" := src ]};
                 "$addToSet" := VDict {[ "meter" :=
                                  VDict {[ "counter_name" := cn;
                                           "counter_type" := ct;
                                           "counter_unit" := cu ]} ]} ]}
              (docs (coll "resource" st)))
    as (ds_r & Hr1 & Hr2 & Hcr); try done; try apply apply_update_set_add.
  destruct (record_metering_data_run data st uid pid rid src md cn ct cu
              ds_u ds_p ds_r Hids Hrest Hnoid Hu1 Hp1 Hr1)
    as (Hok1 & Hdu1 & Hdp1 & Hdr1 & Hdm1 & Hn1).
  fold r1 in Hok1, Hdu1, Hdp1, Hdr1, Hdm1, Hn1.
  rewrite <-Hdu1 in Hu2. rewrite <-Hdp1 in Hp2. rewrite <-Hdr1 in Hr2.
  destruct (record_metering_data_run data r1.2 uid pid rid src md cn ct cu
              _ _ _ Hids Hrest Hnoid Hu2 Hp2 Hr2)
    as (Hok2 & Hdu2 & Hdp2 & Hdr2 & Hdm2 & Hn2).
  fold r2 in Hok2, Hdu2, Hdp2, Hdr2, Hdm2, Hn2.
  destruct Hids as (Hu & Hp & Hr & _). unfold field.
  rewrite Hu, Hp, Hr, Hdu2, Hdp2, Hdr2, Hdu1, Hdp1, Hdr1, Hdm2, Hdm1, Hn1.
  simpl. rewrite <-app_assoc. repeat split; try done.
  intros H. apply (inj pretty) in H. lia.
Qed.

(** ** The connection pool *)

Section connection_pool.

Import ConnectionPool.

Implicit Types (st : ConnectionPool.state) (c w : nat) (url : string).

Lemma alive_hold c c' st : alive c (hold c' st) ↔ c = c' ∨ alive c st.
Proof.
  unfold alive, hold. simpl. destruct (decide (c' = c)) as [->|Hne].
  - rewrite lookup_insert_eq. naive_solver.
  - rewrite lookup_insert_ne by done. naive_solver.
Qed.

Lemma alive_release c c' st : alive c (release c' st) → alive c st.
Proof.
  unfold alive, release. simpl.
  destruct (holders st !! c') as [[|[|n]]|] eqn:Hc'.
  - by intros [_ Hc]%lookup_delete_is_Some.
  - by intros [_ Hc]%lookup_delete_is_Some.
  - destruct (decide (c' = c)) as [->|Hne].
    + by rewrite Hc'.
    + by rewrite lookup_insert_ne.
  - by intros [_ Hc]%lookup_delete_is_Some.
Qed.

Lemma connect_cached url w st :
  _pool st !! url = Some w → alive w st →
  connect url st = (w, hold w st).
Proof.
  intros Hw [n Hn]. unfold connect, weakref_call. by rewrite Hw, Hn.
Qed.

Lemma connect_new url st :
  (∀ w, _pool st !! url = Some w → ¬ alive w st) →
  connect url st
  = (next_client st,
     hold (next_client st)
       {| _pool := <[url := next_client st]> (_pool st);
          holders := holders st;
          next_client := S (next_client st) |}).
Proof.
  intros Hdead. unfold connect, weakref_call.
  destruct (_pool st !! url) as [w|] eqn:Hw; [|done].
  destruct (holders st !! w) eqn:Hn; [|done].
  destruct (Hdead w eq_refl). by eexists.
Qed.

Lemma connect_cases url st :
  (∃ w, _pool st !! url = Some w ∧ alive w st
        ∧ connect url st = (w, hold w st))
  ∨ ((∀ w, _pool st !! url = Some w → ¬ alive w st)
     ∧ connect url st
       = (next_client st,
          hold (next_client st)
            {| _pool := <[url := next_client st]> (_pool st);
               holders := holders st;
               next_client := S (next_client st) |})).
Proof.
  destruct (_pool st !! url) as [w|] eqn:Hw.
  - destruct (decide (alive w st)) as [Hal|Hdead].
    + left. exists w. by rewrite (connect_cached url w st).
    + assert (∀ w', _pool st !! url = Some w' → ¬ alive w' st) as Hall
        by (intros w'; rewrite Hw; by intros [= <-]).
      right. split; [by rewrite <-Hw|]. by apply connect_new.
  - right. split; [done|]. apply connect_new. by rewrite Hw.
Qed.

Lemma pool_wf_step (e : event) st : pool_wf st → pool_wf (step e st).
Proof.
  intros [Hpool Hlive]. destruct e as [url|c]; simpl.
  - destruct (connect_cases url st) as [(w & Hw & Hal & ->)|[Hdead ->]];
      simpl; split.
    + done.
    + intros c [->|Hc]%alive_hold; auto.
    + intros url' c. simpl. destruct (decide (url = url')) as [->|Hne].
      * rewrite lookup_insert_eq. intros [= <-]. lia.
      * rewrite lookup_insert_ne by done. intros Hc%Hpool. lia.
    + intros c [->|Hc]%alive_hold; simpl; [lia|].
      apply Hlive in Hc. simpl. lia.
  - split; [done|]. intros c' Hc'%alive_release. by apply Hlive.
Qed.

Lemma pool_wf_run (es : list event) st : pool_wf st → pool_wf (run es st).
Proof.
  revert st. induction es as [|e es IH]; intros st Hwf; [done|].
  simpl. apply IH. by apply pool_wf_step.
Qed.

Lemma next_client_step (e : event) st :
  (next_client st ≤ next_client (step e st))%nat.
Proof.
  destruct e as [url|c]; simpl; [|done].
  destruct (connect_cases url st) as [(w & _ & _ & ->)|[_ ->]]; simpl; lia.
Qed.

Lemma next_client_run (es : list event) st :
  (next_client st ≤ next_client (run es st))%nat.
Proof.
  revert st. induction es as [|e es IH]; intros st; simpl; [done|].
  etrans; [apply (next_client_step e)|apply IH].
Qed.

Lemma cached_step (e : event) url c st :
  pool_wf st → pool_caches url c st → pool_caches url c (step e st).
Proof.
  intros [Hpool Hlive] [Hlt Hc]. split.
  { pose proof (next_client_step e st). lia. }
  destruct e as [url'|c']; simpl.
  - destruct (connect_cases url' st) as [(w & Hw & Hal & ->)|[Hdead ->]];
      simpl.
    + intros [->|Hal']%alive_hold; auto.
    + intros [->|Hal']%alive_hold; [lia|]. simpl in Hal'.
      destruct (decide (url' = url)) as [->|Hne].
      * destruct (Hdead c); auto.
      * rewrite lookup_insert_ne by done. auto.
  - intros Hal%alive_release. auto.
Qed.

Lemma cached_run (es : list event) url c st :
  pool_wf st → pool_caches url c st → pool_caches url c (run es st).
Proof.
  revert st. induction es as [|e es IH]; intros st Hwf Hc; [done|].
  simpl. apply IH; [by apply pool_wf_step|by apply cached_step].
Qed.

Lemma dead_step (e : event) c st :
  pool_wf st → (c < next_client st)%nat → ¬ alive c st →
  ¬ alive c (step e st).
Proof.
  intros [Hpool Hlive] Hlt Hdead. destruct e as [url|c']; simpl.
  - destruct (connect_cases url st) as [(w & Hw & Hal & ->)|[_ ->]]; simpl.
    + intros [->|?]%alive_hold; auto.
    + intros [->|?]%alive_hold; [lia|auto].
  - intros ?%alive_release. auto.
Qed.

Lemma dead_run (es : list event) c st :
  pool_wf st → (c < next_client st)%nat → ¬ alive c st →
  ¬ alive c (run es st).
Proof.
  revert st. induction es as [|e es IH]; intros st Hwf Hlt Hdead; [done|].
  simpl. apply IH; [by apply pool_wf_step| |by apply dead_step].
  pose proof (next_client_step e st). lia.
Qed.

Lemma connect_cached_after url st :
  pool_wf st → pool_caches url (connect url st).1 (connect url st).2.
Proof.
  intros [Hpool Hlive].
  destruct (connect_cases url st) as [(w & Hw & Hal & ->)|[_ ->]]; simpl.
  - split; [by apply Hlive|done].
  - split; simpl; [lia|]. intros _. apply lookup_insert_eq.
Qed.

Lemma release_last c st :
  holders st !! c = Some 1%nat → ¬ alive c (release c st).
Proof.
  intros Hc. unfold alive, release. simpl. rewrite Hc.
  rewrite lookup_delete_eq. by intros [].
Qed.

End connection_pool.

(** C10: after [connect(A)] returned a client, and whatever the process
    did since, a further [connect(A)] returns that same client as long as it
    is alive, that is, held by somebody outside the pool. Once its last
    holder has released it, the client is dead although the pool still has
    its weak reference; the next [connect(A)] makes a new client, which is
    none of the clients made before, and no later [connect(A)] returns the
    released one again. *)
Theorem connect_reuses_held_connection (url : string)
    (st : ConnectionPool.state) (es es' : list ConnectionPool.event) :
  pool_wf st →
  let c1 := (ConnectionPool.connect url st).1 in
  let st2 := ConnectionPool.run es (ConnectionPool.connect url st).2 in
  ConnectionPool.alive c1 st2 →
  (ConnectionPool.connect url st2).1 = c1
  ∧ (ConnectionPool.holders st2 !! c1 = Some 1%nat →
     let st3 := ConnectionPool.release c1 st2 in
     ¬ ConnectionPool.alive c1 st3
     ∧ ConnectionPool._pool st3 !! url = Some c1
     ∧ (ConnectionPool.connect url st3).1 = ConnectionPool.next_client st3
     ∧ (c1 < ConnectionPool.next_client st3)%nat
     ∧ (∀ c, ConnectionPool.alive c st3 →
             (c < ConnectionPool.next_client st3)%nat)
     ∧ (ConnectionPool.connect url (ConnectionPool.run es' st3)).1 ≠ c1).
Proof.
  intros Hwf c1 st2 Hal.
  assert (pool_wf st2) as Hwf2.
  { apply pool_wf_run.
    apply (pool_wf_step (ConnectionPool.EConnect url) st Hwf). }
  assert (pool_caches url c1 st2) as [Hlt Hcache].
  { apply cached_run; [|by apply connect_cached_after].
    apply (pool_wf_step (ConnectionPool.EConnect url) st Hwf). }
  split.
  { by rewrite (connect_cached url c1 st2) by auto. }
  intros Hone st3.
  assert (¬ ConnectionPool.alive c1 st3) as Hdead by by apply release_last.
  assert (pool_wf st3) as Hwf3
    by apply (pool_wf_step (ConnectionPool.ERelease c1) st2 Hwf2).
  assert (ConnectionPool._pool st3 !! url = Some c1) as Hpool
    by by apply Hcache.
  split; [done|]. split; [done|]. split; [|split; [done|split]].
  - rewrite connect_new; [done|]. intros w. rewrite Hpool. by intros [= <-].
  - apply Hwf3.
  - assert (¬ ConnectionPool.alive c1 (ConnectionPool.run es' st3)) as Hdead'
      by by apply dead_run.
    pose proof (next_client_run es' st3) as Hmono.
    destruct (connect_cases url (ConnectionPool.run es' st3))
      as [(w & _ & Hw & ->)|[_ ->]]; simpl.
    + by intros ->.
    + change (ConnectionPool.next_client st3)
        with (ConnectionPool.next_client st2) in Hmono. lia.
Qed.

(** ** The statements at concrete inputs *)

(** The two newest of the three example samples. *)
Lemma get_samples_sorted_capped_witness :
  Forall (λ d, is_Some (d !! "_id")) (docs (coll "meter" example_meter_store))
  ∧ ∃ stored q newest_first,
      (Connection.get_samples (filter_of_meter (Some "cpu")) (Some 2)
         example_meter_store).1 = Ok (sample_of <$> stored)
      ∧ StronglySorted not_older (sample_of <$> stored)
      ∧ Z.of_nat (length stored) ≤ 2
      ∧ newest_first
        ≡ₚ filter (λ d, matches q d = true)
             (docs (coll "meter" example_meter_store))
      ∧ stored = take 2 newest_first.
Proof.
  assert (Forall (λ d, is_Some (d !! "_id"))
            (docs (coll "meter" example_meter_store))) as Hst.
  { apply (bool_decide_unpack _). by vm_compute. }
  split; [exact Hst|].
  destruct (get_samples_sorted_capped (filter_of_meter (Some "cpu")) (Some 2)
              example_meter_store Hst)
    as (_ & stored & q & Hok & _ & _ & _ & _ & _ & Hsorted & Hlen & _
        & newest_first & Hperm & _ & Hcap).
  exists stored, q, newest_first.
  split; [exact Hok|]. split; [exact Hsorted|].
  split; [apply Hlen; [reflexivity|lia]|]. split; [exact Hperm|exact Hcap].
Defined.

(** Listing the example alarms with no argument. *)
Lemma get_alarms_query_witness :
  Forall stored_alarm (docs (coll "alarm" example_alarm_store))
  ∧ ∃ alarms,
      (Connection.get_alarms (Pagination := unit) None None None Omitted None
         None example_alarm_store).1 = Ok alarms
      ∧ Forall (λ a, alarm_fields a !! "_id" = None) alarms.
Proof.
  assert (Forall stored_alarm (docs (coll "alarm" example_alarm_store)))
    as Hst.
  { repeat constructor.
    - by eexists.
    - eexists. split; [by vm_compute|].
      right. by exists [("host", VStr "h1")].
    - by eexists.
    - eexists. split; [by vm_compute|]. left. by eexists. }
  split; [exact Hst|].
  destruct (get_alarms_query (Pagination := unit) None None None Omitted None
              example_alarm_store Hst)
    as (_ & _ & _ & alarms & Hok & _ & Hids).
  exists alarms. split; [exact Hok|exact Hids].
Defined.

(** The schema manager on the empty store, twice. *)
Lemma upgrade_idempotent_witness :
  indexes (coll "resource" empty_state) = ∅
  ∧ fresh_ids empty_state
  ∧ (Connection.upgrade empty_state).1 = Ok ()
  ∧ Connection.upgrade (Connection.upgrade empty_state).2
    = (Ok (),
       called (OpIndexInformation "resource")
         (Connection.upgrade empty_state).2).
Proof.
  assert (fresh_ids empty_state) as Hfresh.
  { intros c d n Hd _. unfold coll in Hd. simpl in Hd.
    rewrite lookup_empty in Hd. simpl in Hd. by apply elem_of_nil in Hd. }
  split; [reflexivity|]. split; [exact Hfresh|].
  destruct (upgrade_idempotent empty_state eq_refl Hfresh)
    as (Hok & _ & _ & _ & Hagain).
  split; [exact Hok|exact Hagain].
Defined.

(** The sample of the end-to-end scenario, written twice to the empty
    store. *)
Lemma record_metering_data_twice_witness :
  sample_payload example_sample
  ∧ store_wf empty_state
  ∧ let r1 := Connection.record_metering_data example_sample empty_state in
    let r2 := Connection.record_metering_data example_sample r1.2 in
    count_id (VStr "u1") (docs (coll "user" r2.2)) = 1%nat
    ∧ count_id (VStr "p1") (docs (coll "project" r2.2)) = 1%nat
    ∧ count_id (VStr "r1") (docs (coll "resource" r2.2)) = 1%nat
    ∧ length (docs (coll "meter" r2.2)) = 2%nat.
Proof.
  assert (sample_payload example_sample) as Hdata.
  { split; [|split]; [apply (bool_decide_unpack _); by vm_compute..|].
    by vm_compute. }
  assert (store_wf empty_state) as Hwf.
  { unfold store_wf, unique_ids, coll. simpl. rewrite !lookup_empty. simpl.
    repeat split; constructor. }
  split; [exact Hdata|]. split; [exact Hwf|].
  destruct (record_metering_data_twice example_sample empty_state Hdata Hwf)
    as (_ & (Hu & Hp & Hr) & _ & Hm & _).
  intros r1 r2. split; [exact Hu|]. split; [exact Hp|]. split; [exact Hr|].
  subst r1 r2. by rewrite Hm.
Defined.

(** A new pool: connect, connect elsewhere, connect again; then release and
    connect once more. *)
Lemma connect_reuses_held_connection_witness :
  pool_wf ConnectionPool.init
  ∧ let c1 := (ConnectionPool.connect "mongodb://h/ceilometer"
                 ConnectionPool.init).1 in
    let st2 :=
      ConnectionPool.run [ConnectionPool.EConnect "mongodb://h/other"]
        (ConnectionPool.connect "mongodb://h/ceilometer"
           ConnectionPool.init).2 in
    ConnectionPool.alive c1 st2
    ∧ (ConnectionPool.connect "mongodb://h/ceilometer" st2).1 = c1
    ∧ (ConnectionPool.connect "mongodb://h/ceilometer"
         (ConnectionPool.release c1 st2)).1 ≠ c1.
Proof.
  assert (pool_wf ConnectionPool.init) as Hwf.
  { split.
    - intros url c. simpl. by rewrite lookup_empty.
    - intros c [n Hn]. simpl in Hn. by rewrite lookup_empty in Hn. }
  split; [exact Hwf|]. intros c1 st2.
  assert (ConnectionPool.alive c1 st2) as Hal by (by vm_compute; eexists).
  split; [exact Hal|].
  destruct (connect_reuses_held_connection "mongodb://h/ceilometer"
              ConnectionPool.init
              [ConnectionPool.EConnect "mongodb://h/other"] [] Hwf Hal)
    as [Hsame Hreleased].
  split; [exact Hsame|].
  destruct Hreleased as (_ & _ & _ & _ & _ & Hnew); [by vm_compute|].
  exact Hnew.
Defined.

(** * Further properties *)

(** ** The queries the driver builds *)

Section queries.

#[local] Instance prefix_inj (p : string) : Inj (=) (=) (String.append p).
Proof.
  intros a b H. induction p as [|c p IH]; simpl in H; [done|].
  injection H as H. auto.
Qed.

Lemma set_if_lookup (c : bool) (k : string) (v : value) (q : dict) :
  set_if c k v q !! k = if c then Some v else q !! k.
Proof. destruct c; simpl; [by rewrite lookup_insert_eq|done]. Qed.

Lemma truthy_given (o : option string) :
  (if truthy (of_str o) then Some (of_str o) else None) = VStr <$> given o.
Proof.
  destruct o as [s|]; simpl; [|done]. by destruct (String.eqb s "").
Qed.

Lemma not_None_of_str (o : option string) :
  (if is_not_None (of_str o) then Some (of_str o) else None) = VStr <$> o.
Proof. by destruct o. Qed.

Lemma prefix_keys_lookup (prefix k : string) (m : dict) :
  prefix_keys prefix m !! (prefix +:+ k) = m !! k.
Proof. unfold prefix_keys. apply (lookup_kmap (String.append prefix)). Qed.

Lemma prefix_keys_is_Some (prefix k : string) (m : dict) :
  is_Some (prefix_keys prefix m !! k) →
  ∃ k', k = prefix +:+ k' ∧ is_Some (m !! k').
Proof.
  intros [v Hv]. unfold prefix_keys in Hv.
  apply (lookup_kmap_Some (String.append prefix)) in Hv as (k' & -> & Hk').
  eauto.
Qed.

Lemma set_if_is_Some (c : bool) (k k' : string) (v : value) (q : dict) :
  is_Some (set_if c k v q !! k') → k' = k ∨ is_Some (q !! k').
Proof.
  destruct c; simpl; [|auto]. destruct (decide (k = k')) as [->|Hne]; [auto|].
  rewrite lookup_insert_ne by done. auto.
Qed.

(** The query of a sample filter, before the metadata constraints. *)
Lemma make_query_from_filter_inv (sample_filter : SampleFilter)
    (require_meter : bool) (q : dict) :
  make_query_from_filter sample_filter require_meter = Ok q →
  let ts_range :=
    make_timestamp_range (sf_start sample_filter) (sf_end sample_filter)
      (sf_start_timestamp_op sample_filter)
      (sf_end_timestamp_op sample_filter) in
  q = prefix_keys "resource_" (sf_metaquery sample_filter)
      ∪ set_if (truthy (of_str (sf_source sample_filter))) "source"
          (of_str (sf_source sample_filter))
          (set_if (truthy (of_str (sf_resource sample_filter))) "resource_id"
             (of_str (sf_resource sample_filter))
             (set_if (truthy (VDict ts_range)) "timestamp" (VDict ts_range)
                (set_if (truthy (of_str (sf_meter sample_filter)))
                   "counter_name" (of_str (sf_meter sample_filter))
                   (set_if (truthy (of_str (sf_project sample_filter)))
                      "project_id" (of_str (sf_project sample_filter))
                      (set_if (truthy (of_str (sf_user sample_filter)))
                         "user_id" (of_str (sf_user sample_filter)) ∅))))).
Proof.
  unfold make_query_from_filter.
  destruct (truthy (of_str (sf_meter sample_filter))); simpl.
  - by intros [= <-].
  - destruct require_meter; [done|]. by intros [= <-].
Qed.

End queries.

(** X1: in the query [make_query_from_filter] returns, user, project, meter
    and source are constrained to the value of the filter exactly when that
    value is a non-empty string, and the timestamp carries the range of
    [make_timestamp_range] exactly when the filter has a start or an end. *)
Theorem make_query_from_filter_constraints (sample_filter : SampleFilter)
    (require_meter : bool) (q : dict) :
  make_query_from_filter sample_filter require_meter = Ok q →
  q !! "user_id" = VStr <$> given (sf_user sample_filter)
  ∧ q !! "project_id" = VStr <$> given (sf_project sample_filter)
  ∧ q !! "counter_name" = VStr <$> given (sf_meter sample_filter)
  ∧ q !! "source" = VStr <$> given (sf_source sample_filter)
  ∧ q !! "timestamp"
    = match sf_start sample_filter, sf_end sample_filter with
      | None, None => None
      | _, _ =>
          Some (VDict (make_timestamp_range (sf_start sample_filter)
                         (sf_end sample_filter)
                         (sf_start_timestamp_op sample_filter)
                         (sf_end_timestamp_op sample_filter)))
      end.
Proof.
  intros Hq%make_query_from_filter_inv. cbv zeta in Hq. subst q.
  rewrite !prefix_keys_union_lookup by (by intros i).
  repeat split.
  - rewrite !set_if_lookup_ne by done. rewrite set_if_lookup, lookup_empty.
    apply truthy_given.
  - rewrite !set_if_lookup_ne by done. rewrite set_if_lookup.
    rewrite set_if_lookup_ne, lookup_empty by done. apply truthy_given.
  - rewrite !set_if_lookup_ne by done. rewrite set_if_lookup.
    rewrite !set_if_lookup_ne, lookup_empty by done. apply truthy_given.
  - rewrite set_if_lookup.
    rewrite !set_if_lookup_ne, lookup_empty by done. apply truthy_given.
  - rewrite !set_if_lookup_ne by done. rewrite set_if_lookup.
    rewrite !set_if_lookup_ne, lookup_empty by done.
    destruct (sf_start sample_filter) as [s|] eqn:Hs,
      (sf_end sample_filter) as [e|] eqn:He;
      try (rewrite make_timestamp_range_truthy by done; done).
    done.
Qed.

(** X2: every entry [k: v] of the metadata query of the filter is in the
    query as [resource_k: v]; the entry for ["id"], when there is one, takes
    the place of the constraint on the resource of the filter; and the query
    has no key besides the six of the filter and these. *)
Theorem make_query_from_filter_metaquery (sample_filter : SampleFilter)
    (require_meter : bool) (q : dict) :
  make_query_from_filter sample_filter require_meter = Ok q →
  (∀ k v, sf_metaquery sample_filter !! k = Some v →
          q !! ("resource_" +:+ k) = Some v)
  ∧ q !! "resource_id"
    = match sf_metaquery sample_filter !! "id" with
      | Some v => Some v
      | None => VStr <$> given (sf_resource sample_filter)
      end
  ∧ (∀ k, is_Some (q !! k) →
          k ∈ ["user_id"; "project_id"; "counter_name"; "timestamp";
               "resource_id"; "source"]
          ∨ ∃ k', k = "resource_" +:+ k'
                  ∧ is_Some (sf_metaquery sample_filter !! k')).
Proof.
  intros Hq%make_query_from_filter_inv. cbv zeta in Hq. subst q.
  split; [|split].
  - intros k v Hk. apply lookup_union_Some_l. by rewrite prefix_keys_lookup.
  - rewrite lookup_union.
    change "resource_id" with ("resource_" +:+ "id") at 1.
    rewrite prefix_keys_lookup.
    rewrite set_if_lookup_ne by done. rewrite set_if_lookup.
    rewrite !set_if_lookup_ne, lookup_empty by done.
    rewrite truthy_given.
    by destruct (sf_metaquery sample_filter !! "id") as [v|],
      (VStr <$> given (sf_resource sample_filter)).
  - intros k [Hk|Hk]%lookup_union_is_Some.
    + right. by apply prefix_keys_is_Some.
    + left.
      repeat (apply set_if_is_Some in Hk as [->|Hk]; [set_solver|]).
      rewrite lookup_empty in Hk. by destruct Hk.
Qed.

(** ** The pool, from the start of the process *)

Section pool_from_init.

Import ConnectionPool.

Implicit Types (st : ConnectionPool.state) (c w : nat) (url : string).

Lemma pool_wf_init : pool_wf init.
Proof.
  split.
  - intros url c. unfold init. simpl. by rewrite lookup_empty.
  - intros c [n Hn]. unfold init in Hn. simpl in Hn.
    by rewrite lookup_empty in Hn.
Qed.

Lemma pool_one_address_step (e : event) st :
  pool_wf st → pool_one_address st → pool_one_address (step e st).
Proof.
  intros [Hpool _] Hone. destruct e as [url|c]; simpl; [|done].
  destruct (connect_cases url st) as [(w & _ & _ & ->)|[_ ->]]; simpl;
    [done|].
  intros url1 url2 c. simpl.
  destruct (decide (url1 = url2)) as [|Hne]; [done|].
  destruct (decide (url = url1)) as [Heq1|Hne1],
    (decide (url = url2)) as [Heq2|Hne2].
  - congruence.
  - subst url1. rewrite lookup_insert_eq, lookup_insert_ne by done.
    intros [= <-] Hc%Hpool. lia.
  - subst url2. rewrite lookup_insert_eq, lookup_insert_ne by done.
    intros Hc%Hpool [= <-]. lia.
  - rewrite !lookup_insert_ne by done. apply Hone.
Qed.

Lemma pool_reachable (es : list event) :
  pool_wf (run es init) ∧ pool_one_address (run es init).
Proof.
  assert (∀ st, pool_wf st → pool_one_address st →
                pool_wf (run es st) ∧ pool_one_address (run es st)) as H.
  { induction es as [|e es IH]; intros st Hwf Hone; [done|].
    simpl. apply IH; [by apply pool_wf_step|by apply pool_one_address_step]. }
  apply H; [apply pool_wf_init|].
  intros url1 url2 c. unfold init. simpl. by rewrite lookup_empty.
Qed.

Lemma connect_remembered url st :
  _pool (connect url st).2 !! url = Some (connect url st).1.
Proof.
  destruct (connect_cases url st) as [(w & Hw & _ & ->)|[_ ->]]; simpl;
    [done|apply lookup_insert_eq].
Qed.

End pool_from_init.

(** X3: whatever the process did with the pool since it was made, the
    client [connect] returns is held and remembered under the address, and
    two calls of [connect] for two different addresses never return the same
    client. *)
Theorem connect_one_client_per_address (es : list ConnectionPool.event)
    (url1 url2 : string) :
  url1 ≠ url2 →
  let st := ConnectionPool.run es ConnectionPool.init in
  let r1 := ConnectionPool.connect url1 st in
  let r2 := ConnectionPool.connect url2 r1.2 in
  ConnectionPool.alive r1.1 r1.2
  ∧ ConnectionPool._pool r1.2 !! url1 = Some r1.1
  ∧ r1.1 ≠ r2.1.
Proof.
  intros Hne st r1 r2.
  destruct (pool_reachable (es ++ [ConnectionPool.EConnect url1]))
    as [Hwf Hone].
  unfold ConnectionPool.run in Hwf, Hone. rewrite foldl_app in Hwf, Hone.
  simpl in Hwf, Hone. fold (ConnectionPool.run es ConnectionPool.init) in *.
  fold st in Hwf, Hone. fold r1 in Hwf, Hone.
  assert (ConnectionPool._pool r1.2 !! url1 = Some r1.1) as Hrem
    by apply connect_remembered.
  split; [|split; [done|]].
  - unfold r1.
    destruct (connect_cases url1 st) as [(w & _ & _ & ->)|[_ ->]]; simpl;
      apply alive_hold; by left.
  - unfold r2.
    destruct (connect_cases url2 r1.2) as [(w & Hw & _ & ->)|[_ ->]]; simpl.
    + intros Heq. rewrite <-Heq in Hw. by destruct (Hone _ _ _ Hrem Hw).
    + destruct Hwf as [Hpool _]. apply Hpool in Hrem. lia.
Qed.

(** ** Setting up a connection *)

Section connection_setup.

Lemma list_lt_2_2 (major : Z) (rest : list Z) :
  Driver.list_lt (major :: rest) [2; 2] = true
  ↔ major < 2 ∨ (major = 2 ∧ ∀ minor, head rest = Some minor → minor < 2).
Proof.
  simpl. destruct (Z.ltb_spec major 2) as [Hlt|Hge].
  { split; [auto|done]. }
  destruct (Z.ltb_spec 2 major) as [Hgt|Hle].
  { split; [done|]. intros [?|[? _]]; lia. }
  assert (major = 2) as -> by lia.
  destruct rest as [|minor rest]; simpl.
  { split; [|done]. intros _. right. split; [done|]. by intros minor. }
  destruct (Z.ltb_spec minor 2) as [Hlt'|Hge'].
  { split; [|done]. intros _. right. split; [done|].
    by intros ? [= <-]. }
  split.
  - intros H. destruct (2 <? minor); [done|]. by destruct rest.
  - intros [?|[_ Hminor]]; [lia|]. specialize (Hminor minor eq_refl). lia.
Qed.

Lemma strip_prefix_cons (a b : Ascii.ascii) (p s : string) :
  Driver.strip_prefix (String a p) (String b s)
  = if Ascii.eqb a b then Driver.strip_prefix p s else None.
Proof. done. Qed.

Lemma strip_prefix_colon_free (a b : string) :
  colon_free a = true → a ≠ "" →
  Driver.strip_prefix "db2:" (a +:+ "db2:" +:+ b) = None.
Proof.
  intros Ha Hne.
  destruct a as [|c1 a]; [done|].
  change (String c1 a +:+ "db2:" +:+ b) with (String c1 (a +:+ "db2:" +:+ b)).
  rewrite strip_prefix_cons. destruct (Ascii.eqb "d"%char c1); [|done].
  destruct a as [|c2 a]; [done|].
  change (String c2 a +:+ "db2:" +:+ b) with (String c2 (a +:+ "db2:" +:+ b)).
  rewrite strip_prefix_cons. destruct (Ascii.eqb "b"%char c2); [|done].
  destruct a as [|c3 a]; [done|].
  change (String c3 a +:+ "db2:" +:+ b) with (String c3 (a +:+ "db2:" +:+ b)).
  rewrite strip_prefix_cons. destruct (Ascii.eqb "2"%char c3); [|done].
  destruct a as [|c4 a]; [done|].
  change (String c4 a +:+ "db2:" +:+ b) with (String c4 (a +:+ "db2:" +:+ b)).
  rewrite strip_prefix_cons.
  destruct (Ascii.eqb_spec ":"%char c4) as [<-|]; [|done].
  simpl in Ha. by rewrite !andb_false_r in Ha.
Qed.

Lemma strip_prefix_append (p s : string) :
  Driver.strip_prefix p (p +:+ s) = Some s.
Proof.
  induction p as [|c p IH]; simpl; [done|]. by rewrite Ascii.eqb_refl.
Qed.

Lemma replace_first_eq (old new s : string) :
  Driver.replace_first old new s
  = match Driver.strip_prefix old s with
    | Some rest => new +:+ rest
    | None =>
        match s with
        | EmptyString => EmptyString
        | String c s' => String c (Driver.replace_first old new s')
        end
    end.
Proof. by destruct s. Qed.

Lemma replace_first_db2 (a b : string) :
  colon_free a = true →
  Driver.replace_first "db2:" "mongodb:" (a +:+ "db2:" +:+ b)
  = a +:+ "mongodb:" +:+ b.
Proof.
  induction a as [|c a IH]; intros Ha.
  - change ("" +:+ "db2:" +:+ b) with ("db2:" +:+ b).
    by rewrite replace_first_eq, strip_prefix_append.
  - rewrite replace_first_eq, strip_prefix_colon_free by done.
    simpl in Ha. apply andb_prop in Ha as [_ Ha].
    change (String c a +:+ "db2:" +:+ b) with (String c (a +:+ "db2:" +:+ b)).
    cbv iota. fold (String.append a ("db2:" +:+ b)). by rewrite IH.
Qed.

End connection_setup.

(** X4: the constructor of a connection refuses the server, with
    [StorageBadVersion], exactly when its [versionArray] is there, is not
    empty, and has a major number under 2, or the major number 2 and a minor
    number that is missing or under 2; a server without [versionArray], or
    with an empty one, is accepted. A refused constructor has sent nothing
    to the database. An accepted one then looks for the database the
    address names: when this raises, or the address names none, which is a
    [TypeError], the constructor ends in that exception with nothing sent
    to the database; when the database is there, the constructor ends with
    [upgrade] on it. *)
Theorem init_refuses_old_server (url : string)
    (version_array : option (list Z)) (database : result (option string))
    (pool : ConnectionPool.state) (st : state) :
  let r := Driver.__init__ url version_array database pool st in
  let refused :=
    ∃ major rest,
      version_array = Some (major :: rest)
      ∧ (major < 2
         ∨ (major = 2 ∧ ∀ minor, head rest = Some minor → minor < 2)) in
  (r.1.1 = StorageBadVersion "Need at least MongoDB 2.2" ↔ refused)
  ∧ (refused → r.2 = st)
  ∧ (¬ refused →
     match database with
     | Err e => r.1.1 = Raised e ∧ r.2 = st
     | Ok None => r.1.1 = Raised TypeError ∧ r.2 = st
     | Ok (Some _) =>
         ∃ client, r.1.1 = Connected client (Connection.upgrade st).1
                   ∧ r.2 = (Connection.upgrade st).2
     end).
Proof.
  intros r refused. subst r. unfold Driver.__init__.
  destruct (ConnectionPool.connect _ pool) as [conn pool'].
  assert (∀ c : constructed * ConnectionPool.state * state,
            ¬ refused →
            (∀ msg, c.1.1 ≠ StorageBadVersion msg) →
            match database with
            | Err e => c.1.1 = Raised e ∧ c.2 = st
            | Ok None => c.1.1 = Raised TypeError ∧ c.2 = st
            | Ok (Some _) =>
                ∃ client, c.1.1 = Connected client (Connection.upgrade st).1
                          ∧ c.2 = (Connection.upgrade st).2
            end →
            (c.1.1 = StorageBadVersion "Need at least MongoDB 2.2" ↔ refused)
            ∧ (refused → c.2 = st)
            ∧ (¬ refused →
               match database with
               | Err e => c.1.1 = Raised e ∧ c.2 = st
               | Ok None => c.1.1 = Raised TypeError ∧ c.2 = st
               | Ok (Some _) =>
                   ∃ client,
                     c.1.1 = Connected client (Connection.upgrade st).1
                     ∧ c.2 = (Connection.upgrade st).2
               end)) as Haccepted.
  { intros c Hnot Hc Hdb. split; [split; [by intros ?%Hc|by intros ?]|].
    split; [by intros ?|]. by intros _. }
  assert (¬ refused →
          let c := match database with
                   | Err e => (Raised e, pool', st)
                   | Ok None => (Raised TypeError, pool', st)
                   | Ok (Some _) =>
                       let '(u, st') := Connection.upgrade st in
                       (Connected conn u, pool', st')
                   end in
          (c.1.1 = StorageBadVersion "Need at least MongoDB 2.2" ↔ refused)
          ∧ (refused → c.2 = st)
          ∧ (¬ refused →
             match database with
             | Err e => c.1.1 = Raised e ∧ c.2 = st
             | Ok None => c.1.1 = Raised TypeError ∧ c.2 = st
             | Ok (Some _) =>
                 ∃ client,
                   c.1.1 = Connected client (Connection.upgrade st).1
                   ∧ c.2 = (Connection.upgrade st).2
             end)) as Hrun.
  { intros Hnot c. apply Haccepted; [done| |]; subst c.
    - destruct database as [[name|]|e]; [|done..].
      by destruct (Connection.upgrade st).
    - destruct database as [[name|]|e]; [|done..].
      destruct (Connection.upgrade st) as [u st']. simpl. eauto. }
  destruct version_array as [[|major rest]|].
  - apply Hrun. by intros (? & ? & ? & _).
  - pose proof (list_lt_2_2 major rest) as Hlt.
    destruct (Driver.list_lt (major :: rest) [2; 2]).
    + assert refused as Href.
      { exists major, rest. split; [done|]. by apply Hlt. }
      simpl. split; [done|]. split; [done|]. by intros [].
    + apply Hrun.
      intros (major' & rest' & [= <- <-] & H). by apply Hlt in H.
  - apply Hrun. by intros (? & ? & ? & _).
Qed.

(** X5: the constructor asks the pool for the address of the configuration
    with its first [db2:] turned into [mongodb:]. For an address
    [a ++ "db2:" ++ b] where [a] has no colon, and whatever [b] holds, the
    pool remembers under [a ++ "mongodb:" ++ b] the client it gives for this
    address, and a connection that is set up has this client and holds
    it. *)
Theorem init_connects_mongodb_address (a b : string)
    (version_array : option (list Z)) (database : result (option string))
    (pool : ConnectionPool.state) (st : state) :
  colon_free a = true →
  let r :=
    Driver.__init__ (a +:+ "db2:" +:+ b) version_array database pool st in
  let address := a +:+ "mongodb:" +:+ b in
  ConnectionPool._pool r.1.2 !! address
  = Some (ConnectionPool.connect address pool).1
  ∧ ∀ client u,
      r.1.1 = Connected client u →
      client = (ConnectionPool.connect address pool).1
      ∧ ConnectionPool.alive client r.1.2.
Proof.
  intros Ha r address. subst r. unfold Driver.__init__.
  rewrite replace_first_db2 by done. fold address.
  pose proof (connect_remembered address pool) as Hrem.
  assert (ConnectionPool.alive (ConnectionPool.connect address pool).1
            (ConnectionPool.connect address pool).2) as Hal.
  { destruct (connect_cases address pool) as [(w & _ & _ & ->)|[_ ->]];
      simpl; apply alive_hold; by left. }
  destruct (ConnectionPool.connect address pool) as [conn pool'].
  simpl in Hrem, Hal.
  destruct (match version_array with
            | Some (x :: l) => Driver.list_lt (x :: l) [2; 2]
            | _ => false
            end).
  - simpl. split; [done|]. by intros client u.
  - destruct database as [[name|]|e].
    + destruct (Connection.upgrade st) as [u st']. simpl.
      split; [done|]. by intros client u' [= <- _].
    + simpl. split; [done|]. by intros client u.
    + simpl. split; [done|]. by intros client u.
Qed.

(** ** The alarm store *)

Section alarm_store.

Lemma matches_singleton (k : string) (v : value) (d : dict) :
  dot_free k = true → matches {[ k := v ]} d = field_matches (d !! k) v.
Proof.
  intros Hk. unfold matches. rewrite map_to_list_singleton.
  cbn [forallb fst snd]. rewrite path_matches_plain by done.
  by rewrite andb_true_r.
Qed.

Lemma matches_lookup (q d : dict) (k : string) (v : value) :
  dot_free k = true →
  matches q d = true → q !! k = Some v → field_matches (d !! k) v = true.
Proof.
  intros Hdot. unfold matches. rewrite forallb_forall. intros Hall Hk.
  rewrite <-(path_matches_plain d k v Hdot).
  apply (Hall (k, v)), list_elem_of_In. by apply elem_of_map_to_list.
Qed.

Lemma field_matches_str (fv : option value) (s : string) :
  field_matches fv (VStr s) = eq_matches fv (VStr s).
Proof. done. Qed.

Lemma eq_matches_other (s s' : string) :
  s ≠ s' → eq_matches (Some (VStr s')) (VStr s) = false.
Proof.
  intros Hne. simpl. rewrite orb_false_r.
  apply bool_decide_eq_false_2. by intros [= ->].
Qed.

Lemma apply_update_set (data d : dict) :
  apply_update {[ "$set" := VDict data ]} d = Ok (data ∪ d).
Proof.
  unfold apply_update. rewrite lookup_singleton_eq.
  by rewrite (lookup_singleton_ne "$set" "$addToSet").
Qed.

(** The first document [p] accepts, and the documents around it. *)
Lemma modify_first_split (p : dict → bool) (f : dict → result dict)
    (l : list dict) (r : result (list dict)) :
  modify_first p f l = Some r →
  ∃ l1 d l2,
    l = l1 ++ d :: l2 ∧ Forall (λ d, p d = false) l1 ∧ p d = true
    ∧ r = result_map (λ d', l1 ++ d' :: l2) (f d).
Proof.
  revert r. induction l as [|d l IH]; intros r; simpl; [done|].
  destruct (p d) eqn:Hd.
  - intros [= <-]. by exists [], d, l.
  - destruct (modify_first p f l) as [r'|]; simpl; [|done].
    intros [= <-].
    destruct (IH r' eq_refl) as (l1 & d' & l2 & -> & H1 & Hd' & ->).
    exists (d :: l1), d', l2. repeat split; [by constructor|done|].
    by destruct (f d').
Qed.

Lemma modify_first_unmatched (p : dict → bool) (f : dict → result dict)
    (l : list dict) :
  modify_first p f l = None → Forall (λ d, p d = false) l.
Proof.
  induction l as [|d l IH]; simpl; [by constructor|].
  destruct (p d) eqn:Hd; [done|].
  destruct (modify_first p f l); simpl; [done|]. intros _. by constructor; auto.
Qed.

Lemma filter_first (p : dict → bool) (l1 l2 : list dict) (d : dict) :
  Forall (λ d, p d = false) l1 → p d = true →
  head (filter (λ d, p d = true) (l1 ++ d :: l2)) = Some d.
Proof.
  intros H1 Hd. rewrite filter_app, filter_none.
  - by rewrite filter_cons_True.
  - eapply Forall_impl; [exact H1|]. simpl. by intros x ->.
Qed.

Lemma filter_unmatched (p : dict → bool) (l : list dict) :
  Forall (λ d, p d = false) l → filter (λ d, p d = true) l = [].
Proof.
  intros H. apply filter_none.
  eapply Forall_impl; [exact H|]. simpl. by intros x ->.
Qed.

Lemma find_first (spec : dict) (ds : list dict) :
  find_result spec None (-1) ds
  = option_list (head (filter (λ d, matches spec d = true) ds)).
Proof.
  unfold find_result, take_limit, sort_docs. simpl.
  by destruct (filter _ ds).
Qed.

Lemma find_bind {B} (c : string) (spec : dict)
    (sort : option (string * direction)) (limit : Z) (f : list dict → M B)
    (st : state) :
  (find c spec sort limit ≫= f) st
  = f (find_result spec sort limit (docs (coll c st)))
      (called (OpFind c spec sort limit) st).
Proof. done. Qed.

Lemma encode_decode (m : dict) :
  ∃ mm, Connection._encode_matching_metadata (VDict m) = Ok mm
        ∧ wire_shape mm
        ∧ Connection._decode_matching_metadata mm = Ok (VDict m).
Proof.
  unfold Connection._encode_matching_metadata.
  destruct (truthy (VDict m)).
  - exists (VList (Connection.pair_doc <$> map_to_list m)).
    split; [done|]. split; [right; by eexists|].
    by rewrite decode_pairs, fold_pairs_map_to_list.
  - exists (VDict m). split; [done|]. split; [left; by eexists|done].
Qed.

End alarm_store.

(** X6: after [delete_alarm] of an alarm identifier, [get_alarms] for this
    identifier yields nothing, whatever the other arguments; the stored
    alarms of any other identifier, and all the other collections, are as
    before. *)
Theorem delete_alarm_forgets {Pagination : Type} (alarm_id : string)
    (name user project : option string) (enabled : kwarg (option bool))
    (st : state) :
  let r := Driver.delete_alarm alarm_id st in
  r.1 = Ok ()
  ∧ (Connection.get_alarms (Pagination := Pagination) name user project
       enabled (Some alarm_id) None r.2).1 = Ok []
  ∧ (∀ d other,
       d ∈ docs (coll "alarm" st) → d !! "alarm_id" = Some (VStr other) →
       other ≠ alarm_id → d ∈ docs (coll "alarm" r.2))
  ∧ (∀ c, c ≠ "alarm" → docs (coll c r.2) = docs (coll c st)).
Proof.
  intros r. subst r. unfold Driver.delete_alarm.
  split; [done|]. split; [|split].
  - unfold Connection.get_alarms, object_truthy. cbv beta iota zeta.
    set (q := Connection.alarm_query _ _ _ _ _).
    assert (q !! "alarm_id" = Some (VStr alarm_id)) as Hq
      by apply lookup_insert_eq.
    clearbody q. rewrite find_bind, docs_remove_eq.
    assert (find_result q None 0
              (filter (λ d, matches {[ "alarm_id" := VStr alarm_id ]} d = false)
                 (docs (coll "alarm" st))) = []) as ->; [|done].
    unfold find_result, take_limit, sort_docs. simpl.
    apply filter_none, Forall_forall.
    intros d [Hd _]%list_elem_of_filter Hm.
    rewrite matches_singleton in Hd by reflexivity.
    by rewrite (matches_lookup q d "alarm_id" _ eq_refl Hm Hq) in Hd.
  - intros d other Hd Hother Hne. rewrite docs_remove_eq.
    apply list_elem_of_filter. split; [|done].
    rewrite matches_singleton by reflexivity.
    rewrite Hother, field_matches_str.
    by apply eq_matches_other.
  - intros c Hc. by apply docs_remove_ne.
Qed.

Section update_alarm.

Lemma upsert_base_str (k s : string) :
  upsert_base {[ k := VStr s ]} = {[ k := VStr s ]}.
Proof.
  unfold upsert_base. rewrite map_filter_singleton. by rewrite decide_True.
Qed.

(** What an upsert that only sets fields does to the collection. *)
Lemma upsert_set_run (c : string) (spec data : dict) (st : state) :
  upsert_base spec = spec →
  let r := upsert c spec {[ "$set" := VDict data ]} st in
  r.1 = Ok ()
  ∧ (∀ c', c' ≠ c → docs (coll c' r.2) = docs (coll c' st))
  ∧ ((∃ l1 d l2,
        docs (coll c st) = l1 ++ d :: l2
        ∧ Forall (λ d, matches spec d = false) l1 ∧ matches spec d = true
        ∧ docs (coll c r.2) = l1 ++ (data ∪ d) :: l2)
     ∨ (Forall (λ d, matches spec d = false) (docs (coll c st))
        ∧ ∃ d', docs (coll c r.2) = docs (coll c st) ++ [d']
                ∧ is_Some (d' !! "_id")
                ∧ delete "_id" d' = delete "_id" (data ∪ spec))).
Proof.
  intros Hbase r. subst r. unfold upsert. cbv zeta.
  rewrite coll_called, Hbase.
  destruct (modify_first _ _ (docs (coll c st))) as [r|] eqn:Hm.
  - apply modify_first_split in Hm as (l1 & d & l2 & Hl & H1 & Hd & ->).
    rewrite apply_update_set. simpl. split; [done|]. split.
    + intros c' Hc'. by rewrite docs_set_docs, decide_False.
    + left. exists l1, d, l2. by rewrite docs_set_docs, decide_True.
  - apply modify_first_unmatched in Hm. rewrite apply_update_set.
    destruct ((data ∪ spec) !! "_id") as [i|] eqn:Hi; simpl.
    + split; [done|]. split.
      * intros c' Hc'. by rewrite docs_set_docs, decide_False.
      * right. split; [done|]. exists (data ∪ spec).
        by rewrite docs_set_docs, decide_True, Hi.
    + split; [done|]. split.
      * intros c' Hc'. by rewrite docs_set_docs, decide_False.
      * right. split; [done|].
        exists (<["_id" := VStr (oid (next_oid st))]> (data ∪ spec)).
        rewrite docs_set_docs, decide_True by done.
        rewrite lookup_insert_eq, delete_insert_eq. done.
Qed.

(** [update_alarm], given the document its query finds after the
    upsert. *)
Lemma update_alarm_found (alarm : Alarm) (alarm_id : string) (m : dict)
    (mm : value) (x : dict) (st : state) :
  alarm_fields alarm !! "alarm_id" = Some (VStr alarm_id) →
  alarm_fields alarm !! "matching_metadata" = Some (VDict m) →
  Connection._encode_matching_metadata (VDict m) = Ok mm →
  Connection._decode_matching_metadata mm = Ok (VDict m) →
  let st' :=
    (upsert "alarm" {[ "alarm_id" := VStr alarm_id ]}
       {[ "$set" :=
            VDict (<["matching_metadata" := mm]> (alarm_fields alarm)) ]}
       st).2 in
  head (filter (λ d, matches {[ "alarm_id" := VStr alarm_id ]} d = true)
          (docs (coll "alarm" st'))) = Some x →
  is_Some (x !! "_id") → x !! "matching_metadata" = Some mm →
  Driver.update_alarm alarm st
  = (Ok (Item (mkAlarm (<["matching_metadata" := VDict m]>
                          (delete "_id" x)))),
     called (OpFind "alarm" {[ "alarm_id" := VStr alarm_id ]} None (-1)) st').
Proof.
  intros Hid Hmm Henc Hdec st' Hhead [i Hi] Hx.
  pose proof (upsert_set_run "alarm" {[ "alarm_id" := VStr alarm_id ]}
                (<["matching_metadata" := mm]> (alarm_fields alarm)) st
                (upsert_base_str "alarm_id" alarm_id)) as (Hok & _).
  unfold Driver.update_alarm, getitem, Driver.getattr.
  rewrite Hmm, Hid, lift_bind, Henc, !lift_bind.
  rewrite (bind_ok _ _ _ _ Hok), lift_bind, find_bind, find_first.
  fold st'. rewrite Hhead. change (option_list (Some x)) with [x].
  cbv iota. rewrite Hi.
  rewrite lookup_delete_ne, Hx by done.
  by rewrite lift_bind, Hdec, lift_bind.
Qed.

(** What [update_alarm] finds after its upsert, and what it leaves. *)
Lemma update_alarm_effect (alarm : Alarm) (alarm_id : string) (m : dict)
    (st : state) :
  alarm_fields alarm !! "alarm_id" = Some (VStr alarm_id) →
  alarm_fields alarm !! "matching_metadata" = Some (VDict m) →
  Forall stored_alarm (docs (coll "alarm" st)) →
  let r := Driver.update_alarm alarm st in
  let stored :=
    head (filter (λ d, matches {[ "alarm_id" := VStr alarm_id ]} d = true)
            (docs (coll "alarm" st))) in
  ∃ x mm,
    (head (filter (λ d, matches {[ "alarm_id" := VStr alarm_id ]} d = true)
             (docs (coll "alarm" r.2))) = Some x
     ∧ x !! "matching_metadata" = Some mm
     ∧ Connection._decode_matching_metadata mm = Ok (VDict m)
     ∧ <["matching_metadata" := VDict m]> (delete "_id" x)
       = delete "_id" (alarm_fields alarm ∪ default ∅ stored))
    ∧ r.1 = Ok (Item (mkAlarm (delete "_id"
                                 (alarm_fields alarm ∪ default ∅ stored))))
    ∧ length (docs (coll "alarm" r.2))
      = (length (docs (coll "alarm" st))
         + match stored with Some _ => 0 | None => 1 end)%nat
    ∧ Forall stored_alarm (docs (coll "alarm" r.2))
    ∧ (∀ c, c ≠ "alarm" → docs (coll c r.2) = docs (coll c st)).
Proof.
  intros Hid Hmm Hst r stored.
  destruct (encode_decode m) as (mm & Henc & Hshape & Hdec).
  unfold r. clear r.
  pose proof (update_alarm_found alarm alarm_id m mm) as Hfound.
  set (data := <["matching_metadata" := mm]> (alarm_fields alarm)) in *.
  set (spec := ({[ "alarm_id" := VStr alarm_id ]} : dict)) in *.
  pose proof (upsert_set_run "alarm" spec data st
                (upsert_base_str "alarm_id" alarm_id))
    as (_ & Hother & Hdocs).
  specialize (Hfound) with (st := st).
  set (st' := (upsert "alarm" spec _ st).2) in *. clearbody st'.
  assert (data !! "alarm_id" = Some (VStr alarm_id)) as Hdid
    by (unfold data; by rewrite lookup_insert_ne).
  assert (data !! "matching_metadata" = Some mm) as Hdmm
    by apply lookup_insert_eq.
  assert (∀ d, <["matching_metadata" := VDict m]> (delete "_id" (data ∪ d))
               = delete "_id" (alarm_fields alarm ∪ d)) as Hback.
  { intros d. rewrite <-delete_insert_ne by done. f_equal.
    unfold data. rewrite <-insert_union_l, insert_insert_eq.
    rewrite insert_union_l. f_equal. by apply insert_id. }
  assert (∀ d, matches spec (data ∪ d) = true) as Hmatch.
  { intros d. unfold spec. rewrite matches_singleton by reflexivity.
    rewrite (lookup_union_Some_l _ _ _ _ Hdid), field_matches_str.
    unfold eq_matches. by rewrite bool_decide_eq_true_2. }
  assert (∀ d, stored_alarm d → stored_alarm (data ∪ d)) as Hkeep.
  { intros d [[i Hi] _]. split.
    - apply lookup_union_is_Some. right. by eexists.
    - exists mm. split; [|done]. by apply lookup_union_Some_l. }
  destruct Hdocs as [(l1 & d & l2 & Hl & H1 & Hd & Hl')
                    |(Hnone & d' & Hl' & Hd'id & Hd')].
  - assert (stored = Some d) as ->
      by (unfold stored; rewrite Hl; by apply (filter_first (matches spec))).
    assert (stored_alarm d) as Hsd.
    { eapply Forall_forall; [exact Hst|]. rewrite Hl.
      apply elem_of_app. right. apply elem_of_cons. by left. }
    exists (data ∪ d), mm.
    rewrite (Hfound (data ∪ d) Hid Hmm Henc Hdec).
    + rewrite Hback. simpl fst. simpl snd.
      rewrite coll_called, Hl'. split; [|split; [done|split; [|split]]].
      * split; [by apply (filter_first (matches spec))|].
        split; [by apply lookup_union_Some_l|]. by split.
      * rewrite Hl, !length_app. simpl. lia.
      * rewrite Hl in Hst. apply Forall_app in Hst as [Hst1 Hst2].
        apply Forall_cons in Hst2 as [_ Hst2].
        apply Forall_app. split; [done|]. apply Forall_cons. auto.
      * intros c Hc. rewrite coll_called. by apply Hother.
    + rewrite Hl'. by apply (filter_first (matches spec)).
    + apply (Hkeep d Hsd).
    + by apply lookup_union_Some_l.
  - assert (stored = None) as ->.
    { unfold stored. by rewrite (filter_unmatched (matches spec)). }
    assert (data ∪ spec = data ∪ ∅) as Hspec.
    { rewrite (right_id_L ∅ (∪)). apply map_eq. intros k.
      rewrite lookup_union. unfold spec.
      destruct (decide (k = "alarm_id")) as [->|Hk].
      - by rewrite Hdid, lookup_singleton_eq.
      - rewrite lookup_singleton_ne by done. by destruct (data !! k). }
    rewrite Hspec in Hd'.
    assert (∀ k, k ≠ "_id" → d' !! k = data !! k) as Hd'k.
    { intros k Hk. rewrite <-(lookup_delete_ne d' "_id" k) by done.
      rewrite Hd', lookup_delete_ne by done.
      by rewrite (right_id_L ∅ (∪)). }
    assert (matches spec d' = true) as Hmd'.
    { unfold spec. rewrite matches_singleton by reflexivity.
      rewrite Hd'k, Hdid by done.
      rewrite field_matches_str. unfold eq_matches.
      by rewrite bool_decide_eq_true_2. }
    assert (head (filter (λ d, matches spec d = true)
                    (docs (coll "alarm" st) ++ [d'])) = Some d') as Hhead.
    { rewrite filter_app, (filter_unmatched (matches spec)) by done.
      by rewrite filter_cons_True. }
    exists d', mm.
    rewrite (Hfound d' Hid Hmm Henc Hdec).
    + rewrite Hd', Hback. simpl fst. simpl snd.
      rewrite coll_called, Hl'. split; [|split; [done|split; [|split]]].
      * split; [exact Hhead|]. split; [by rewrite Hd'k|]. by split.
      * rewrite length_app. simpl. lia.
      * apply Forall_app. split; [done|]. apply Forall_cons. split; [|done].
        split; [done|]. exists mm. split; [|done]. by rewrite Hd'k.
      * intros c Hc. rewrite coll_called. by apply Hother.
    + by rewrite Hl'.
    + done.
    + by rewrite Hd'k.
Qed.

End update_alarm.

(** X7: [update_alarm], and so [create_alarm], of an alarm with a string
    identifier and a flat [matching_metadata], on stored alarms: the call
    returns an alarm and never fails for a missing document. The alarm it
    returns has the fields of the given alarm laid over those of the first
    stored alarm with this identifier, if there is one, and no storage
    identifier: the fields the given alarm does not name are kept, not
    dropped. The collection has one more document when no stored alarm had
    the identifier and as many as before otherwise, its documents are
    stored alarms again, and the other collections are as before. *)
Theorem update_alarm_merges (alarm : Alarm) (alarm_id : string) (m : dict)
    (st : state) :
  alarm_fields alarm !! "alarm_id" = Some (VStr alarm_id) →
  alarm_fields alarm !! "matching_metadata" = Some (VDict m) →
  Forall stored_alarm (docs (coll "alarm" st)) →
  let r := Driver.create_alarm alarm st in
  let stored :=
    head (filter (λ d, matches {[ "alarm_id" := VStr alarm_id ]} d = true)
            (docs (coll "alarm" st))) in
  r = Driver.update_alarm alarm st
  ∧ r.1 = Ok (Item (mkAlarm (delete "_id"
                               (alarm_fields alarm ∪ default ∅ stored))))
  ∧ length (docs (coll "alarm" r.2))
    = (length (docs (coll "alarm" st))
       + match stored with Some _ => 0 | None => 1 end)%nat
  ∧ Forall stored_alarm (docs (coll "alarm" r.2))
  ∧ (∀ c, c ≠ "alarm" → docs (coll c r.2) = docs (coll c st)).
Proof.
  intros Hid Hmm Hst r stored. split; [reflexivity|].
  destruct (update_alarm_effect alarm alarm_id m st Hid Hmm Hst)
    as (x & mm & _ & H).
  exact H.
Qed.

(** X8: what [update_alarm] returns is what [get_alarms] lists. After
    [update_alarm] of an alarm with a string identifier and a flat
    [matching_metadata], on stored alarms, [get_alarms] for this identifier,
    with [enabled] given as [None], succeeds, and the first alarm it yields
    is the alarm [update_alarm] returned. *)
Theorem updated_alarm_is_listed {Pagination : Type} (alarm : Alarm)
    (alarm_id : string) (m : dict) (st : state) :
  alarm_fields alarm !! "alarm_id" = Some (VStr alarm_id) →
  alarm_fields alarm !! "matching_metadata" = Some (VDict m) →
  Forall stored_alarm (docs (coll "alarm" st)) →
  let r := Driver.update_alarm alarm st in
  ∃ a alarms,
    r.1 = Ok (Item a)
    ∧ (Connection.get_alarms (Pagination := Pagination) None None None
         (Given None) (Some alarm_id) None r.2).1 = Ok alarms
    ∧ head alarms = Some a.
Proof.
  intros Hid Hmm Hst r.
  destruct (update_alarm_effect alarm alarm_id m st Hid Hmm Hst)
    as (x & mm & (Hhead & Hx & Hdec & Hback) & Hr & _ & Hst' & _).
  fold r in Hhead, Hr, Hst'.
  set (st' := r.2) in *. clearbody st'.
  set (spec := ({[ "alarm_id" := VStr alarm_id ]} : dict)) in *.
  assert (Connection.get_alarms (Pagination := Pagination) None None None
            (Given None) (Some alarm_id) None st'
          = (result_mapM Connection.make_alarm
               (filter (λ d, matches spec d = true) (docs (coll "alarm" st'))),
             called (OpFind "alarm" spec None 0) st')) as ->.
  { unfold Connection.get_alarms, object_truthy, Connection.alarm_query.
    simpl. by rewrite insert_empty. }
  simpl fst.
  destruct (filter (λ d, matches spec d = true) (docs (coll "alarm" st')))
    as [|x' found] eqn:Hfound; [done|].
  injection Hhead as ->.
  assert (Forall stored_alarm (x :: found)) as Hall.
  { apply Forall_forall. intros d Hd.
    apply (proj1 (Forall_forall _ _) Hst' d).
    rewrite <-Hfound in Hd. by apply list_elem_of_filter in Hd as [_ Hd]. }
  apply Forall_cons in Hall as [[[i Hi] _] Hall].
  destruct (result_mapM_Forall2 Connection.make_alarm
              (λ d a, alarm_of d a ∧ alarm_fields a !! "_id" = None) found)
    as (rest & Hrest & _).
  { eapply Forall_impl; [exact Hall|]. apply make_alarm_stored. }
  eexists _, _. split; [exact Hr|].
  cbn [result_mapM]. unfold Connection.make_alarm at 1, getitem.
  rewrite Hi, lookup_delete_ne, Hx by done. cbn [result_bind].
  rewrite Hdec. cbn [result_bind]. rewrite Hrest, Hback.
  split; reflexivity.
Qed.

(** ** What the write path leaves in the store *)

Section write_path.

Lemma modifier_grows (fields : dict) (k : string) (v : value)
    (d d' : dict) :
  fields !! k = None → modifier fields k v d = Ok d' →
  field_values k d ⊆ field_values k d' ∧ v ∈ field_values k d'
  ∧ ∃ l, d' = <[k := VList l]> (fields ∪ d)
         ∧ (l = [v] ∨ ∃ l0, d !! k = Some (VList l0)
                            ∧ (l = l0 ∨ l = l0 ++ [v])).
Proof.
  intros Hk. unfold modifier, add_to_set, field_values.
  rewrite lookup_union_r by done.
  destruct (d !! k) as [[| | | | |l|]|] eqn:Hd; simpl; try done.
  - intros [= <-]. rewrite lookup_insert_eq.
    split; [|split].
    + case_decide; set_solver.
    + case_decide; set_solver.
    + eexists. split; [done|]. right. exists l. split; [done|].
      case_decide; auto.
  - intros [= <-]. rewrite lookup_insert_eq.
    split; [set_solver|]. split; [set_solver|]. eauto.
Qed.

(** An upsert by identifier with the modifiers of the write path changes
    the one document with this identifier, or appends one. *)
Lemma upsert_by_id_shape (v : value) (fields : dict) (k : string) (x : value)
    (document : dict) (ds ds' : list dict) :
  (∀ d, apply_update document d = modifier fields k x d) →
  scalar v = true → unique_ids ds →
  update_docs {[ "_id" := v ]} document true ds = Ok ds' →
  (∃ l1 d0 l2 d,
     ds = l1 ++ d0 :: l2 ∧ d0 !! "_id" = Some v
     ∧ modifier fields k x d0 = Ok d ∧ ds' = l1 ++ d :: l2)
  ∨ (Forall (λ d0, d0 !! "_id" ≠ Some v) ds
     ∧ ∃ d, modifier fields k x {[ "_id" := v ]} = Ok d ∧ ds' = ds ++ [d]).
Proof.
  intros Hdoc Hv [Hids _]. unfold update_docs.
  destruct (modify_first _ _ ds) as [r|] eqn:Hm.
  - apply modify_first_split in Hm as (l1 & d0 & l2 & -> & _ & Hd0 & ->).
    rewrite Hdoc. clear Hdoc.
    destruct (modifier fields k x d0) as [d|] eqn:Hd; [|done].
    simpl. intros [= <-]. left. exists l1, d0, l2, d. split; [reflexivity|].
    split; [|split; [exact Hd|reflexivity]].
    apply Forall_app in Hids as [_ Hids].
    apply Forall_cons in Hids as [(w & Hw & Hsc) _].
    rewrite matches_id_scalar, Hw, eq_matches_scalar in Hd0 by done.
    apply bool_decide_eq_true in Hd0. by subst w.
  - apply modify_first_unmatched in Hm.
    rewrite Hdoc, upsert_base_id by done. clear Hdoc.
    destruct (modifier fields k x _) as [d|] eqn:Hd; [|done].
    simpl. intros [= <-]. right. split; [|by exists d].
    apply Forall_forall. intros d0 Hd0 Hid.
    eapply Forall_forall in Hm; [|done].
    eapply Forall_forall in Hids as (w & Hw & Hsc); [|done].
    rewrite matches_id_scalar, Hw, eq_matches_scalar in Hm by done.
    apply bool_decide_eq_false in Hm. congruence.
Qed.

Lemma doc_ids_app (l1 l2 : list dict) :
  doc_ids (l1 ++ l2) = doc_ids l1 ++ doc_ids l2.
Proof. apply fmap_app. Qed.

(** Such an upsert keeps the collection well formed, leaves a document
    with the identifier and the value in its array, and forgets nothing. *)
Lemma upsert_by_id_keeps (v : value) (fields : dict) (k : string) (x : value)
    (document : dict) (ds ds' : list dict) :
  (∀ d, apply_update document d = modifier fields k x d) →
  scalar v = true → k ≠ "_id" →
  fields !! "_id" = None → fields !! k = None →
  unique_ids ds → Forall (array_field k) ds →
  update_docs {[ "_id" := v ]} document true ds = Ok ds' →
  unique_ids ds' ∧ Forall (array_field k) ds' ∧ grows k ds ds'
  ∧ (∀ d0, d0 ∈ ds → d0 !! "_id" ≠ Some v → d0 ∈ ds')
  ∧ ∃ d l, d ∈ ds' ∧ d !! "_id" = Some v
           ∧ d !! k = Some (VList l) ∧ x ∈ l
           ∧ (∀ k', k' ≠ k → is_Some (fields !! k') →
                    d !! k' = fields !! k')
           ∧ (∀ d1, d1 ∈ ds' → d1 ∈ ds ∨ d1 = d)
           ∧ (∀ y, y ∈ l →
                   y = x ∨ ∃ d0, d0 ∈ ds ∧ d0 !! "_id" = Some v
                                 ∧ y ∈ field_values k d0).
Proof.
  intros Hdoc Hv Hk Hfid Hfk Hu Harr Hds'.
  destruct (upsert_by_id_shape v fields k x document ds ds' Hdoc Hv Hu Hds')
    as [(l1 & d0 & l2 & d & -> & Hd0 & Hd & ->)|(Hnone & d & Hd & ->)];
    clear Hdoc Hds'.
  - pose proof (modifier_id _ _ _ _ _ Hk Hfid Hd) as Hid.
    destruct (modifier_grows _ _ _ _ _ Hfk Hd)
      as (Hsub & Hin & l & -> & Hl).
    destruct Hu as [Hids Hnd].
    assert (doc_ids (l1 ++ <[k:=VList l]> (fields ∪ d0) :: l2)
            = doc_ids (l1 ++ d0 :: l2)) as Hsame.
    { rewrite !doc_ids_app. unfold doc_ids at 2 4. simpl. by rewrite Hid. }
    split; [|split; [|split; [|split]]].
    + split; [|by rewrite Hsame].
      apply Forall_app in Hids as [Hids1 Hids2].
      apply Forall_cons in Hids2 as [Hd0s Hids2].
      apply Forall_app. split; [done|]. apply Forall_cons. split; [|done].
      by rewrite Hid.
    + apply Forall_app in Harr as [Harr1 Harr2].
      apply Forall_cons in Harr2 as [_ Harr2].
      apply Forall_app. split; [done|]. apply Forall_cons. split; [|done].
      unfold array_field. by rewrite lookup_insert_eq.
    + intros d1 [Hd1|[->|Hd1]%elem_of_cons]%elem_of_app.
      * exists d1. set_solver.
      * exists (<[k:=VList l]> (fields ∪ d0)). set_solver.
      * exists d1. set_solver.
    + intros d1 [Hd1|[->|Hd1]%elem_of_cons]%elem_of_app Hne;
        [set_solver|done|set_solver].
    + exists (<[k:=VList l]> (fields ∪ d0)), l.
      split; [set_solver|]. split; [congruence|].
      split; [apply lookup_insert_eq|].
      split; [unfold field_values in Hin; by rewrite lookup_insert_eq in Hin|].
      split; [|split].
      * intros k' Hk' [w Hw]. rewrite lookup_insert_ne by done.
        rewrite Hw. by apply lookup_union_Some_l.
      * intros d1 [Hd1|[->|Hd1]%elem_of_cons]%elem_of_app;
          [set_solver|by right|set_solver].
      * intros y Hy. destruct Hl as [->|(l0 & Hl0 & [->| ->])].
        -- left. set_solver.
        -- right. exists d0. split; [set_solver|]. split; [done|].
           unfold field_values. by rewrite Hl0.
        -- apply elem_of_app in Hy as [Hy|Hy]; [|left; set_solver].
           right. exists d0. split; [set_solver|]. split; [done|].
           unfold field_values. by rewrite Hl0.
  - pose proof (modifier_id _ _ _ _ _ Hk Hfid Hd) as Hid.
    rewrite lookup_singleton_eq in Hid.
    destruct (modifier_grows _ _ _ _ _ Hfk Hd)
      as (Hsub & Hin & l & -> & Hl).
    destruct Hu as [Hids Hnd].
    split; [|split; [|split; [|split]]].
    + split.
      * apply Forall_app. split; [done|]. apply Forall_cons. split; [|done].
        by exists v.
      * rewrite doc_ids_app. apply NoDup_app. split; [done|]. split.
        -- intros i (d1 & -> & Hd1)%list_elem_of_fmap Hi.
           eapply Forall_forall in Hnone; [|done].
           unfold doc_ids in Hi. simpl in Hi.
           apply list_elem_of_singleton in Hi. congruence.
        -- apply NoDup_singleton.
    + apply Forall_app. split; [done|]. apply Forall_cons. split; [|done].
      unfold array_field. by rewrite lookup_insert_eq.
    + intros d1 Hd1. exists d1. set_solver.
    + intros d1 Hd1 _. set_solver.
    + exists (<[k:=VList l]> (fields ∪ {["_id" := v]})), l.
      split; [set_solver|]. split; [done|].
      split; [apply lookup_insert_eq|].
      split; [unfold field_values in Hin; by rewrite lookup_insert_eq in Hin|].
      split; [|split].
      * intros k' Hk' [w Hw]. rewrite lookup_insert_ne by done.
        rewrite Hw. by apply lookup_union_Some_l.
      * intros d1 [Hd1|Hd1%list_elem_of_singleton]%elem_of_app;
          [by left|by right].
      * intros y Hy. left. destruct Hl as [->|(l0 & Hl0 & _)].
        -- set_solver.
        -- rewrite lookup_singleton_ne in Hl0 by done. done.
Qed.

End write_path.

Section one_record.

(** One call of [record_metering_data] on a well-formed store: its three
    upserts succeed, and the collections afterwards are what they
    produce. *)
Lemma record_metering_data_effect (data : dict) (st : state) :
  sample_payload data → store_wf st →
  ∃ uid pid rid src md cn ct cu ds_u ds_p ds_r,
    (data !! "user_id" = Some uid ∧ data !! "project_id" = Some pid
     ∧ data !! "resource_id" = Some rid ∧ data !! "source" = Some src)
    ∧ (data !! "resource_metadata" = Some md
       ∧ data !! "counter_name" = Some cn ∧ data !! "counter_type" = Some ct
       ∧ data !! "counter_unit" = Some cu)
    ∧ (scalar uid = true ∧ scalar pid = true ∧ scalar rid = true)
    ∧ update_docs {[ "_id" := uid ]}
        {[ "$addToSet" := VDict {[ "source" := src ]} ]} true
        (docs (coll "user" st)) = Ok ds_u
    ∧ update_docs {[ "_id" := pid ]}
        {[ "$addToSet" := VDict {[ "source" := src ]} ]} true
        (docs (coll "project" st)) = Ok ds_p
    ∧ update_docs {[ "_id" := rid ]}
        {[ "$set" := VDict {[ "project_id" := pid; "user_id" := uid;
                              "metadata" := md; "source" := src ]};
           "$addToSet" := VDict {[ "meter" :=
                            VDict {[ "counter_name" := cn;
                                     "counter_type" := ct;
                                     "counter_unit" := cu ]} ]} ]} true
        (docs (coll "resource" st)) = Ok ds_r
    ∧ (Connection.record_metering_data data st).1 = Ok ()
    ∧ docs (coll "user" (Connection.record_metering_data data st).2) = ds_u
    ∧ docs (coll "project" (Connection.record_metering_data data st).2)
      = ds_p
    ∧ docs (coll "resource" (Connection.record_metering_data data st).2)
      = ds_r
    ∧ docs (coll "meter" (Connection.record_metering_data data st).2)
      = docs (coll "meter" st) ++ [<["_id" := VStr (oid (next_oid st))]> data].
Proof.
  intros Hdata (Hwu & Hau & Hwp & Hap & Hwr & Har).
  destruct (sample_payload_fields data Hdata)
    as (uid & pid & rid & src & md & cn & ct & cu & Hids & Hrest
        & Huid & Hpid & Hrid).
  destruct Hdata as (_ & _ & Hnoid).
  destruct (upsert_by_id uid ∅ "source" src
              {[ "$addToSet" := VDict {[ "source" := src ]} ]}
              (docs (coll "user" st)))
    as (ds_u & Hu1 & _); try done; try apply apply_update_add.
  destruct (upsert_by_id pid ∅ "source" src
              {[ "$addToSet" := VDict {[ "source" := src ]} ]}
              (docs (coll "project" st)))
    as (ds_p & Hp1 & _); try done; try apply apply_update_add.
  destruct (upsert_by_id rid
              {[ "project_id" := pid; "user_id" := uid;
                 "metadata" := md; "source" := src ]}
              "meter"
              (VDict {[ "counter_name" := cn; "counter_type" := ct;
                        "counter_unit" := cu ]})
              {[ "$set" := VDict {[ "project_id" := pid; "user_id" := uid;
                                    "metadata" := md; "source" := src ]};
                 "$addToSet" := VDict {[ "meter" :=
                                  VDict {[ "counter_name" := cn;
                                           "counter_type" := ct;
                                           "counter_unit" := cu ]} ]} ]}
              (docs (coll "resource" st)))
    as (ds_r & Hr1 & _); try done; try apply apply_update_set_add.
  destruct (record_metering_data_run data st uid pid rid src md cn ct cu
              ds_u ds_p ds_r Hids Hrest Hnoid Hu1 Hp1 Hr1)
    as (Hok1 & Hdu1 & Hdp1 & Hdr1 & Hdm1 & Hn1).
  exists uid, pid, rid, src, md, cn, ct, cu, ds_u, ds_p, ds_r.
  repeat split; done || apply Hids || apply Hrest.
Qed.

End one_record.

(** X9: what one call of [record_metering_data] leaves in a well-formed
    store. The user and the project of the sample have a document whose
    source set holds the source of the sample; the resource has a document
    whose project, user, metadata and source are those of the sample, and
    whose meter descriptors hold the descriptor of the sample. Every document
    that was there is there again under its identifier, its source set or
    its meter descriptors holding at least what they held, and the documents
    of other identities are unchanged. *)
Theorem record_metering_data_merges (data : dict) (st : state) :
  sample_payload data → store_wf st →
  let r := Connection.record_metering_data data st in
  (∃ d, d ∈ docs (coll "user" r.2) ∧ d !! "_id" = data !! "user_id"
        ∧ field data "source" ∈ field_values "source" d)
  ∧ (∃ d, d ∈ docs (coll "project" r.2) ∧ d !! "_id" = data !! "project_id"
          ∧ field data "source" ∈ field_values "source" d)
  ∧ (∃ d, d ∈ docs (coll "resource" r.2)
          ∧ d !! "_id" = data !! "resource_id"
          ∧ d !! "project_id" = data !! "project_id"
          ∧ d !! "user_id" = data !! "user_id"
          ∧ d !! "metadata" = data !! "resource_metadata"
          ∧ d !! "source" = data !! "source"
          ∧ descriptor_of data ∈ field_values "meter" d)
  ∧ (grows "source" (docs (coll "user" st)) (docs (coll "user" r.2))
     ∧ grows "source" (docs (coll "project" st)) (docs (coll "project" r.2))
     ∧ grows "meter" (docs (coll "resource" st))
         (docs (coll "resource" r.2)))
  ∧ (∀ d0, d0 ∈ docs (coll "user" st) → d0 !! "_id" ≠ data !! "user_id" →
           d0 ∈ docs (coll "user" r.2))
  ∧ (∀ d0, d0 ∈ docs (coll "project" st) →
           d0 !! "_id" ≠ data !! "project_id" →
           d0 ∈ docs (coll "project" r.2))
  ∧ (∀ d0, d0 ∈ docs (coll "resource" st) →
           d0 !! "_id" ≠ data !! "resource_id" →
           d0 ∈ docs (coll "resource" r.2)).
Proof.
  intros Hdata Hwf r.
  destruct (record_metering_data_effect data st Hdata Hwf)
    as (uid & pid & rid & src & md & cn & ct & cu & ds_u & ds_p & ds_r
        & (Hu & Hp & Hr & Hs) & (Hmd & Hcn & Hct & Hcu)
        & (Huid & Hpid & Hrid) & Hdu & Hdp & Hdr
        & _ & Hru & Hrp & Hrr & _).
  fold r in Hru, Hrp, Hrr. rewrite Hru, Hrp, Hrr.
  destruct Hwf as (Hwu & Hau & Hwp & Hap & Hwr & Har).
  destruct (upsert_by_id_keeps uid ∅ "source" src _ _ _
              (apply_update_add _ _) Huid ltac:(done) ltac:(done)
              ltac:(done) Hwu Hau Hdu)
    as (_ & _ & Hgu & Hou & du & lu & Hdu1 & Hdu2 & Hdu3 & Hdu4 & _).
  destruct (upsert_by_id_keeps pid ∅ "source" src _ _ _
              (apply_update_add _ _) Hpid ltac:(done) ltac:(done)
              ltac:(done) Hwp Hap Hdp)
    as (_ & _ & Hgp & Hop & dp & lp & Hdp1 & Hdp2 & Hdp3 & Hdp4 & _).
  destruct (upsert_by_id_keeps rid
              {[ "project_id" := pid; "user_id" := uid;
                 "metadata" := md; "source" := src ]} "meter"
              (VDict {[ "counter_name" := cn; "counter_type" := ct;
                        "counter_unit" := cu ]}) _ _ _
              (apply_update_set_add _ _ _) Hrid ltac:(done) ltac:(done)
              ltac:(done) Hwr Har Hdr)
    as (_ & _ & Hgr & Hor & dr & lr & Hdr1 & Hdr2 & Hdr3 & Hdr4 & Hdr5 & _).
  unfold descriptor_of, field, field_values.
  rewrite Hu, Hp, Hr, Hs, Hmd, Hcn, Hct, Hcu. simpl.
  split; [|split; [|split; [|split; [|split; [|split]]]]]; try done.
  - exists du. by rewrite Hdu3.
  - exists dp. by rewrite Hdp3.
  - exists dr. rewrite Hdr3. repeat split; try done.
    + by rewrite Hdr5.
    + by rewrite Hdr5.
    + by rewrite Hdr5.
    + by rewrite Hdr5.
Qed.

(** X10: the write path keeps what the read paths and the write path itself
    rely on. After a call of [record_metering_data] on a well-formed store
    the call has succeeded and the store is well formed; when the resource
    documents were complete, with their owner fields and well-formed meter
    descriptors, they are again; and when every sample record carried an
    identifier, every one does. *)
Theorem record_metering_data_keeps_store (data : dict) (st : state) :
  sample_payload data → store_wf st →
  let r := Connection.record_metering_data data st in
  r.1 = Ok ()
  ∧ store_wf r.2
  ∧ (Forall stored_resource (docs (coll "resource" st)) →
     Forall stored_resource (docs (coll "resource" r.2)))
  ∧ (Forall (λ d, is_Some (d !! "_id")) (docs (coll "meter" st)) →
     Forall (λ d, is_Some (d !! "_id")) (docs (coll "meter" r.2))).
Proof.
  intros Hdata Hwf r.
  destruct (record_metering_data_effect data st Hdata Hwf)
    as (uid & pid & rid & src & md & cn & ct & cu & ds_u & ds_p & ds_r
        & (Hu & Hp & Hr & Hs) & (Hmd & Hcn & Hct & Hcu)
        & (Huid & Hpid & Hrid) & Hdu & Hdp & Hdr
        & Hok & Hru & Hrp & Hrr & Hrm).
  fold r in Hok, Hru, Hrp, Hrr, Hrm.
  destruct Hwf as (Hwu & Hau & Hwp & Hap & Hwr & Har).
  destruct (upsert_by_id_keeps uid ∅ "source" src _ _ _
              (apply_update_add _ _) Huid ltac:(done) ltac:(done)
              ltac:(done) Hwu Hau Hdu)
    as (Hwu' & Hau' & _).
  destruct (upsert_by_id_keeps pid ∅ "source" src _ _ _
              (apply_update_add _ _) Hpid ltac:(done) ltac:(done)
              ltac:(done) Hwp Hap Hdp)
    as (Hwp' & Hap' & _).
  destruct (upsert_by_id_keeps rid
              {[ "project_id" := pid; "user_id" := uid;
                 "metadata" := md; "source" := src ]} "meter"
              (VDict {[ "counter_name" := cn; "counter_type" := ct;
                        "counter_unit" := cu ]}) _ _ _
              (apply_update_set_add _ _ _) Hrid ltac:(done) ltac:(done)
              ltac:(done) Hwr Har Hdr)
    as (Hwr' & Har' & _ & _ & dr & lr & Hdr1 & Hdr2 & Hdr3 & Hdr4 & Hdr5
        & Hdr6 & Hdr7).
  clear Hdu Hdp Hdr.
  split; [exact Hok|]. split; [|split].
  - unfold store_wf. rewrite Hru, Hrp, Hrr. auto 10.
  - intros Hres. rewrite Hrr. apply Forall_forall. intros d Hd.
    destruct (Hdr6 d Hd) as [Hold| ->].
    { eapply Forall_forall in Hres; [exact Hres|exact Hold]. }
    split.
    + repeat apply Forall_cons_2; try apply Forall_nil_2;
        try (rewrite Hdr5 by done; done).
      by rewrite Hdr2.
    + exists lr. split; [exact Hdr3|]. apply Forall_forall. intros y Hy.
      destruct (Hdr7 y Hy) as [->|(d0 & Hd0 & _ & Hy0)].
      * eexists. split; [reflexivity|]. split; by eexists.
      * eapply Forall_forall in Hres as (_ & l0 & Hl0 & Hdesc); [|exact Hd0].
        unfold field_values in Hy0. rewrite Hl0 in Hy0.
        eapply Forall_forall in Hdesc; [exact Hdesc|exact Hy0].
  - intros Hm. rewrite Hrm. apply Forall_app. split; [exact Hm|].
    apply Forall_cons_2; [|apply Forall_nil_2].
    by rewrite lookup_insert_eq.
Qed.

(** ** When the write path fails *)

Section write_path_errors.

Context (data : dict) (st0 : state).

(** What holds of an outcome of the write path, or of a part of it. *)
Let post (r : result unit * state) : Prop :=
  match r.1 with
  | Ok _ =>
      Forall (λ k, is_Some (data !! k)) read_fields
      ∧ docs (coll "meter" r.2)
        = docs (coll "meter" st0) ++ [record_of data (oid (next_oid st0))]
  | Err e =>
      docs (coll "meter" r.2) = docs (coll "meter" st0)
      ∧ ∀ k, e = KeyError k → data !! k = None
  end.

Let inv (st : state) : Prop :=
  docs (coll "meter" st) = docs (coll "meter" st0)
  ∧ next_oid st = next_oid st0.

Lemma add_to_set_all_error (fields : list (string * value)) (d : dict)
    (e : exn) :
  add_to_set_all fields d = Err e → e = OperationFailure.
Proof.
  induction fields as [|[k v] fields IH]; simpl; [done|].
  destruct (add_to_set_all fields d) as [d'|e'] eqn:Hd'; simpl.
  - unfold add_to_set.
    destruct (d' !! k) as [[| | | | |l|]|]; simpl; congruence.
  - intros [= <-]. by apply IH.
Qed.

Lemma apply_update_error (document d : dict) (e : exn) :
  apply_update document d = Err e → e = OperationFailure.
Proof.
  unfold apply_update.
  destruct (document !! "$addToSet") as [[| | | | | |fields]|]; try done.
  apply add_to_set_all_error.
Qed.

Lemma update_docs_error (spec document : dict) (upsert : bool)
    (ds : list dict) (e : exn) :
  update_docs spec document upsert ds = Err e → e = OperationFailure.
Proof.
  unfold update_docs.
  destruct (modify_first _ _ ds) as [r|] eqn:Hm.
  - apply modify_first_split in Hm as (l1 & d & l2 & _ & _ & _ & ->).
    destruct (apply_update document d) as [d'|e'] eqn:Hd; simpl; [done|].
    intros [= <-]. by apply apply_update_error in Hd.
  - destruct upsert; [|done].
    destruct (apply_update document (upsert_base spec)) as [d'|e'] eqn:Hd;
      simpl; [done|].
    intros [= <-]. by apply apply_update_error in Hd.
Qed.

Lemma step_getitem (k : string) (f : value → M unit) (st : state) :
  inv st →
  (∀ v, data !! k = Some v → post (f v st)) →
  post ((lift (getitem data k) ≫= f) st).
Proof.
  intros [Hm _] Hf. unfold getitem.
  destruct (data !! k) as [v|] eqn:Hk.
  - rewrite lift_bind. by apply Hf.
  - unfold post. simpl. split; [exact Hm|]. by intros k' [= <-].
Qed.

Lemma step_update (c : string) (spec document : dict) (f : unit → M unit)
    (st : state) :
  c ≠ "meter" → inv st →
  (∀ st', inv st' → post (f () st')) →
  post ((update c spec document true ≫= f) st).
Proof.
  intros Hc [Hm Hn] Hf.
  destruct (update_docs spec document true (docs (coll c st)))
    as [ds|e] eqn:Hds.
  - rewrite (bind_ok _ _ _ _ (update_ok _ _ _ _ _ _ Hds)).
    apply Hf. split.
    + by rewrite docs_update_ne.
    + by rewrite next_oid_update.
  - apply update_docs_error in Hds as Hds'. subst e.
    unfold mbind, M_bind, update. cbv zeta. rewrite coll_called, Hds.
    unfold post. simpl. split; [exact Hm|done].
Qed.

Lemma step_insert (st : state) :
  Forall (λ k, is_Some (data !! k)) read_fields →
  inv st →
  post (((if is_not_None (default VNone (data !! "_id")) then mret data
          else id ← new_objectid; mret (<["_id" := VStr id]> data))
         ≫= insert "meter") st).
Proof.
  intros Hread [Hm Hn]. unfold post, record_of. rewrite <-Hn, <-Hm.
  destruct (data !! "_id") as [[]|]; simpl; (split; [exact Hread|]);
    by rewrite docs_set_docs, decide_True.
Qed.

(** The outcome of [record_metering_data]. *)
Lemma record_metering_data_post :
  post (Connection.record_metering_data data st0).
Proof.
  assert (inv st0) as Hinv by done.
  unfold Connection.record_metering_data.
  repeat (apply step_getitem; [exact Hinv|intros ? ?]).
  apply step_update; [done|exact Hinv|]. clear Hinv. intros st1 Hinv.
  repeat (apply step_getitem; [exact Hinv|intros ? ?]).
  apply step_update; [done|exact Hinv|]. clear Hinv. intros st2 Hinv.
  repeat (apply step_getitem; [exact Hinv|intros ? ?]).
  apply step_update; [done|exact Hinv|]. clear Hinv. intros st3 Hinv.
  apply step_insert; [|exact Hinv].
  unfold read_fields. repeat (apply Forall_cons_2; [by eexists|]).
  apply Forall_nil_2.
Qed.

End write_path_errors.

(** X11: for any sample and any store, when [record_metering_data]
    returns, the sample has every field the method reads, and the meter
    collection has gained exactly one record: the sample as it is when it
    comes with an identifier that is not [None], the sample with a generated
    identifier otherwise. When it raises, whatever the exception, the meter
    collection is as before; and a [KeyError] names a field the sample
    lacks. So a sample that lacks one of the fields is never recorded. *)
Theorem record_metering_data_outcome (data : dict) (st : state) :
  let r := Connection.record_metering_data data st in
  match r.1 with
  | Ok _ =>
      Forall (λ k, is_Some (data !! k)) read_fields
      ∧ docs (coll "meter" r.2)
        = docs (coll "meter" st) ++ [record_of data (oid (next_oid st))]
  | Err e =>
      docs (coll "meter" r.2) = docs (coll "meter" st)
      ∧ ∀ k, e = KeyError k → data !! k = None
  end.
Proof. apply record_metering_data_post. Qed.

(** X12: the write path is not atomic. For a sample with a user and a
    source but no project, on a well-formed store, the call raises
    [KeyError] for ['project_id'] after the upsert of the user has been
    applied: the user collection has a document for the user whose source
    set holds the source, the store has seen this one call, and nothing is
    taken back. A sample without a user is refused before the store is
    touched. *)
Theorem record_metering_data_not_atomic (data : dict) (st : state)
    (uid src : value) :
  store_wf st →
  data !! "user_id" = Some uid → scalar uid = true →
  data !! "source" = Some src → data !! "project_id" = None →
  let r := Connection.record_metering_data data st in
  r.1 = Err (KeyError "project_id")
  ∧ log r.2
    = log st ++ [OpUpdate "user" {[ "_id" := uid ]}
                   {[ "$addToSet" := VDict {[ "source" := src ]} ]} true]
  ∧ (∃ d, d ∈ docs (coll "user" r.2) ∧ d !! "_id" = Some uid
          ∧ src ∈ field_values "source" d)
  ∧ Connection.record_metering_data (delete "user_id" data) st
    = (Err (KeyError "user_id"), st).
Proof.
  intros (Hwu & Hau & _) Hu Huid Hs Hp r.
  destruct (upsert_by_id uid ∅ "source" src
              {[ "$addToSet" := VDict {[ "source" := src ]} ]}
              (docs (coll "user" st)))
    as (ds_u & Hds & _); try done; try apply apply_update_add.
  destruct (upsert_by_id_keeps uid ∅ "source" src _ _ _
              (apply_update_add _ _) Huid ltac:(done) ltac:(done)
              ltac:(done) Hwu Hau Hds)
    as (_ & _ & _ & _ & d & l & Hd1 & Hd2 & Hd3 & Hd4 & _).
  assert (r = (Err (KeyError "project_id"),
               (update "user" {[ "_id" := uid ]}
                  {[ "$addToSet" := VDict {[ "source" := src ]} ]} true
                  st).2)) as ->.
  { unfold r, Connection.record_metering_data, getitem.
    rewrite Hu, Hs, Hp, !lift_bind.
    by rewrite (bind_ok _ _ _ _ (update_ok _ _ _ _ _ _ Hds)). }
  simpl fst. simpl snd. split; [reflexivity|]. split; [|split].
  - unfold update. cbv zeta. rewrite coll_called, Hds. reflexivity.
  - rewrite (docs_update_eq _ _ _ _ _ _ Hds). exists d.
    split; [exact Hd1|]. split; [exact Hd2|].
    unfold field_values. by rewrite Hd3.
  - unfold Connection.record_metering_data, getitem.
    by rewrite lookup_delete_eq.
Qed.

(** ** Listing users and projects *)

Section listing.

Lemma matches_empty (d : dict) : matches ∅ d = true.
Proof. unfold matches. by rewrite map_to_list_empty. Qed.

Lemma matches_source (source : option string) (d : dict) :
  matches (set_if (is_not_None (of_str source)) "source" (of_str source) ∅) d
  = from_source source d.
Proof.
  destruct source as [s|]; simpl; [|apply matches_empty].
  rewrite insert_empty, matches_singleton by reflexivity.
  rewrite field_matches_str.
  unfold eq_matches, has_source.
  destruct (d !! "source") as [[| | | | |l|]|]; simpl;
    rewrite ?orb_false_r; done.
Qed.

Lemma project_fields_id (fields : list string) (d : dict) :
  project_fields fields d !! "_id" = d !! "_id".
Proof.
  unfold project_fields. destruct (d !! "_id") as [v|] eqn:Hd.
  - apply map_lookup_filter_Some. split; [done|]. simpl. set_solver.
  - apply map_lookup_filter_None. left. done.
Qed.

Lemma list_ids (fields : list string) (ds : list dict) :
  Forall (λ d, is_Some (d !! "_id")) ds →
  result_mapM (λ doc, getitem doc "_id") (project_fields fields <$> ds)
  = Ok ((λ d, field d "_id") <$> ds).
Proof.
  induction 1 as [|d ds [v Hv] _ IH]; [done|].
  rewrite !fmap_cons. cbn [result_mapM]. rewrite IH.
  unfold getitem, field. by rewrite project_fields_id, Hv.
Qed.

(** A listing of the identifiers of a collection by source. *)
Lemma list_by_source (c : string) (source : option string) (st : state) :
  Forall (λ d, is_Some (d !! "_id")) (docs (coll c st)) →
  let q :=
    set_if (is_not_None (of_str source)) "source" (of_str source) ∅ in
  let r :=
    (ds ← find_fields c q ["_id"] (Some ("_id", ASCENDING)) 0;
     lift (result_mapM (λ doc, getitem doc "_id") ds)) st in
  (∃ ids,
     r.1 = Ok ids
     ∧ ids ≡ₚ (λ d, field d "_id")
              <$> filter (λ d, from_source source d = true)
                    (docs (coll c st)))
  ∧ r.2 = called (OpFind c q (Some ("_id", ASCENDING)) 0) st.
Proof.
  intros Hids q r.
  set (found := find_result q (Some ("_id", ASCENDING)) 0
                  (docs (coll c st))).
  assert (r = (result_mapM (λ doc, getitem doc "_id")
                 (project_fields ["_id"] <$> found),
               called (OpFind c q (Some ("_id", ASCENDING)) 0) st)) as Hr
    by reflexivity.
  clearbody r. subst r.
  assert (Forall (λ d, is_Some (d !! "_id")) found) as Hfound.
  { apply Forall_forall. intros d Hd.
    apply (proj1 (Forall_forall _ _) Hids d).
    by apply (find_result_subseteq q (Some ("_id", ASCENDING)) 0). }
  assert (found ≡ₚ filter (λ d, from_source source d = true)
                     (docs (coll c st))) as Hperm.
  { unfold found, find_result, take_limit, sort_docs.
    rewrite decide_True by done. rewrite merge_sort_Permutation.
    erewrite list_filter_iff; [done|].
    intros d. unfold q. by rewrite matches_source. }
  simpl fst. simpl snd. rewrite list_ids by done.
  split; [|reflexivity]. eexists. split; [reflexivity|]. by rewrite Hperm.
Qed.

End listing.

(** X13: on collections whose documents carry their identifier,
    [get_users] and [get_projects] yield, in some order, the identifiers of
    the documents whose source set holds the given source, and of all
    documents when no source is given; an empty source is a source like any
    other. Each call reads its collection once and writes nothing. *)
Theorem get_users_get_projects_by_source (source : option string)
    (st : state) :
  Forall (λ d, is_Some (d !! "_id")) (docs (coll "user" st)) →
  Forall (λ d, is_Some (d !! "_id")) (docs (coll "project" st)) →
  let listed c :=
    (λ d, field d "_id")
    <$> filter (λ d, from_source source d = true) (docs (coll c st)) in
  let ru := Driver.get_users source st in
  let rp := Driver.get_projects source st in
  (∃ ids, ru.1 = Ok ids ∧ ids ≡ₚ listed "user")
  ∧ (∃ ids, rp.1 = Ok ids ∧ ids ≡ₚ listed "project")
  ∧ (db ru.2 = db st
     ∧ ∃ q, log ru.2 = log st ++ [OpFind "user" q (Some ("_id", ASCENDING)) 0])
  ∧ (db rp.2 = db st
     ∧ ∃ q, log rp.2
            = log st ++ [OpFind "project" q (Some ("_id", ASCENDING)) 0]).
Proof.
  intros Hu Hp listed ru rp.
  destruct (list_by_source "user" source st Hu) as [Hu1 Hu2].
  destruct (list_by_source "project" source st Hp) as [Hp1 Hp2].
  split; [exact Hu1|]. split; [exact Hp1|]. split.
  - unfold ru, Driver.get_users. rewrite Hu2. split; [reflexivity|].
    by eexists.
  - unfold rp, Driver.get_projects. rewrite Hp2. split; [reflexivity|].
    by eexists.
Qed.

(** X14: a recorded sample makes its user and its project visible. After
    [record_metering_data] of a sample whose source is the string [s], on a
    well-formed store, [get_users] and [get_projects] list the user and the
    project of the sample, both for the source [s] and when no source is
    given. *)
Theorem recorded_user_and_project_are_listed (data : dict) (st : state)
    (s : string) (source : option string) :
  sample_payload data → store_wf st →
  data !! "source" = Some (VStr s) →
  source = None ∨ source = Some s →
  let st' := (Connection.record_metering_data data st).2 in
  (∃ ids, (Driver.get_users source st').1 = Ok ids
          ∧ field data "user_id" ∈ ids)
  ∧ (∃ ids, (Driver.get_projects source st').1 = Ok ids
            ∧ field data "project_id" ∈ ids).
Proof.
  intros Hdata Hwf Hsrc Hsource st'.
  destruct (record_metering_data_effect data st Hdata Hwf)
    as (uid & pid & rid & src & md & cn & ct & cu & ds_u & ds_p & ds_r
        & (Hu & Hp & Hr & Hs) & _
        & (Huid & Hpid & Hrid) & Hdu & Hdp & _
        & _ & Hru & Hrp & _).
  fold st' in Hru, Hrp.
  rewrite Hsrc in Hs. injection Hs as <-.
  destruct Hwf as (Hwu & Hau & Hwp & Hap & _).
  destruct (upsert_by_id_keeps uid ∅ "source" (VStr s) _ _ _
              (apply_update_add _ _) Huid ltac:(done) ltac:(done)
              ltac:(done) Hwu Hau Hdu)
    as ([Hidu _] & _ & _ & _ & du & lu & Hdu1 & Hdu2 & Hdu3 & Hdu4 & _).
  destruct (upsert_by_id_keeps pid ∅ "source" (VStr s) _ _ _
              (apply_update_add _ _) Hpid ltac:(done) ltac:(done)
              ltac:(done) Hwp Hap Hdp)
    as ([Hidp _] & _ & _ & _ & dp & lp & Hdp1 & Hdp2 & Hdp3 & Hdp4 & _).
  clear Hdu Hdp.
  assert (∀ d l, d !! "source" = Some (VList l) → VStr s ∈ l →
                 from_source source d = true) as Hfrom.
  { intros d l Hd Hl. destruct Hsource as [-> | ->]; [done|].
    unfold from_source, has_source. rewrite Hd.
    by apply bool_decide_eq_true_2. }
  assert (∀ c, Forall (λ d, ∃ v, d !! "_id" = Some v ∧ scalar v = true)
                 (docs (coll c st')) →
               Forall (λ d, is_Some (d !! "_id")) (docs (coll c st')))
    as Hsome.
  { intros c H. eapply Forall_impl; [exact H|].
    intros d (v & Hv & _). by exists v. }
  unfold field. rewrite Hu, Hp. simpl. split.
  - destruct (list_by_source "user" source st')
      as [(ids & Hids & Hperm) _].
    { apply Hsome. by rewrite Hru. }
    exists ids. split; [exact Hids|]. rewrite Hperm.
    apply list_elem_of_fmap. exists du. split.
    + unfold field. by rewrite Hdu2.
    + apply list_elem_of_filter. split; [by apply (Hfrom du lu)|].
      by rewrite Hru.
  - destruct (list_by_source "project" source st')
      as [(ids & Hids & Hperm) _].
    { apply Hsome. by rewrite Hrp. }
    exists ids. split; [exact Hids|]. rewrite Hperm.
    apply list_elem_of_fmap. exists dp. split.
    + unfold field. by rewrite Hdp2.
    + apply list_elem_of_filter. split; [by apply (Hfrom dp lp)|].
      by rewrite Hrp.
Qed.

(** ** Listing meters and resources *)

Section listing_resources.

Lemma result_mapM_concat {A B} (f : A → result (list B))
    (P : A → list B → Prop) (l : list A) :
  Forall (λ x, ∃ ys, f x = Ok ys ∧ P x ys) l →
  ∃ yss, result_map (@concat B) (result_mapM f l) = Ok (concat yss)
         ∧ Forall2 P l yss.
Proof.
  intros H. destruct (result_mapM_Forall2 f P l H) as (yss & Hyss & HP).
  exists yss. by rewrite Hyss.
Qed.

Lemma make_meters_stored (d : dict) :
  stored_resource d →
  ∃ ms, Connection.make_meters d = Ok ms
        ∧ Forall2 (meter_of d) (field_values "meter" d) ms.
Proof.
  intros (Hf & l & Hl & Hdesc).
  apply Forall_cons in Hf as [[rid Hrid] Hf].
  apply Forall_cons in Hf as [[pid Hpid] Hf].
  apply Forall_cons in Hf as [[src Hsrc] Hf].
  apply Forall_cons in Hf as [[uid Huid] _].
  unfold Connection.make_meters, getitem, field_values. rewrite Hl.
  cbn [result_bind Connection.as_list].
  destruct (result_mapM_Forall2
              (λ r_meter,
                 result_bind (Connection.as_dict r_meter) (λ r_meter,
                 result_bind (getitem r_meter "counter_name") (λ cn,
                 result_bind (getitem r_meter "counter_type") (λ ct,
                 result_bind (getitem d "_id") (λ rid,
                 result_bind (getitem d "project_id") (λ pid,
                 result_bind (getitem d "source") (λ src,
                 result_bind (getitem d "user_id") (λ uid,
                 Ok {| m_name := cn;
                       m_type := ct;
                       m_unit :=
                         Connection.get_default r_meter "counter_unit"
                           (VStr "");
                       m_resource_id := rid;
                       m_project_id := pid;
                       m_source := src;
                       m_user_id := uid |}))))))))
              (meter_of d) l) as (ms & Hms & HP).
  { eapply Forall_impl; [exact Hdesc|].
    intros x (xd & -> & [cn Hcn] & [ct Hct]).
    unfold getitem. cbn [Connection.as_dict result_bind].
    rewrite Hcn, Hct, Hrid, Hpid, Hsrc, Huid. cbn [result_bind].
    eexists. split; [reflexivity|]. exists xd. simpl. done. }
  exists ms. split; [|exact HP]. exact Hms.
Qed.

End listing_resources.

(** X15: on complete resource documents, [get_meters] (without pagination)
    yields, for every resource document that matches its query, in the order
    of the store, one meter for each descriptor of the document, in their
    order: name, type and unit from the descriptor, the unit the empty
    string when the descriptor has none, the identity and owner from the
    document. The query takes the metadata query as it is, and constrains
    user, project, source and, under the key of the identifier, the
    resource, each when the argument is not [None] and the metadata query
    does not name the key. The resource collection is read once, the meter
    collection is not read, and nothing is written. *)
Theorem get_meters_flattens {Pagination : Type}
    (user project resource source : option string) (metaquery : dict)
    (st : state) :
  Forall stored_resource (docs (coll "resource" st)) →
  let r :=
    Connection.get_meters (Pagination := Pagination) user project resource
      source metaquery None st in
  ∃ base mss,
    (base !! "user_id" = VStr <$> user
     ∧ base !! "project_id" = VStr <$> project
     ∧ base !! "_id" = VStr <$> resource
     ∧ base !! "source" = VStr <$> source
     ∧ dom base ⊆ {[ "user_id"; "project_id"; "_id"; "source" ]})
    ∧ log r.2 = log st ++ [OpFind "resource" (metaquery ∪ base) None 0]
    ∧ db r.2 = db st
    ∧ r.1 = Ok (concat mss)
    ∧ Forall2 (λ d ms, Forall2 (meter_of d) (field_values "meter" d) ms)
        (filter (λ d, matches (metaquery ∪ base) d = true)
           (docs (coll "resource" st))) mss.
Proof.
  intros Hst r.
  set (base :=
         set_if (is_not_None (of_str source)) "source" (of_str source)
           (set_if (is_not_None (of_str resource)) "_id" (of_str resource)
              (set_if (is_not_None (of_str project)) "project_id"
                 (of_str project)
                 (set_if (is_not_None (of_str user)) "user_id" (of_str user)
                    (∅ : dict))))).
  set (found := find_result (metaquery ∪ base) None 0
                  (docs (coll "resource" st))).
  assert (r = (result_map (@concat Meter)
                 (result_mapM Connection.make_meters found),
               called (OpFind "resource" (metaquery ∪ base) None 0) st))
    as Hr by reflexivity.
  clearbody r. subst r.
  destruct (result_mapM_concat Connection.make_meters
              (λ d ms, Forall2 (meter_of d) (field_values "meter" d) ms)
              found) as (mss & Hmss & HP).
  { apply Forall_forall. intros d Hd. apply make_meters_stored.
    apply (proj1 (Forall_forall _ _) Hst d).
    by apply (find_result_subseteq (metaquery ∪ base) None 0). }
  exists base, mss. split; [|split; [reflexivity|split; [reflexivity|]]].
  - unfold base.
    destruct user, project, resource, source; simpl;
      (repeat split; [reflexivity..|]);
      rewrite ?dom_insert_L, ?dom_empty_L; set_solver.
  - split; [exact Hmss|]. exact HP.
Qed.

Section get_resources_result.

Lemma filter_on {A} (P Q : A → Prop) `{!∀ x, Decision (P x)}
    `{!∀ x, Decision (Q x)} (l : list A) :
  (∀ x, x ∈ l → P x ↔ Q x) → filter P l = filter Q l.
Proof.
  induction l as [|x l IH]; intros Hl; [done|].
  assert (filter P l = filter Q l) as IH'.
  { apply IH. intros y Hy. apply Hl. apply elem_of_cons. by right. }
  assert (P x ↔ Q x) as Hx by (apply Hl; apply elem_of_cons; by left).
  destruct (decide (P x)) as [HP|HP].
  - rewrite !filter_cons_True by tauto. by rewrite IH'.
  - rewrite !filter_cons_False by tauto. exact IH'.
Qed.

Lemma matches_in (ids : list value) (d : dict) (v : value) :
  d !! "_id" = Some v → scalar v = true →
  matches {[ "_id" := VDict {[ "$in" := VList ids ]} ]} d
  = bool_decide (v ∈ ids).
Proof.
  intros Hd Hv. rewrite matches_singleton by reflexivity. rewrite Hd.
  unfold field_matches, operator_doc. rewrite map_to_list_singleton.
  rewrite bool_decide_eq_false_2 by apply map_non_empty_singleton.
  cbn [forallb fst snd is_operator andb negb op_matches].
  rewrite map_to_list_singleton.
  cbn [forallb fst snd]. rewrite decide_True by done. rewrite andb_true_r.
  destruct v; try done; by rewrite orb_false_r.
Qed.

Lemma named_by_distinct (samples : list dict) (d : dict) (v : value) :
  d !! "_id" = Some v →
  bool_decide (v ∈ distinct_values "resource_id" samples)
  = named_by samples d.
Proof.
  intros Hd. unfold named_by, distinct_values, field. rewrite Hd. simpl.
  apply bool_decide_ext. apply elem_of_remove_dups.
Qed.

Lemma make_resource_stored (d : dict) :
  stored_resource d →
  ∃ r, Connection.make_resource d = Ok r ∧ resource_of d r.
Proof.
  intros (Hf & l & Hl & Hdesc).
  apply Forall_cons in Hf as [[rid Hrid] Hf].
  apply Forall_cons in Hf as [[pid Hpid] Hf].
  apply Forall_cons in Hf as [[src Hsrc] Hf].
  apply Forall_cons in Hf as [[uid Huid] Hf].
  apply Forall_cons in Hf as [[md Hmd] _].
  destruct (result_mapM_Forall2
              (λ meter,
                 result_bind (Connection.as_dict meter) (λ meter,
                 result_bind (getitem meter "counter_name") (λ cn,
                 result_bind (getitem meter "counter_type") (λ ct,
                 Ok {| rm_counter_name := cn;
                       rm_counter_type := ct;
                       rm_counter_unit :=
                         Connection.get_default meter "counter_unit"
                           (VStr "") |}))))
              resource_meter_of l) as (ms & Hms & HP).
  { eapply Forall_impl; [exact Hdesc|].
    intros x (xd & -> & [cn Hcn] & [ct Hct]).
    unfold getitem. cbn [Connection.as_dict result_bind].
    rewrite Hcn, Hct. cbn [result_bind].
    eexists. split; [reflexivity|]. exists xd. simpl. done. }
  assert (∀ k v, d !! k = Some v → getitem d k = Ok v) as Hget
    by (intros k v Hk; unfold getitem; by rewrite Hk).
  unfold Connection.make_resource.
  rewrite (Hget _ _ Hrid), (Hget _ _ Hpid), (Hget _ _ Hsrc), (Hget _ _ Huid),
    (Hget _ _ Hmd), (Hget _ _ Hl).
  cbn [result_bind Connection.as_list]. rewrite Hms. cbn [result_bind].
  eexists. split; [reflexivity|].
  unfold resource_of, field_values. rewrite Hl. simpl. done.
Qed.

Lemma resource_of_timestamps (ds : list dict) (rs : list Resource) :
  Forall2 resource_of ds rs →
  Forall (λ x, r_first_sample_timestamp x = VNone
               ∧ r_last_sample_timestamp x = VNone) rs.
Proof.
  induction 1 as [|d x ds xs Hx _ IH]; [by apply Forall_nil_2|].
  apply Forall_cons_2; [|exact IH].
  destruct Hx as (_ & _ & _ & _ & _ & H1 & H2 & _). by split.
Qed.

End get_resources_result.

(** X16: on a resource collection of complete documents with scalar
    identifiers, [get_resources] (without pagination) yields, in the order of
    the store, one resource for every resource document that is named, by
    its identifier, in the [resource_id] of a sample that matches the query
    sent to the meter collection, and for no other: a resource without such
    a sample is not listed, whatever its own fields. Each resource has the
    identity, owner and metadata of its document, a descriptor for each of
    the document's, and no sample timestamps. *)
Theorem get_resources_lists_named {Pagination : Type}
    (user project source : option string)
    (start_timestamp : option Z) (start_timestamp_op : option string)
    (end_timestamp : option Z) (end_timestamp_op : option string)
    (metaquery : dict) (resource : option string) (st : state) :
  unique_ids (docs (coll "resource" st)) →
  Forall stored_resource (docs (coll "resource" st)) →
  let r :=
    Connection.get_resources (Pagination := Pagination) user project source
      start_timestamp start_timestamp_op end_timestamp end_timestamp_op
      metaquery resource None st in
  ∃ q by_id rs,
    log r.2 = log st ++ [OpDistinct "meter" q "resource_id";
                         OpFind "resource" by_id None 0]
    ∧ r.1 = Ok rs
    ∧ Forall2 resource_of
        (filter
           (λ d, named_by (filter (λ s, matches q s = true)
                             (docs (coll "meter" st))) d = true)
           (docs (coll "resource" st)))
        rs
    ∧ Forall (λ x, r_first_sample_timestamp x = VNone
                   ∧ r_last_sample_timestamp x = VNone) rs.
Proof.
  intros [Hids _] Hst r.
  set (base :=
         Connection.resource_query user project source resource metaquery).
  set (q := if truthy (of_time start_timestamp)
               || truthy (of_time end_timestamp)
            then
              set_if
                (truthy (VDict (make_timestamp_range start_timestamp
                                  end_timestamp start_timestamp_op
                                  end_timestamp_op)))
                "timestamp"
                (VDict (make_timestamp_range start_timestamp end_timestamp
                          start_timestamp_op end_timestamp_op)) base
            else base).
  set (samples := filter (λ s, matches q s = true) (docs (coll "meter" st))).
  set (by_id := ({[ "_id" := VDict {[ "$in" :=
                     VList (distinct_values "resource_id" samples) ]} ]}
                 : dict)).
  assert (r = (result_mapM Connection.make_resource
                 (filter (λ d, matches by_id d = true)
                    (docs (coll "resource" st))),
               called (OpFind "resource" by_id None 0)
                 (called (OpDistinct "meter" q "resource_id") st)))
    as Hr by reflexivity.
  clearbody r. subst r.
  assert (filter (λ d, matches by_id d = true) (docs (coll "resource" st))
          = filter (λ d, named_by samples d = true)
              (docs (coll "resource" st))) as Hfilter.
  { apply filter_on. intros d Hd.
    destruct (proj1 (Forall_forall _ _) Hids d Hd) as (v & Hv & Hsc).
    unfold by_id. rewrite (matches_in _ d v Hv Hsc).
    by rewrite (named_by_distinct samples d v Hv). }
  rewrite Hfilter.
  destruct (result_mapM_Forall2 Connection.make_resource resource_of
              (filter (λ d, named_by samples d = true)
                 (docs (coll "resource" st)))) as (rs & Hrs & HP).
  { apply Forall_forall. intros d [_ Hd]%list_elem_of_filter.
    apply make_resource_stored.
    apply (proj1 (Forall_forall _ _) Hst d Hd). }
  exists q, by_id, rs. simpl fst. simpl snd.
  split; [unfold called; simpl; by rewrite <-app_assoc|].
  split; [exact Hrs|].
  split; [exact HP|]. by eapply resource_of_timestamps.
Qed.

(** X17: the query [get_resources] (without pagination) sends to the meter
    collection constrains user, project and source to the argument exactly
    when it is not [None], so also when it is the empty string; constrains
    [resource_id] to the entry for ["id"] of the metadata query when there
    is one, and otherwise to the resource argument when that is not [None];
    holds every entry [k: v] of the metadata query as [resource_k: v]; and
    bounds the timestamp exactly when a start or an end is given. *)
Theorem get_resources_query_constraints {Pagination : Type}
    (user project source : option string)
    (start_timestamp : option Z) (start_timestamp_op : option string)
    (end_timestamp : option Z) (end_timestamp_op : option string)
    (metaquery : dict) (resource : option string) (st : state) :
  let r :=
    Connection.get_resources (Pagination := Pagination) user project source
      start_timestamp start_timestamp_op end_timestamp end_timestamp_op
      metaquery resource None st in
  ∃ q by_id,
    log r.2 = log st ++ [OpDistinct "meter" q "resource_id";
                         OpFind "resource" by_id None 0]
    ∧ (q !! "user_id" = VStr <$> user
       ∧ q !! "project_id" = VStr <$> project
       ∧ q !! "source" = VStr <$> source)
    ∧ q !! "resource_id"
      = match metaquery !! "id" with
        | Some v => Some v
        | None => VStr <$> resource
        end
    ∧ (∀ k v, metaquery !! k = Some v → q !! ("resource_" +:+ k) = Some v)
    ∧ q !! "timestamp"
      = match start_timestamp, end_timestamp with
        | None, None => None
        | _, _ =>
            Some (VDict (make_timestamp_range start_timestamp end_timestamp
                           start_timestamp_op end_timestamp_op))
        end.
Proof.
  intros r.
  set (base :=
         Connection.resource_query user project source resource metaquery).
  set (ts_range := make_timestamp_range start_timestamp end_timestamp
                     start_timestamp_op end_timestamp_op).
  set (q := if truthy (of_time start_timestamp)
               || truthy (of_time end_timestamp)
            then set_if (truthy (VDict ts_range)) "timestamp"
                   (VDict ts_range) base
            else base).
  set (by_id := ({[ "_id" := VDict {[ "$in" :=
                     VList (distinct_values "resource_id"
                              (filter (λ s, matches q s = true)
                                 (docs (coll "meter" st)))) ]} ]} : dict)).
  assert (r = (result_mapM Connection.make_resource
                 (filter (λ d, matches by_id d = true)
                    (docs (coll "resource" st))),
               called (OpFind "resource" by_id None 0)
                 (called (OpDistinct "meter" q "resource_id") st)))
    as Hr by reflexivity.
  clearbody r. subst r. exists q, by_id.
  split; [unfold called; simpl; by rewrite <-app_assoc|].
  assert (∀ k, k ≠ "timestamp" → q !! k = base !! k) as Hk.
  { intros k Hne. unfold q.
    destruct (truthy (of_time start_timestamp)
              || truthy (of_time end_timestamp)); [|done].
    by rewrite set_if_lookup_ne. }
  assert (base !! "timestamp" = None) as Hts.
  { unfold base, Connection.resource_query.
    rewrite prefix_keys_union_lookup by (by intros i).
    by rewrite !set_if_lookup_ne, lookup_empty by done. }
  split; [|split; [|split]].
  - rewrite !Hk by done. unfold base, Connection.resource_query.
    rewrite !prefix_keys_union_lookup by (by intros i).
    split; [|split].
    + rewrite !set_if_lookup_ne by done.
      rewrite set_if_lookup, lookup_empty. apply not_None_of_str.
    + rewrite !set_if_lookup_ne by done. rewrite set_if_lookup.
      rewrite set_if_lookup_ne, lookup_empty by done. apply not_None_of_str.
    + rewrite set_if_lookup_ne by done. rewrite set_if_lookup.
      rewrite !set_if_lookup_ne, lookup_empty by done. apply not_None_of_str.
  - rewrite Hk by done. unfold base, Connection.resource_query.
    rewrite lookup_union.
    change "resource_id" with ("resource_" +:+ "id") at 1.
    rewrite prefix_keys_lookup, set_if_lookup.
    rewrite !set_if_lookup_ne, lookup_empty by done.
    rewrite not_None_of_str.
    by destruct (metaquery !! "id") as [v|], (VStr <$> resource).
  - intros k v Hv. rewrite Hk.
    + unfold base, Connection.resource_query.
      apply lookup_union_Some_l. by rewrite prefix_keys_lookup.
    + clear. intros H. discriminate H.
  - unfold q.
    destruct start_timestamp as [s|] eqn:Hs, end_timestamp as [e|] eqn:He;
      simpl orb; cbv iota; try exact Hts;
      unfold ts_range; rewrite make_timestamp_range_truthy by done;
      apply lookup_insert_eq.
Qed.

(** X18: without a limit, [get_samples] drops nothing: on a store whose
    sample records carry their identifier, it yields, in some order, one
    sample for every stored record that matches the query of the filter. *)
Theorem get_samples_all_without_limit (sample_filter : SampleFilter)
    (q : dict) (st : state) :
  Forall (λ d, is_Some (d !! "_id")) (docs (coll "meter" st)) →
  make_query_from_filter sample_filter false = Ok q →
  ∃ samples,
    (Connection.get_samples sample_filter None st).1 = Ok samples
    ∧ samples ≡ₚ sample_of
                 <$> filter (λ d, matches q d = true)
                       (docs (coll "meter" st)).
Proof.
  intros Hst Hq.
  rewrite (get_samples_run sample_filter None st q) by done.
  eexists. split; [reflexivity|].
  unfold find_result, take_limit, sort_docs. simpl default.
  rewrite decide_True by done. by rewrite merge_sort_Permutation.
Qed.

(** ** From the write path to the read paths *)

Section round_trip.

Lemma split_dots_cons (k : string) : ∃ h t, split_dots k = h :: t.
Proof.
  induction k as [|c k (h & t & IH)]; [by eexists _, _|].
  cbn [split_dots]. rewrite IH. destruct (Ascii.eqb c "."); by eexists _, _.
Qed.

Lemma split_dots_head (c : Ascii.ascii) (k : string) :
  Ascii.eqb c "." = false → ∃ h t, split_dots (String c k) = String c h :: t.
Proof.
  intros Hc. destruct (split_dots_cons k) as (h & t & Hk).
  cbn [split_dots]. rewrite Hk, Hc. by eexists _, _.
Qed.

(** A field that no key of the query starts from does not count. *)
Lemma resolve_insert_other (k' k : string) (d : dict) (v : value) :
  head (split_dots k') ≠ Some k →
  resolve k' (<[k := v]> d) = resolve k' d.
Proof.
  destruct (split_dots_cons k') as (h & t & Hk'). rewrite Hk'.
  intros Hne. unfold resolve. rewrite Hk'. cbn [foldl].
  assert (∀ d', [Some (VDict d')] ≫= path_step h = [d' !! h]) as Hstep
    by done.
  rewrite !Hstep, lookup_insert_ne; [done|].
  intros ->. by destruct Hne.
Qed.

Lemma matches_insert_other (q d : dict) (k : string) (v : value) :
  (∀ k' c, q !! k' = Some c → head (split_dots k') ≠ Some k) →
  matches q (<[k := v]> d) = matches q d.
Proof.
  intros Hk. unfold matches. apply eq_iff_eq_true.
  rewrite !forallb_forall.
  assert (∀ kv, In kv (map_to_list q) →
                path_matches (<[k := v]> d) kv.1 kv.2
                = path_matches d kv.1 kv.2) as Hsame.
  { intros [k' c] Hin%list_elem_of_In%elem_of_map_to_list.
    unfold path_matches. cbn [fst snd].
    by rewrite (resolve_insert_other k' k d v (Hk k' c Hin)). }
  split; intros H kv Hkv; specialize (H kv Hkv);
    by rewrite Hsame in * by done.
Qed.

(** No key of the query of a filter starts from the identifier. *)
Lemma make_query_from_filter_no_id (sample_filter : SampleFilter)
    (require_meter : bool) (q : dict) (k : string) (c : value) :
  make_query_from_filter sample_filter require_meter = Ok q →
  q !! k = Some c → head (split_dots k) ≠ Some "_id".
Proof.
  intros Hq%make_query_from_filter_inv Hk. cbv zeta in Hq. subst q.
  pose proof (mk_is_Some _ _ Hk) as Hsome.
  clear Hk. apply lookup_union_is_Some in Hsome as [Hsome|Hsome].
  - apply prefix_keys_is_Some in Hsome as (k' & -> & _).
    destruct (split_dots_head "r" ("esource_" +:+ k') eq_refl)
      as (h & t & Hsplit).
    change ("resource_" +:+ k') with (String "r" ("esource_" +:+ k')).
    rewrite Hsplit. by intros [= ?].
  - repeat (apply set_if_is_Some in Hsome as [->|Hsome]; [by vm_compute|]).
    rewrite lookup_empty in Hsome. by destruct Hsome.
Qed.

Lemma sample_of_recorded (data : dict) (id : string) :
  data !! "_id" = None → is_Some (data !! "counter_unit") →
  sample_of (<["_id" := VStr id]> data) = mkSample data.
Proof.
  intros Hid [cu Hcu]. unfold sample_of.
  rewrite lookup_insert_ne, Hcu by done. simpl.
  rewrite delete_insert_eq, delete_id by done. by rewrite insert_id.
Qed.

End round_trip.

(** X19: a recorded sample is read back as it was handed over. After
    [record_metering_data] of a sample on a well-formed store whose sample
    records carry their identifier, [get_samples] without a limit, for any
    filter whose query the sample matches, succeeds and yields the sample:
    all its fields with their values, and no storage identifier. *)
Theorem recorded_sample_is_read_back (data : dict) (st : state)
    (sample_filter : SampleFilter) (q : dict) :
  sample_payload data → store_wf st →
  Forall (λ d, is_Some (d !! "_id")) (docs (coll "meter" st)) →
  make_query_from_filter sample_filter false = Ok q →
  matches q data = true →
  let st' := (Connection.record_metering_data data st).2 in
  ∃ samples,
    (Connection.get_samples sample_filter None st').1 = Ok samples
    ∧ mkSample data ∈ samples.
Proof.
  intros Hdata Hwf Hm Hq Hmatch st'.
  destruct (record_metering_data_effect data st Hdata Hwf)
    as (uid & pid & rid & src & md & cn & ct & cu & ds_u & ds_p & ds_r
        & _ & (_ & _ & _ & Hcu) & _ & _ & _ & _ & _ & _ & _ & _ & Hrm).
  fold st' in Hrm. destruct Hdata as (_ & _ & Hnoid).
  assert (Forall (λ d, is_Some (d !! "_id")) (docs (coll "meter" st')))
    as Hm'.
  { rewrite Hrm. apply Forall_app. split; [exact Hm|].
    apply Forall_cons_2; [|apply Forall_nil_2]. by rewrite lookup_insert_eq. }
  rewrite (get_samples_run sample_filter None st' q) by done.
  eexists. split; [reflexivity|].
  rewrite <-(sample_of_recorded data (oid (next_oid st))) by done.
  apply list_elem_of_fmap_2.
  unfold find_result, take_limit, sort_docs. simpl default.
  rewrite decide_True by done. rewrite merge_sort_Permutation.
  apply list_elem_of_filter. split.
  - rewrite matches_insert_other; [exact Hmatch|].
    intros k c. by apply (make_query_from_filter_no_id sample_filter false).
  - rewrite Hrm. apply elem_of_app. right. by apply list_elem_of_singleton.
Qed.

Section recorded.

Lemma Forall2_elem_of_l {A B} (P : A → B → Prop) (l : list A) (k : list B)
    (x : A) :
  Forall2 P l k → x ∈ l → ∃ y, y ∈ k ∧ P x y.
Proof.
  induction 1 as [|a b l k Hab _ IH]; [by intros ?%elem_of_nil|].
  intros [->|Hx]%elem_of_cons.
  - exists b. split; [apply elem_of_cons; by left|exact Hab].
  - destruct (IH Hx) as (y & Hy & HP). exists y.
    split; [apply elem_of_cons; by right|exact HP].
Qed.

Lemma elem_of_concat {A} (x : A) (l : list A) (ls : list (list A)) :
  x ∈ l → l ∈ ls → x ∈ concat ls.
Proof.
  intros Hx Hl. induction ls as [|l' ls IH]; [by apply elem_of_nil in Hl|].
  simpl. apply elem_of_app. apply elem_of_cons in Hl as [->|Hl]; auto.
Qed.

(** The resource document of a recorded sample. *)
Lemma recorded_resource (data : dict) (st : state) :
  sample_payload data → store_wf st →
  Forall stored_resource (docs (coll "resource" st)) →
  let st' := (Connection.record_metering_data data st).2 in
  unique_ids (docs (coll "resource" st'))
  ∧ Forall stored_resource (docs (coll "resource" st'))
  ∧ (∃ id, <["_id" := VStr id]> data ∈ docs (coll "meter" st'))
  ∧ ∃ d, d ∈ docs (coll "resource" st')
         ∧ d !! "_id" = data !! "resource_id"
         ∧ d !! "project_id" = data !! "project_id"
         ∧ d !! "user_id" = data !! "user_id"
         ∧ d !! "metadata" = data !! "resource_metadata"
         ∧ d !! "source" = data !! "source"
         ∧ descriptor_of data ∈ field_values "meter" d.
Proof.
  intros Hdata Hwf Hres st'.
  destruct (record_metering_data_effect data st Hdata Hwf)
    as (uid & pid & rid & src & md & cn & ct & cu & ds_u & ds_p & ds_r
        & (Hu & Hp & Hr & Hs) & (Hmd & Hcn & Hct & Hcu)
        & (Huid & Hpid & Hrid) & _ & _ & Hdr
        & _ & _ & _ & Hrr & Hrm).
  fold st' in Hrr, Hrm.
  destruct Hwf as (_ & _ & _ & _ & Hwr & Har).
  destruct (upsert_by_id_keeps rid
              {[ "project_id" := pid; "user_id" := uid;
                 "metadata" := md; "source" := src ]} "meter"
              (VDict {[ "counter_name" := cn; "counter_type" := ct;
                        "counter_unit" := cu ]}) _ _ _
              (apply_update_set_add _ _ _) Hrid ltac:(done) ltac:(done)
              ltac:(done) Hwr Har Hdr)
    as (Hwr' & _ & _ & _ & dr & lr & Hdr1 & Hdr2 & Hdr3 & Hdr4 & Hdr5
        & Hdr6 & Hdr7).
  clear Hdr. rewrite Hrr, Hrm.
  split; [exact Hwr'|]. split; [|split].
  - apply Forall_forall. intros d Hd.
    destruct (Hdr6 d Hd) as [Hold| ->].
    { apply (proj1 (Forall_forall _ _) Hres d Hold). }
    split.
    + repeat apply Forall_cons_2; try apply Forall_nil_2;
        try (rewrite Hdr5 by done; done).
      by rewrite Hdr2.
    + exists lr. split; [exact Hdr3|]. apply Forall_forall. intros y Hy.
      destruct (Hdr7 y Hy) as [->|(d0 & Hd0 & _ & Hy0)].
      * eexists. split; [reflexivity|]. split; by eexists.
      * destruct (proj1 (Forall_forall _ _) Hres d0 Hd0)
          as (_ & l0 & Hl0 & Hdesc).
        unfold field_values in Hy0. rewrite Hl0 in Hy0.
        apply (proj1 (Forall_forall _ _) Hdesc y Hy0).
  - eexists. apply elem_of_app. right. by apply list_elem_of_singleton.
  - exists dr. unfold descriptor_of, field, field_values.
    rewrite Hu, Hp, Hr, Hs, Hmd, Hcn, Hct, Hcu, Hdr3. simpl.
    split; [exact Hdr1|]. split; [exact Hdr2|].
    repeat split; try (by rewrite Hdr5). exact Hdr4.
Qed.

Lemma resource_query_empty :
  Connection.resource_query None None None None ∅ = ∅.
Proof.
  unfold Connection.resource_query, prefix_keys. simpl.
  by rewrite kmap_empty, (left_id_L ∅ (∪)).
Qed.

End recorded.

(** X20: a recorded sample makes its resource and its meter visible. After
    [record_metering_data] of a sample on a well-formed store with complete
    resource documents, [get_resources] and [get_meters] without any filter
    succeed; the first yields a resource with the identity, owner and
    metadata of the sample, the descriptor of the sample among its meters;
    the second yields a meter with the name, type and unit of the sample and
    the identity and owner of its resource. *)
Theorem recorded_resource_and_meter_are_listed {Pagination : Type}
    (data : dict) (st : state) :
  sample_payload data → store_wf st →
  Forall stored_resource (docs (coll "resource" st)) →
  let st' := (Connection.record_metering_data data st).2 in
  (∃ rs x rm,
     (Connection.get_resources (Pagination := Pagination) None None None
        None None None None ∅ None None st').1 = Ok rs
     ∧ x ∈ rs
     ∧ (r_resource_id x = field data "resource_id"
        ∧ r_project_id x = field data "project_id"
        ∧ r_user_id x = field data "user_id"
        ∧ r_source x = field data "source"
        ∧ r_metadata x = field data "resource_metadata")
     ∧ rm ∈ r_meter x
     ∧ (rm_counter_name rm = field data "counter_name"
        ∧ rm_counter_type rm = field data "counter_type"
        ∧ rm_counter_unit rm = field data "counter_unit"))
  ∧ (∃ ms m,
       (Connection.get_meters (Pagination := Pagination) None None None
          None ∅ None st').1 = Ok ms
       ∧ m ∈ ms
       ∧ (m_name m = field data "counter_name"
          ∧ m_type m = field data "counter_type"
          ∧ m_unit m = field data "counter_unit")
       ∧ (m_resource_id m = field data "resource_id"
          ∧ m_project_id m = field data "project_id"
          ∧ m_source m = field data "source"
          ∧ m_user_id m = field data "user_id")).
Proof.
  intros Hdata Hwf Hres st'.
  destruct (recorded_resource data st Hdata Hwf Hres)
    as ([Hids Hnd] & Hres' & [id Hrec] & d & Hd & Hd1 & Hd2 & Hd3 & Hd4
        & Hd5 & Hd6).
  fold st' in Hids, Hnd, Hres', Hrec, Hd.
  destruct (sample_payload_fields data Hdata)
    as (uid & pid & rid & src & md & cn & ct & cu & (Hu & Hp & Hr & Hs)
        & (Hmd & Hcn & Hct & Hcu) & Huid & Hpid & Hrid).
  unfold descriptor_of, field in Hd6.
  rewrite Hcn, Hct, Hcu in Hd6. simpl in Hd6.
  rewrite Hr in Hd1. rewrite Hp in Hd2. rewrite Hu in Hd3.
  rewrite Hmd in Hd4. rewrite Hs in Hd5.
  split.
  - set (samples := filter (λ s, matches ∅ s = true)
                      (docs (coll "meter" st'))).
    set (by_id := ({[ "_id" := VDict {[ "$in" :=
                       VList (distinct_values "resource_id" samples) ]} ]}
                   : dict)).
    assert (Connection.get_resources (Pagination := Pagination) None None
              None None None None None ∅ None None st'
            = (result_mapM Connection.make_resource
                 (filter (λ d, matches by_id d = true)
                    (docs (coll "resource" st'))),
               called (OpFind "resource" by_id None 0)
                 (called (OpDistinct "meter" ∅ "resource_id") st')))
      as ->.
    { unfold Connection.get_resources, object_truthy. cbv beta iota zeta.
      simpl orb. cbv iota. rewrite resource_query_empty. reflexivity. }
    simpl fst.
    destruct (result_mapM_Forall2 Connection.make_resource resource_of
                (filter (λ d, matches by_id d = true)
                   (docs (coll "resource" st')))) as (rs & Hrs & HP).
    { apply Forall_forall. intros d' [_ Hd']%list_elem_of_filter.
      apply make_resource_stored.
      apply (proj1 (Forall_forall _ _) Hres' d' Hd'). }
    assert (d ∈ filter (λ d, matches by_id d = true)
                  (docs (coll "resource" st'))) as Hlisted.
    { apply list_elem_of_filter. split; [|exact Hd].
      unfold by_id. rewrite (matches_in _ d rid Hd1 Hrid).
      apply bool_decide_eq_true_2. unfold distinct_values.
      apply elem_of_remove_dups, list_elem_of_bind.
      exists (<["_id" := VStr id]> data). split.
      - unfold field_values. rewrite lookup_insert_ne, Hr by done.
        destruct rid; try done; by apply list_elem_of_singleton.
      - apply list_elem_of_filter. split; [apply matches_empty|exact Hrec]. }
    destruct (Forall2_elem_of_l _ _ _ _ HP Hlisted)
      as (x & Hx & (Hx1 & Hx2 & Hx3 & Hx4 & Hx5 & _ & _ & Hx8)).
    destruct (Forall2_elem_of_l _ _ _ _ Hx8 Hd6)
      as (rm & Hrm & (xd & [= <-] & Hn & Ht & Hun)).
    exists rs, x, rm. split; [exact Hrs|]. split; [exact Hx|].
    rewrite lookup_insert_eq in Hn.
    rewrite lookup_insert_ne, lookup_insert_eq in Ht by done.
    rewrite !lookup_insert_ne, lookup_singleton_eq in Hun by done.
    simpl in Hun. unfold field.
    rewrite Hu, Hp, Hr, Hs, Hmd, Hcn, Hct, Hcu. simpl.
    repeat split; try exact Hrm; congruence.
  - set (found := find_result (∅ ∪ ∅) None 0 (docs (coll "resource" st'))).
    assert (Connection.get_meters (Pagination := Pagination) None None None
              None ∅ None st'
            = (result_map (@concat Meter)
                 (result_mapM Connection.make_meters found),
               called (OpFind "resource" (∅ ∪ ∅) None 0) st'))
      as -> by reflexivity.
    simpl fst.
    destruct (result_mapM_concat Connection.make_meters
                (λ d ms, Forall2 (meter_of d) (field_values "meter" d) ms)
                found) as (mss & Hmss & HP).
    { apply Forall_forall. intros d' Hd'. apply make_meters_stored.
      apply (proj1 (Forall_forall _ _) Hres' d').
      by apply (find_result_subseteq (∅ ∪ ∅) None 0). }
    assert (d ∈ found) as Hfound.
    { unfold found, find_result, take_limit, sort_docs.
      rewrite decide_True by done. apply list_elem_of_filter.
      split; [|exact Hd]. rewrite (left_id_L ∅ (∪)). apply matches_empty. }
    destruct (Forall2_elem_of_l _ _ _ _ HP Hfound) as (ms & Hms & Hdm).
    destruct (Forall2_elem_of_l _ _ _ _ Hdm Hd6)
      as (m & Hm & (xd & [= <-] & Hn & Ht & Hun & Hm1 & Hm2 & Hm3 & Hm4)).
    exists (concat mss), m. split; [exact Hmss|]. split.
    { by apply (elem_of_concat m ms mss). }
    rewrite lookup_insert_eq in Hn.
    rewrite lookup_insert_ne, lookup_insert_eq in Ht by done.
    rewrite !lookup_insert_ne, lookup_singleton_eq in Hun by done.
    simpl in Hun. unfold field.
    rewrite Hu, Hp, Hr, Hs, Hcn, Hct, Hcu. simpl.
    repeat split; congruence.
Qed.

(** ** The further statements at concrete inputs *)

(** The example filter: the user is constrained, the empty meter name is
    not, and the start bounds the timestamp. *)
Lemma make_query_from_filter_constraints_witness :
  ∃ q, make_query_from_filter example_filter false = Ok q
       ∧ q !! "user_id" = Some (VStr "u1")
       ∧ q !! "counter_name" = None
       ∧ q !! "timestamp" = Some (VDict {[ "$gte" := VTime 10 ]}).
Proof.
  eexists. split; [reflexivity|].
  destruct (make_query_from_filter_constraints example_filter false _
              eq_refl)
    as (Hu & _ & Hc & _ & Ht).
  split; [exact Hu|]. split; [exact Hc|]. exact Ht.
Defined.

(** The example filter: the metadata query names the resource, and wins. *)
Lemma make_query_from_filter_metaquery_witness :
  ∃ q, make_query_from_filter example_filter false = Ok q
       ∧ q !! "resource_id" = Some (VStr "r9")
       ∧ q !! "resource_host" = Some (VStr "h1").
Proof.
  eexists. split; [reflexivity|].
  destruct (make_query_from_filter_metaquery example_filter false _ eq_refl)
    as (Hm & Hr & _).
  split; [exact Hr|]. apply (Hm "host"). by vm_compute.
Defined.

(** Two addresses in a new pool. *)
Lemma connect_one_client_per_address_witness :
  "mongodb://h/a" ≠ "mongodb://h/b"
  ∧ (ConnectionPool.connect "mongodb://h/a" ConnectionPool.init).1
    ≠ (ConnectionPool.connect "mongodb://h/b"
         (ConnectionPool.connect "mongodb://h/a" ConnectionPool.init).2).1.
Proof.
  assert ("mongodb://h/a" ≠ "mongodb://h/b") as Hne by discriminate.
  split; [exact Hne|].
  destruct (connect_one_client_per_address [] "mongodb://h/a"
              "mongodb://h/b" Hne) as (_ & _ & H).
  exact H.
Defined.

(** The address of a DB2 server. *)
Lemma init_connects_mongodb_address_witness :
  colon_free "" = true
  ∧ ConnectionPool._pool
      (Driver.__init__ "db2://h/ceilometer" None (Ok (Some "ceilometer"))
         ConnectionPool.init empty_state).1.2 !! "mongodb://h/ceilometer"
    = Some 0%nat.
Proof.
  split; [reflexivity|].
  destruct (init_connects_mongodb_address "" "//h/ceilometer" None
              (Ok (Some "ceilometer")) ConnectionPool.init empty_state
              eq_refl) as [H _].
  exact H.
Defined.

(** The first example alarm, disabled and with new metadata: its stored
    fields are kept, and the collection still has two alarms. *)
Lemma update_alarm_merges_witness :
  alarm_fields example_alarm !! "alarm_id" = Some (VStr "1")
  ∧ alarm_fields example_alarm !! "matching_metadata"
    = Some (VDict {[ "host" := VStr "h9" ]})
  ∧ Forall stored_alarm (docs (coll "alarm" example_alarm_store))
  ∧ (Driver.create_alarm example_alarm example_alarm_store).1
    = Ok (Item example_alarm)
  ∧ length (docs (coll "alarm"
                (Driver.create_alarm example_alarm example_alarm_store).2))
    = 2%nat.
Proof.
  assert (Forall stored_alarm (docs (coll "alarm" example_alarm_store)))
    as Hst.
  { repeat constructor.
    - by eexists.
    - eexists. split; [by vm_compute|].
      right. by exists [("host", VStr "h1")].
    - by eexists.
    - eexists. split; [by vm_compute|]. left. by eexists. }
  split; [reflexivity|]. split; [reflexivity|]. split; [exact Hst|].
  destruct (update_alarm_merges example_alarm "1" {[ "host" := VStr "h9" ]}
              example_alarm_store eq_refl eq_refl Hst)
    as (_ & Hr & Hlen & _).
  split; [|exact Hlen].
  rewrite Hr. by vm_compute.
Defined.

(** The same alarm, listed after its update. *)
Lemma updated_alarm_is_listed_witness :
  Forall stored_alarm (docs (coll "alarm" example_alarm_store))
  ∧ ∃ a alarms,
      (Driver.update_alarm example_alarm example_alarm_store).1 = Ok (Item a)
      ∧ (Connection.get_alarms (Pagination := unit) None None None
           (Given None) (Some "1") None
           (Driver.update_alarm example_alarm example_alarm_store).2).1
        = Ok alarms
      ∧ head alarms = Some a.
Proof.
  assert (Forall stored_alarm (docs (coll "alarm" example_alarm_store)))
    as Hst.
  { repeat constructor.
    - by eexists.
    - eexists. split; [by vm_compute|].
      right. by exists [("host", VStr "h1")].
    - by eexists.
    - eexists. split; [by vm_compute|]. left. by eexists. }
  split; [exact Hst|].
  exact (updated_alarm_is_listed (Pagination := unit) example_alarm "1"
           {[ "host" := VStr "h9" ]} example_alarm_store eq_refl eq_refl
           Hst).
Defined.

(** The example sample, written to the empty store. *)
Lemma record_metering_data_merges_witness :
  sample_payload example_sample
  ∧ store_wf empty_state
  ∧ ∃ d, d ∈ docs (coll "resource"
                     (Connection.record_metering_data example_sample
                        empty_state).2)
         ∧ d !! "_id" = Some (VStr "r1")
         ∧ d !! "user_id" = Some (VStr "u1").
Proof.
  assert (sample_payload example_sample) as Hdata.
  { split; [|split]; [apply (bool_decide_unpack _); by vm_compute..|].
    by vm_compute. }
  assert (store_wf empty_state) as Hwf.
  { unfold store_wf, unique_ids, coll. simpl. rewrite !lookup_empty. simpl.
    repeat split; constructor. }
  split; [exact Hdata|]. split; [exact Hwf|].
  destruct (record_metering_data_merges example_sample empty_state Hdata Hwf)
    as (_ & _ & (d & Hd & Hid & _ & Hu & _) & _).
  exists d. split; [exact Hd|]. split; [exact Hid|exact Hu].
Defined.

(** The store after the example sample. *)
Lemma record_metering_data_keeps_store_witness :
  sample_payload example_sample
  ∧ store_wf empty_state
  ∧ store_wf (Connection.record_metering_data example_sample empty_state).2.
Proof.
  assert (sample_payload example_sample) as Hdata.
  { split; [|split]; [apply (bool_decide_unpack _); by vm_compute..|].
    by vm_compute. }
  assert (store_wf empty_state) as Hwf.
  { unfold store_wf, unique_ids, coll. simpl. rewrite !lookup_empty. simpl.
    repeat split; constructor. }
  split; [exact Hdata|]. split; [exact Hwf|].
  destruct (record_metering_data_keeps_store example_sample empty_state
              Hdata Hwf) as (_ & H & _).
  exact H.
Defined.

(** The example sample without its project. *)
Lemma record_metering_data_not_atomic_witness :
  store_wf empty_state
  ∧ (Connection.record_metering_data (delete "project_id" example_sample)
       empty_state).1 = Err (KeyError "project_id")
  ∧ length (log (Connection.record_metering_data
                   (delete "project_id" example_sample) empty_state).2)
    = 1%nat.
Proof.
  assert (store_wf empty_state) as Hwf.
  { unfold store_wf, unique_ids, coll. simpl. rewrite !lookup_empty. simpl.
    repeat split; constructor. }
  split; [exact Hwf|].
  destruct (record_metering_data_not_atomic
              (delete "project_id" example_sample) empty_state
              (VStr "u1") (VStr "src1") Hwf)
    as (Herr & Hlog & _); [by vm_compute..|].
  split; [exact Herr|]. by rewrite Hlog.
Defined.

(** The users and projects of the example store, for its source. *)
Lemma get_users_get_projects_by_source_witness :
  Forall (λ d, is_Some (d !! "_id")) (docs (coll "user" example_resource_store))
  ∧ Forall (λ d, is_Some (d !! "_id"))
      (docs (coll "project" example_resource_store))
  ∧ ∃ ids, (Driver.get_users (Some "src1") example_resource_store).1 = Ok ids
           ∧ ids ≡ₚ [VStr "u1"].
Proof.
  assert (Forall (λ d, is_Some (d !! "_id"))
            (docs (coll "user" example_resource_store))) as Hu.
  { apply (bool_decide_unpack _). by vm_compute. }
  assert (Forall (λ d, is_Some (d !! "_id"))
            (docs (coll "project" example_resource_store))) as Hp.
  { apply (bool_decide_unpack _). by vm_compute. }
  split; [exact Hu|]. split; [exact Hp|].
  destruct (get_users_get_projects_by_source (Some "src1")
              example_resource_store Hu Hp) as ((ids & Hids & Hperm) & _).
  exists ids. split; [exact Hids|]. exact Hperm.
Defined.

(** The example sample, written to the empty store and listed by its
    source. *)
Lemma recorded_user_and_project_are_listed_witness :
  sample_payload example_sample
  ∧ store_wf empty_state
  ∧ ∃ ids,
      (Driver.get_users (Some "src1")
         (Connection.record_metering_data example_sample empty_state).2).1
      = Ok ids
      ∧ VStr "u1" ∈ ids.
Proof.
  assert (sample_payload example_sample) as Hdata.
  { split; [|split]; [apply (bool_decide_unpack _); by vm_compute..|].
    by vm_compute. }
  assert (store_wf empty_state) as Hwf.
  { unfold store_wf, unique_ids, coll. simpl. rewrite !lookup_empty. simpl.
    repeat split; constructor. }
  split; [exact Hdata|]. split; [exact Hwf|].
  destruct (recorded_user_and_project_are_listed example_sample empty_state
              "src1" (Some "src1") Hdata Hwf eq_refl (or_intror eq_refl))
    as ((ids & Hids & Hin) & _).
  exists ids. split; [exact Hids|exact Hin].
Defined.

(** The meters of the resources of the example store whose metadata name
    the host. *)
Lemma get_meters_flattens_witness :
  Forall stored_resource (docs (coll "resource" example_resource_store))
  ∧ ∃ ms,
      (Connection.get_meters (Pagination := unit) None None None None
         {[ "metadata.host" := VStr "h1" ]} None example_resource_store).1
      = Ok ms
      ∧ length ms = 2%nat.
Proof.
  assert (Forall stored_resource
            (docs (coll "resource" example_resource_store))) as Hst.
  { apply Forall_cons_2; [|apply Forall_nil_2]. split.
    - apply (bool_decide_unpack _). by vm_compute.
    - eexists. split; [by vm_compute|].
      repeat apply Forall_cons_2; try apply Forall_nil_2;
        (eexists; split; [reflexivity|]; split; by vm_compute; eexists). }
  split; [exact Hst|].
  destruct (get_meters_flattens (Pagination := unit) None None None
              None {[ "metadata.host" := VStr "h1" ]} example_resource_store
              Hst)
    as (base & mss & _ & _ & _ & Hok & _).
  exists (concat mss). split; [exact Hok|].
  assert (result_map length
            (Connection.get_meters (Pagination := unit) None None None None
               {[ "metadata.host" := VStr "h1" ]} None
               example_resource_store).1 = Ok 2%nat) as Hlen
    by (vm_compute; reflexivity).
  rewrite Hok in Hlen. by injection Hlen.
Defined.

(** The resources on the host, after the example sample was recorded: the
    one the sample names. *)
Lemma get_resources_lists_named_witness :
  unique_ids (docs (coll "resource" example_recorded_store))
  ∧ Forall stored_resource (docs (coll "resource" example_recorded_store))
  ∧ ∃ rs,
      (Connection.get_resources (Pagination := unit) None None None None None
         None None {[ "metadata.host" := VStr "h1" ]} None None
         example_recorded_store).1 = Ok rs
      ∧ r_resource_id <$> rs = [VStr "r1"].
Proof.
  assert (docs (coll "resource" example_recorded_store)
          = [ {[ "_id" := VStr "r1"; "project_id" := VStr "p1";
                 "user_id" := VStr "u1"; "source" := VStr "src1";
                 "metadata" := VDict {[ "host" := VStr "h1" ]};
                 "meter" :=
                   VList [ VDict {[ "counter_name" := VStr "cpu";
                                    "counter_type" := VStr "gauge";
                                    "counter_unit" := VStr "percent" ]} ] ]} ])
    as Hdocs by (vm_compute; reflexivity).
  assert (unique_ids (docs (coll "resource" example_recorded_store)))
    as Hids.
  { rewrite Hdocs. split.
    - apply Forall_cons_2; [|apply Forall_nil_2].
      exists (VStr "r1"). split; vm_compute; reflexivity.
    - apply (bool_decide_unpack _). vm_compute. exact I. }
  assert (Forall stored_resource
            (docs (coll "resource" example_recorded_store))) as Hst.
  { rewrite Hdocs. apply Forall_cons_2; [|apply Forall_nil_2]. split.
    - apply (bool_decide_unpack _). by vm_compute.
    - eexists. split; [by vm_compute|].
      repeat apply Forall_cons_2; try apply Forall_nil_2;
        (eexists; split; [reflexivity|]; split; by vm_compute; eexists). }
  split; [exact Hids|]. split; [exact Hst|].
  destruct (get_resources_lists_named (Pagination := unit) None None None
              None None None None {[ "metadata.host" := VStr "h1" ]} None
              example_recorded_store Hids Hst)
    as (q & by_id & rs & _ & Hok & _ & _).
  exists rs. split; [exact Hok|].
  assert (result_map (fmap r_resource_id)
            (Connection.get_resources (Pagination := unit) None None None
               None None None None {[ "metadata.host" := VStr "h1" ]} None
               None example_recorded_store).1 = Ok [VStr "r1"]) as Hrs
    by (vm_compute; reflexivity).
  rewrite Hok in Hrs. by injection Hrs.
Defined.

(** The samples on the host, after the example sample was recorded. *)
Lemma get_samples_all_without_limit_witness :
  Forall (λ d, is_Some (d !! "_id"))
    (docs (coll "meter" example_recorded_store))
  ∧ ∃ samples,
      (Connection.get_samples example_host_filter None
         example_recorded_store).1 = Ok samples
      ∧ length samples = 1%nat.
Proof.
  assert (Forall (λ d, is_Some (d !! "_id"))
            (docs (coll "meter" example_recorded_store))) as Hst.
  { apply (bool_decide_unpack _). by vm_compute. }
  split; [exact Hst|].
  destruct (get_samples_all_without_limit example_host_filter _
              example_recorded_store Hst eq_refl) as (samples & Hok & Hperm).
  exists samples. split; [exact Hok|].
  rewrite Hperm. by vm_compute.
Defined.

(** The example sample, written to the empty store and read back by its
    meter. *)
Lemma recorded_sample_is_read_back_witness :
  sample_payload example_sample
  ∧ store_wf empty_state
  ∧ ∃ samples,
      (Connection.get_samples (filter_of_meter (Some "cpu")) None
         (Connection.record_metering_data example_sample empty_state).2).1
      = Ok samples
      ∧ mkSample example_sample ∈ samples.
Proof.
  assert (sample_payload example_sample) as Hdata.
  { split; [|split]; [apply (bool_decide_unpack _); by vm_compute..|].
    by vm_compute. }
  assert (store_wf empty_state) as Hwf.
  { unfold store_wf, unique_ids, coll. simpl. rewrite !lookup_empty. simpl.
    repeat split; constructor. }
  split; [exact Hdata|]. split; [exact Hwf|].
  eapply (recorded_sample_is_read_back example_sample empty_state
            (filter_of_meter (Some "cpu"))).
  - exact Hdata.
  - exact Hwf.
  - apply (bool_decide_unpack _). by vm_compute.
  - reflexivity.
  - by vm_compute.
Defined.

(** The example sample, written to the empty store: its resource and its
    meter are listed. *)
Lemma recorded_resource_and_meter_are_listed_witness :
  sample_payload example_sample
  ∧ store_wf empty_state
  ∧ Forall stored_resource (docs (coll "resource" empty_state))
  ∧ ∃ ms m,
      (Connection.get_meters (Pagination := unit) None None None None ∅ None
         (Connection.record_metering_data example_sample empty_state).2).1
      = Ok ms
      ∧ m ∈ ms
      ∧ m_name m = VStr "cpu"
      ∧ m_resource_id m = VStr "r1".
Proof.
  assert (sample_payload example_sample) as Hdata.
  { split; [|split]; [apply (bool_decide_unpack _); by vm_compute..|].
    by vm_compute. }
  assert (store_wf empty_state) as Hwf.
  { unfold store_wf, unique_ids, coll. simpl. rewrite !lookup_empty. simpl.
    repeat split; constructor. }
  assert (Forall stored_resource (docs (coll "resource" empty_state)))
    as Hres.
  { unfold coll. simpl. rewrite lookup_empty. simpl. apply Forall_nil_2. }
  split; [exact Hdata|]. split; [exact Hwf|]. split; [exact Hres|].
  destruct (recorded_resource_and_meter_are_listed (Pagination := unit)
              example_sample empty_state Hdata Hwf Hres)
    as (_ & ms & m & Hok & Hm & (Hn & _) & (Hr & _)).
  exists ms, m. split; [exact Hok|]. split; [exact Hm|].
  split; [exact Hn|exact Hr].
Defined.
